(** * Self-healing execution engine of the Naukri job bot

    A shallow embedding of the retrying executor
    ([SelfHealingIntelligentNaukriBot.executeWithErrorRecovery]), of the
    error classifier and fix dispatcher ([ErrorAnalysisEngine]) and of the
    job scorer ([LLMJobAnalyzer.analyzeJob]).

    Conventions of the embedding:
    - JavaScript strings are byte strings ([string]); [toLowerCase] and the
      regular-expression classes act on the ASCII range.
    - Values that come out of [JSON.parse] are kept dynamically typed
      ([json], with [option json] for a possibly [undefined] property), since
      the source only casts them ([as ErrorAnalysis]).  Numbers are doubles,
      kept as exact rationals ([Q]); a parsed literal is rounded to the
      nearest double.
    - Everything asynchronous or external (the operation being retried, the
      browser page, the language model, timers, the console prompt) is an
      event answered by the environment; a method is a tree of such events
      ([prog]) threaded with the object's fields and with a possible thrown
      value ([outcome]).
    - [console.log] output is not modelled; an expression interpolated into
      a log line is kept where evaluating it can throw. *)

From Stdlib Require Import String Ascii List ZArith QArith Bool Lia DecimalString.
Import ListNotations.

Local Open Scope string_scope.
Local Open Scope Z_scope.

(* ================================================================== *)
(** ** Strings *)
(* ================================================================== *)

Module Str.

(** The double-quote character, and the one-character string of it. *)
Definition dquote : ascii := ascii_of_nat 34.
Definition dq : string := String dquote EmptyString.

(** [s.includes(sub)] *)
Fixpoint includes (s sub : string) : bool :=
  if String.prefix sub s then true
  else match s with
       | EmptyString => false
       | String _ s' => includes s' sub
       end.

Definition is_upper (c : ascii) : bool :=
  let n := nat_of_ascii c in (65 <=? n)%nat && (n <=? 90)%nat.

Definition is_lower (c : ascii) : bool :=
  let n := nat_of_ascii c in (97 <=? n)%nat && (n <=? 122)%nat.

Definition is_digit (c : ascii) : bool :=
  let n := nat_of_ascii c in (48 <=? n)%nat && (n <=? 57)%nat.

Definition is_alpha (c : ascii) : bool := is_upper c || is_lower c.

(** the class [\w] *)
Definition is_word (c : ascii) : bool :=
  is_alpha c || is_digit c || Ascii.eqb c "_".

(** the class [\s], and what [trim] strips *)
Definition is_space (c : ascii) : bool :=
  let n := nat_of_ascii c in
  (n =? 32)%nat || ((9 <=? n)%nat && (n <=? 13)%nat).

Definition lower_char (c : ascii) : ascii :=
  if is_upper c then ascii_of_nat (nat_of_ascii c + 32) else c.

(** [s.toLowerCase()] *)
Fixpoint toLowerCase (s : string) : string :=
  match s with
  | EmptyString => EmptyString
  | String c s' => String (lower_char c) (toLowerCase s')
  end.

Fixpoint drop_while (p : ascii -> bool) (s : string) : string :=
  match s with
  | EmptyString => EmptyString
  | String c s' => if p c then drop_while p s' else s
  end.

Fixpoint take_while (p : ascii -> bool) (s : string) : string :=
  match s with
  | EmptyString => EmptyString
  | String c s' => if p c then String c (take_while p s') else EmptyString
  end.

Fixpoint rev_onto (s acc : string) : string :=
  match s with
  | EmptyString => acc
  | String c s' => rev_onto s' (String c acc)
  end.

Definition rev (s : string) : string := rev_onto s EmptyString.

(** [s.trim()] *)
Definition trim (s : string) : string :=
  rev (drop_while is_space (rev (drop_while is_space s))).

(** [s.indexOf(c)] for a one-character needle; [None] stands for [-1] *)
Fixpoint indexOf (c : ascii) (s : string) : option nat :=
  match s with
  | EmptyString => None
  | String d s' =>
      if Ascii.eqb c d then Some O else option_map S (indexOf c s')
  end.

(** [s.lastIndexOf(c)] for a one-character needle *)
Fixpoint lastIndexOf (c : ascii) (s : string) : option nat :=
  match s with
  | EmptyString => None
  | String d s' =>
      match lastIndexOf c s' with
      | Some i => Some (S i)
      | None => if Ascii.eqb c d then Some O else None
      end
  end.

(** [s.substring(a, b)]: the arguments are clamped to the length and
    swapped when [a > b]. *)
Definition substring (a b : nat) (s : string) : string :=
  let n := String.length s in
  let a' := Nat.min a n in
  let b' := Nat.min b n in
  let lo := Nat.min a' b' in
  let hi := Nat.max a' b' in
  String.substring lo (hi - lo) s.

(** One-character pieces of a string, as [for ... of] yields them. *)
Fixpoint chars (s : string) : list string :=
  match s with
  | EmptyString => []
  | String c s' => String c EmptyString :: chars s'
  end.

End Str.

(* ================================================================== *)
(** ** JSON values and dynamically typed access *)
(* ================================================================== *)

Set Warnings "-register-all".

Inductive json : Type :=
| JNull
| JBool (b : bool)
| JNum (q : Q)
| JStr (s : string)
| JArr (items : list json)
| JObj (fields : list (string * json)).

(** A value that may be [undefined]. *)
Definition jsval : Type := option json.

Definition undefined : jsval := None.

Module Js.

(** Own-property lookup in a field list. *)
Fixpoint lookup (k : string) (fields : list (string * json)) : jsval :=
  match fields with
  | [] => None
  | (k', v) :: rest => if String.eqb k k' then Some v else lookup k rest
  end.

(** [obj[k] = v] on a field list: replaces in place, or appends. *)
Fixpoint assign (k : string) (v : json) (fields : list (string * json))
  : list (string * json) :=
  match fields with
  | [] => [(k, v)]
  | (k', v') :: rest =>
      if String.eqb k k' then (k, v) :: rest
      else (k', v') :: assign k v rest
  end.

(** [v.k] for a property name that no prototype defines: the own
    property of an object, [undefined] on anything else.  (On [null] the
    access throws; callers guard it with [is_nullish].) *)
Definition field (v : json) (k : string) : jsval :=
  match v with
  | JObj fields => lookup k fields
  | _ => None
  end.

Definition is_nullish (v : jsval) : bool :=
  match v with
  | None | Some JNull => true
  | _ => false
  end.

(** ToBoolean *)
Definition truthy (v : jsval) : bool :=
  match v with
  | None => false
  | Some JNull => false
  | Some (JBool b) => b
  | Some (JNum q) => negb (Qeq_bool q 0)
  | Some (JStr s) => negb (String.eqb s "")
  | Some (JArr _) | Some (JObj _) => true
  end.

(** [v === "lit"] *)
Definition is_str (v : jsval) (lit : string) : bool :=
  match v with
  | Some (JStr s) => String.eqb s lit
  | _ => false
  end.

(** What [for (const x of v)] iterates over; [None] when [v] is not
    iterable (a TypeError). *)
Definition iterate (v : jsval) : option (list json) :=
  match v with
  | Some (JArr items) => Some items
  | Some (JStr s) => Some (map JStr (Str.chars s))
  | _ => None
  end.

(** [v.includes("lit")]: substring test on a string, membership on an
    array, and a TypeError ([None]) on every other value, none of which
    has a callable [includes]. *)
Definition includes (v : json) (lit : string) : option bool :=
  match v with
  | JStr s => Some (Str.includes s lit)
  | JArr items =>
      Some (existsb (fun x => is_str (Some x) lit) items)
  | _ => None
  end.

(** [v[0]] on a value that is not nullish: the first element of an array,
    the first character of a string, the own property ["0"] of an object,
    [undefined] on a number or boolean. *)
Definition first_item (v : jsval) : jsval :=
  match v with
  | Some (JArr items) => hd_error items
  | Some (JStr (String c _)) => Some (JStr (String c EmptyString))
  | Some (JObj fields) => lookup "0" fields
  | _ => None
  end.

(** Whether ToString completes on a value that came out of [JSON.parse],
    as a template literal applies it.  An object with an own property
    [toString] has no callable conversion (a parsed value is never a
    function, and [valueOf] gives the object back): a TypeError.  An
    array joins its elements, converting each one that is not [null]. *)
Fixpoint printable_json (v : json) : bool :=
  match v with
  | JArr items => forallb printable_json items
  | JObj fields =>
      match lookup "toString" fields with
      | Some _ => false
      | None => true
      end
  | _ => true
  end.

Definition printable (v : jsval) : bool :=
  match v with
  | Some j => printable_json j
  | None => true
  end.

(** SameValueZero on values freshly produced by [JSON.parse] or by a
    literal: primitives compare by value, while an array or object is a
    new reference and equals no stored key. *)
Definition same_value_zero (a b : jsval) : bool :=
  match a, b with
  | None, None => true
  | Some JNull, Some JNull => true
  | Some (JBool x), Some (JBool y) => Bool.eqb x y
  | Some (JNum x), Some (JNum y) => Qeq_bool x y
  | Some (JStr x), Some (JStr y) => String.eqb x y
  | _, _ => false
  end.

End Js.

(** A JavaScript [Map]: entries in insertion order; [set] on a present key
    updates the entry where it stands. *)
Module JsMap.

Section Ops.
Context {K V : Type} (same : K -> K -> bool).

Fixpoint get (k : K) (m : list (K * V)) : option V :=
  match m with
  | [] => None
  | (k', v) :: rest => if same k k' then Some v else get k rest
  end.

Fixpoint set (k : K) (v : V) (m : list (K * V)) : list (K * V) :=
  match m with
  | [] => [(k, v)]
  | (k', v') :: rest =>
      if same k k' then (k', v) :: rest else (k', v') :: set k v rest
  end.

End Ops.

End JsMap.

(* ================================================================== *)
(** ** The classification record and the keyword classifier *)
(* ================================================================== *)

Inductive ErrorType : Type :=
| timeout | locator | network | captcha | ui_change | unknown.

Inductive Severity : Type := low | medium | high.

(** [interface ErrorAnalysis] *)
Record ErrorAnalysis : Type := {
  errorType : ErrorType;
  severity : Severity;
  suggestedFixes : list string;
  alternativeLocators : list string;
  shouldRetry : bool;
  retryDelay : Z
}.

Definition ErrorType_name (t : ErrorType) : string :=
  match t with
  | timeout => "timeout"
  | locator => "locator"
  | network => "network"
  | captcha => "captcha"
  | ui_change => "ui_change"
  | unknown => "unknown"
  end.

Definition Severity_name (s : Severity) : string :=
  match s with
  | low => "low"
  | medium => "medium"
  | high => "high"
  end.

(** The object a well-typed [ErrorAnalysis] is at run time. *)
Definition ErrorAnalysis_object (a : ErrorAnalysis) : json :=
  JObj [ ("errorType", JStr (ErrorType_name a.(errorType)));
         ("severity", JStr (Severity_name a.(severity)));
         ("suggestedFixes", JArr (map JStr a.(suggestedFixes)));
         ("alternativeLocators", JArr (map JStr a.(alternativeLocators)));
         ("shouldRetry", JBool a.(shouldRetry));
         ("retryDelay", JNum (inject_Z a.(retryDelay))) ].

(** Whether a value has the shape of [interface ErrorAnalysis]: every
    field present and of its declared type. *)
Definition is_ErrorAnalysis (v : json) : bool :=
  let strings (x : jsval) :=
    match x with
    | Some (JArr items) =>
        forallb (fun i => match i with JStr _ => true | _ => false end) items
    | _ => false
    end in
  let one_of (names : list string) (x : jsval) :=
    match x with
    | Some (JStr s) => existsb (String.eqb s) names
    | _ => false
    end in
  one_of ["timeout"; "locator"; "network"; "captcha"; "ui_change"; "unknown"]
    (Js.field v "errorType")
  && one_of ["low"; "medium"; "high"] (Js.field v "severity")
  && strings (Js.field v "suggestedFixes")
  && strings (Js.field v "alternativeLocators")
  && match Js.field v "shouldRetry" with Some (JBool _) => true | _ => false end
  && match Js.field v "retryDelay" with Some (JNum _) => true | _ => false end.

Definition getContextBasedLocators (context : string) : list string :=
  if Str.includes context "login" then
    ["#usernameField"; "[name=" ++ Str.dq ++ "email" ++ Str.dq ++ "]";
     "[type=" ++ Str.dq ++ "email" ++ Str.dq ++ "]"; "#emailField"]
  else if Str.includes context "job" then
    [".jobTuple"; ".job-card"; ".job-listing"; ".title"]
  else if Str.includes context "apply" then
    ["button:has-text(" ++ Str.dq ++ "Apply" ++ Str.dq ++ ")"; ".apply-btn";
     "a:has-text(" ++ Str.dq ++ "Apply" ++ Str.dq ++ ")"]
  else [].

Definition fallbackErrorAnalysis (errorMessage context : string)
  : ErrorAnalysis :=
  if Str.includes errorMessage "timeout" then
    {| errorType := timeout;
       severity := medium;
       suggestedFixes :=
         ["increase timeout"; "wait for load"; "retry navigation"];
       alternativeLocators := [];
       shouldRetry := true;
       retryDelay := 5000 |}
  else if Str.includes errorMessage "locator"
          || Str.includes errorMessage "selector" then
    {| errorType := locator;
       severity := high;
       suggestedFixes :=
         ["try alternative locators"; "update selectors"; "wait for element"];
       alternativeLocators := getContextBasedLocators context;
       shouldRetry := true;
       retryDelay := 2000 |}
  else
    {| errorType := unknown;
       severity := medium;
       suggestedFixes := ["retry operation"; "wait and retry"];
       alternativeLocators := [];
       shouldRetry := true;
       retryDelay := 3000 |}.

(* ================================================================== *)
(** ** [JSON.parse] *)
(* ================================================================== *)

Module Json.

Definition is_ws (c : ascii) : bool :=
  let n := nat_of_ascii c in
  (n =? 32)%nat || (n =? 9)%nat || (n =? 10)%nat || (n =? 13)%nat.

Definition skip_ws (s : string) : string := Str.drop_while is_ws s.

Definition strip_prefix (p s : string) : option string :=
  if String.prefix p s
  then Some (String.substring (String.length p)
               (String.length s - String.length p) s)
  else None.

Definition digit_val (c : ascii) : Z := Z.of_nat (nat_of_ascii c) - 48.

Fixpoint digits_val (s : string) (acc : Z) : Z :=
  match s with
  | EmptyString => acc
  | String c s' => digits_val s' (10 * acc + digit_val c)
  end.

Definition hex_val (c : ascii) : option Z :=
  let n := Z.of_nat (nat_of_ascii c) in
  if Str.is_digit c then Some (n - 48)
  else if (97 <=? n) && (n <=? 102) then Some (n - 87)
  else if (65 <=? n) && (n <=? 70) then Some (n - 55)
  else None.

Definition byte (n : Z) : ascii := ascii_of_nat (Z.to_nat n).

(** The bytes (UTF-8) of the code unit written [\uXXXX]. *)
Definition utf8 (u : Z) : string :=
  if u <? 128 then String (byte u) EmptyString
  else if u <? 2048 then
    String (byte (192 + u / 64)) (String (byte (128 + u mod 64)) EmptyString)
  else
    String (byte (224 + u / 4096))
      (String (byte (128 + (u / 64) mod 64))
         (String (byte (128 + u mod 64)) EmptyString)).

(** The characters of a string literal after its opening quote, up to the
    closing quote; the result is the decoded string and what follows. *)
Fixpoint string_body (s : string) : option (string * string) :=
  match s with
  | EmptyString => None
  | String c r =>
      if Ascii.eqb c Str.dquote then Some (EmptyString, r)
      else if Ascii.eqb c "\" then
        match r with
        | String "u" (String a (String b (String x (String y r')))) =>
            match hex_val a, hex_val b, hex_val x, hex_val y with
            | Some ha, Some hb, Some hx, Some hy =>
                match string_body r' with
                | Some (t, rest) =>
                    Some (utf8 (4096 * ha + 256 * hb + 16 * hx + hy) ++ t,
                          rest)
                | None => None
                end
            | _, _, _, _ => None
            end
        | String e r' =>
            let unescaped :=
              if Ascii.eqb e Str.dquote then Some Str.dquote
              else if Ascii.eqb e "\" then Some "\"%char
              else if Ascii.eqb e "/" then Some "/"%char
              else if Ascii.eqb e "b" then Some (ascii_of_nat 8)
              else if Ascii.eqb e "f" then Some (ascii_of_nat 12)
              else if Ascii.eqb e "n" then Some (ascii_of_nat 10)
              else if Ascii.eqb e "r" then Some (ascii_of_nat 13)
              else if Ascii.eqb e "t" then Some (ascii_of_nat 9)
              else None in
            match unescaped, string_body r' with
            | Some d, Some (t, rest) => Some (String d t, rest)
            | _, _ => None
            end
        | EmptyString => None
        end
      else if (nat_of_ascii c <? 32)%nat then None
      else match string_body r with
           | Some (t, rest) => Some (String c t, rest)
           | None => None
           end
  end.

(** [a / b] rounded to the nearest integer, a tie going to the even one;
    for [0 <= a] and [0 < b]. *)
Definition round_half_even (a b : Z) : Z :=
  let q := a / b in
  let r := a mod b in
  if 2 * r <? b then q
  else if b <? 2 * r then q + 1
  else if Z.even q then q else q + 1.

(** The exponent [e] with [2 ^ e <= n / d < 2 ^ (e + 1)], for positive
    [n] and [d]. *)
Definition binade (n d : Z) : Z :=
  let e0 := Z.log2 n - Z.log2 d in
  let below :=
    if 0 <=? e0 then n <? d * 2 ^ e0 else n * 2 ^ (- e0) <? d in
  if below then e0 - 1 else e0.

(** The Number value of a decimal: the nearest IEEE 754 double, a tie
    going to the even significand; 53 bits of significand, steps of
    [2 ^ -1074] below [2 ^ -1022].  The magnitude [2 ^ 1024] stands for
    [Infinity].  The result is in lowest terms. *)
Definition to_double (q : Q) : Q :=
  let n := Z.abs (Qnum q) in
  let d := Z.pos (Qden q) in
  if n =? 0 then 0%Q
  else
    let k := Z.max (binade n d - 52) (-1074) in
    let magnitude :=
      if 0 <=? k then
        let v := round_half_even n (d * 2 ^ k) * 2 ^ k in
        inject_Z (if 2 ^ 1024 <=? v then 2 ^ 1024 else v)
      else
        Qred (Qmake (round_half_even (n * 2 ^ (- k)) d)
                (Z.to_pos (2 ^ (- k)))) in
    if Qnum q <? 0 then Qopp magnitude else magnitude.

(** A run of digits and what follows it. *)
Definition digits (s : string) : string * string :=
  (Str.take_while Str.is_digit s, Str.drop_while Str.is_digit s).

(** A number literal: an optional minus sign; a zero, or a nonzero digit
    followed by digits; optionally a point and at least one digit;
    optionally an exponent mark, a sign and at least one digit.  Its
    value is the double nearest to the decimal. *)
Definition number (s : string) : option (Q * string) :=
  let '(neg, s1) :=
    match s with
    | String "-" r => (true, r)
    | _ => (false, s)
    end in
  let int_part :=
    match s1 with
    | String "0" r => Some ("0", r)
    | String c _ => if Str.is_digit c then Some (digits s1) else None
    | EmptyString => None
    end in
  match int_part with
  | None => None
  | Some (ds, s2) =>
      let frac_part :=
        match s2 with
        | String "." r =>
            match digits r with
            | (EmptyString, _) => None
            | (fs, r') => Some (fs, r')
            end
        | _ => Some (EmptyString, s2)
        end in
      match frac_part with
      | None => None
      | Some (fs, s3) =>
          let exp_part :=
            match s3 with
            | String c r =>
                if Ascii.eqb c "e" || Ascii.eqb c "E" then
                  let '(eneg, r1) :=
                    match r with
                    | String "-" r' => (true, r')
                    | String "+" r' => (false, r')
                    | _ => (false, r)
                    end in
                  match digits r1 with
                  | (EmptyString, _) => None
                  | (es, r2) =>
                      let e := digits_val es 0 in
                      Some (if eneg then - e else e, r2)
                  end
                else Some (0, s3)
            | EmptyString => Some (0, s3)
            end in
          match exp_part with
          | None => None
          | Some (e, s4) =>
              let mant := digits_val (ds ++ fs) 0 in
              let mant := if neg then - mant else mant in
              let e10 := e - Z.of_nat (String.length fs) in
              let q :=
                if 0 <=? e10 then inject_Z (mant * 10 ^ e10)
                else Qmake mant (Z.to_pos (10 ^ (- e10))) in
              Some (to_double q, s4)
          end
      end
  end.

Inductive result : Type :=
| Parsed (v : json) (rest : string)
| SyntaxError
| OutOfFuel.

(** What the parser is in the middle of: a value, the members of an object
    after [{] or [,], the elements of an array after [[] or [,]. *)
Inductive mode : Type :=
| Value
| Members (acc : list (string * json))
| Elements (acc : list json).

(** The rest of [s] when it starts with [c]. *)
Definition after (c : ascii) (s : string) : option string :=
  match s with
  | String d r => if Ascii.eqb c d then Some r else None
  | EmptyString => None
  end.

Definition literal (s : string) : option (json * string) :=
  match strip_prefix "true" s, strip_prefix "false" s,
        strip_prefix "null" s with
  | Some rest, _, _ => Some (JBool true, rest)
  | _, Some rest, _ => Some (JBool false, rest)
  | _, _, Some rest => Some (JNull, rest)
  | _, _, _ => None
  end.

Fixpoint parse (fuel : nat) (m : mode) (s : string) : result :=
  match fuel with
  | O => OutOfFuel
  | S fuel' =>
      match m with
      | Value =>
          let s' := skip_ws s in
          match after "{" s', after "[" s', after Str.dquote s' with
          | Some r, _, _ =>
              match after "}" (skip_ws r) with
              | Some r' => Parsed (JObj []) r'
              | None => parse fuel' (Members []) r
              end
          | _, Some r, _ =>
              match after "]" (skip_ws r) with
              | Some r' => Parsed (JArr []) r'
              | None => parse fuel' (Elements []) r
              end
          | _, _, Some r =>
              match string_body r with
              | Some (t, rest) => Parsed (JStr t) rest
              | None => SyntaxError
              end
          | None, None, None =>
              match literal s', number s' with
              | Some (v, rest), _ => Parsed v rest
              | None, Some (q, rest) => Parsed (JNum q) rest
              | None, None => SyntaxError
              end
          end
      | Members acc =>
          match after Str.dquote (skip_ws s) with
          | Some r =>
              match string_body r with
              | Some (key, r1) =>
                  match after ":" (skip_ws r1) with
                  | Some r2 =>
                      match parse fuel' Value r2 with
                      | Parsed v r3 =>
                          let acc' := Js.assign key v acc in
                          match after "," (skip_ws r3),
                                after "}" (skip_ws r3) with
                          | Some r4, _ => parse fuel' (Members acc') r4
                          | None, Some r4 => Parsed (JObj acc') r4
                          | None, None => SyntaxError
                          end
                      | failure => failure
                      end
                  | None => SyntaxError
                  end
              | None => SyntaxError
              end
          | None => SyntaxError
          end
      | Elements acc =>
          match parse fuel' Value s with
          | Parsed v r1 =>
              match after "," (skip_ws r1), after "]" (skip_ws r1) with
              | Some r2, _ => parse fuel' (Elements (acc ++ [v])) r2
              | None, Some r2 => Parsed (JArr (acc ++ [v])) r2
              | None, None => SyntaxError
              end
          | failure => failure
          end
      end
  end.

(** [JSON.parse(text)]; [None] when it throws a SyntaxError. *)
Definition JSON_parse (text : string) : option json :=
  match parse (2 * String.length text + 1) Value text with
  | Parsed v rest =>
      match skip_ws rest with
      | EmptyString => Some v
      | _ => None
      end
  | _ => None
  end.

End Json.

(* ================================================================== *)
(** ** Programs over environment events *)
(* ================================================================== *)

(** A computation that asks the environment for the answer to an event and
    goes on with it, or has finished with a result. *)
Inductive prog (E : Type -> Type) (R : Type) : Type :=
| Ret (r : R)
| Vis {X : Type} (e : E X) (k : X -> prog E R).

Arguments Ret {E R} r.
Arguments Vis {E R X} e k.

Fixpoint pbind {E A B} (p : prog E A) (f : A -> prog E B) : prog E B :=
  match p with
  | Ret a => f a
  | Vis e k => Vis e (fun x => pbind (k x) f)
  end.

(** Running a program of one component inside another one's events. *)
Fixpoint translate {E F R} (h : forall X, E X -> F X) (p : prog E R)
  : prog F R :=
  match p with
  | Ret r => Ret r
  | Vis e k => Vis (h _ e) (fun x => translate h (k x))
  end.

(** One exchange with the environment: the event and its answer. *)
Inductive obs (E : Type -> Type) : Type :=
| Obs {X : Type} (e : E X) (x : X).

Arguments Obs {E X} e x.

(** [runs p tr r]: with the environment answering as recorded in [tr],
    [p] finishes with [r], having made exactly the exchanges of [tr]. *)
Fixpoint runs {E R} (p : prog E R) (tr : list (obs E)) (r : R) : Prop :=
  match p with
  | Ret r0 => tr = [] /\ r = r0
  | Vis e k => exists x tr', tr = Obs e x :: tr' /\ runs (k x) tr' r
  end.

(** An environment answers an event knowing what happened so far. *)
Definition env (E : Type -> Type) : Type :=
  list (obs E) -> forall X, E X -> X.

Fixpoint run_in {E R} (w : env E) (past : list (obs E)) (p : prog E R)
  : list (obs E) * R :=
  match p with
  | Ret r => ([], r)
  | Vis e k =>
      let x := w past _ e in
      let '(tr, r) := run_in w (past ++ [Obs e x]) (k x) in
      (Obs e x :: tr, r)
  end.

(** *** Thrown values, and methods with fields *)

(** An [Error] object as the environment produces it. *)
Record error_obj : Type := {
  message : string;
  stack : option string
}.

Inductive thrown : Type :=
| Raised (e : error_obj)
    (* an error of the operation, the page or the model, (re)thrown *)
| TypeError
| SyntaxError
| MaxRetriesError (retries : Z) (context : string).
    (* [new Error(`Max retries (...) exceeded for operation: ...`)] *)

Inductive outcome (A : Type) : Type :=
| Returned (a : A)
| Thrown (t : thrown).

Arguments Returned {A} a.
Arguments Thrown {A} t.

(** A method of an object with fields [S]: from the fields before to an
    outcome and the fields after. *)
Definition M (E : Type -> Type) (S A : Type) : Type :=
  S -> prog E (outcome A * S).

Section Monad.
Context {E : Type -> Type} {S : Type}.

Definition ret {A} (a : A) : M E S A := fun s => Ret (Returned a, s).

Definition throw {A} (t : thrown) : M E S A := fun s => Ret (Thrown t, s).

Definition bind {A B} (m : M E S A) (k : A -> M E S B) : M E S B :=
  fun s =>
    pbind (m s)
      (fun r => match r with
                | (Returned a, s') => k a s'
                | (Thrown t, s') => Ret (Thrown t, s')
                end).

(** [try { m } catch (t) { h t }] *)
Definition try_catch {A} (m : M E S A) (h : thrown -> M E S A) : M E S A :=
  fun s =>
    pbind (m s)
      (fun r => match r with
                | (Returned a, s') => Ret (Returned a, s')
                | (Thrown t, s') => h t s'
                end).

(** A call that cannot fail. *)
Definition perform {X} (e : E X) : M E S X :=
  fun s => Vis e (fun x => Ret (Returned x, s)).

(** [await] of a promise that resolves or rejects. *)
Definition await {X} (e : E (X + error_obj)) : M E S X :=
  fun s =>
    Vis e (fun x => match x with
                    | inl v => Ret (Returned v, s)
                    | inr err => Ret (Thrown (Raised err), s)
                    end).

Definition get : M E S S := fun s => Ret (Returned s, s).

Definition modify (f : S -> S) : M E S unit :=
  fun s => Ret (Returned tt, f s).

(** The value of a call that throws a TypeError when it has none. *)
Definition defined {A} (v : option A) : M E S A :=
  match v with
  | Some a => ret a
  | None => throw TypeError
  end.

End Monad.

Declare Scope js_scope.
Delimit Scope js_scope with js.
Notation "x <- m ;; k" := (bind m (fun x => k))
  (at level 61, m at next level, right associativity) : js_scope.
Notation "m ;; k" := (bind m (fun _ => k))
  (at level 61, right associativity) : js_scope.
Local Open Scope js_scope.

(* ================================================================== *)
(** ** [ErrorAnalysisEngine] *)
(* ================================================================== *)

Record analysis_prompt : Type := {
  ap_action : string;
  ap_url : string;
  ap_pageTitle : string;
  ap_errorMessage : string;
  ap_stackTrace : string;
  ap_visibleElements : list string;
  ap_hasLoginForms : bool;
  ap_hasJobListings : bool;
  ap_hasCaptcha : bool;
  ap_previousErrors : list (string * Z)
}.

(** What the two prompts interpolate; their fixed wording is left out. *)
Inductive prompt : Type :=
| AnalysisPrompt (p : analysis_prompt)
| UiAnalysisPrompt (context currentUrl pageTitle : string).

(** The calls the engine makes on its page, its model client and the
    console. *)
Inductive engineE : Type -> Type :=
| page_title : engineE (string + error_obj)
| page_content : engineE (string + error_obj)
| page_evaluate_visible : engineE (list string + error_obj)
| page_url : engineE string
| page_waitForTimeout (ms : Z) : engineE (unit + error_obj)
| page_waitForLoadState (state : string) (timeout : Z)
    : engineE (unit + error_obj)
| page_reload (waitUntil : string) (timeout : option Z)
    : engineE (unit + error_obj)
| page_screenshot : engineE (unit + error_obj)
| locator_isVisible (selector : json) (timeout : Z)
    : engineE (bool + error_obj)
    (* [this.page.locator(selector).first().isVisible({ timeout })] *)
| llm_chat (p : prompt) : engineE (string + error_obj)
    (* [(await this.llm.chat(...)).message.content] *)
| rl_question (query : string) : engineE unit.
    (* [rl.question(query, callback)]: answered when a line is entered *)

(** The two private maps of the engine. *)
Record engine : Type := {
  errorHistory : list (string * Z);
  successfulFixes : list (string * json)
}.

Definition new_engine : engine :=
  {| errorHistory := []; successfulFixes := [] |}.

(** A piece of text: a literal, or a template literal with one
    interpolated value. *)
Inductive text : Type :=
| Lit (s : string)
| Interp (prefix : string) (v : json).

(** [interface FixAttempt] *)
Record FixAttempt : Type := {
  strategy : text;
  success : bool;
  newLocator : jsval;
  notes : text
}.

Definition EM : Type -> Type := M engineE engine.

(** The engine after [logError(error)]. *)
Definition logged (error : string) (eng : engine) : engine :=
  let count :=
    match JsMap.get String.eqb error eng.(errorHistory) with
    | Some c => c
    | None => 0
    end in
  {| errorHistory := JsMap.set String.eqb error (count + 1)
                       eng.(errorHistory);
     successfulFixes := eng.(successfulFixes) |}.

Definition logError (error : string) : EM unit := modify (logged error).

Definition getVisibleElements : EM (list string) :=
  try_catch (await page_evaluate_visible) (fun _ => ret []).

(** [text.match(/\{[\s\S]*\}/)]: from the first opening brace to the last
    closing brace after it. *)
Definition match_braces (content : string) : option string :=
  match Str.indexOf "{" content with
  | None => None
  | Some i =>
      let from := String.substring i (String.length content - i) content in
      match Str.lastIndexOf "}" from with
      | Some j => Some (String.substring 0 (S j) from)
      | None => None
      end
  end.

Definition analyzeError (error : error_obj) (context currentUrl : string)
  : EM json :=
  let errorMessage := error.(message) in
  let stackTrace := match error.(stack) with Some s => s | None => "" end in
  pageTitle <- try_catch (await page_title) (fun _ => ret "Unknown") ;;
  pageHtml <- try_catch (await page_content) (fun _ => ret "") ;;
  visibleElements <- getVisibleElements ;;
  eng <- get ;;
  let analysisPrompt := AnalysisPrompt
    {| ap_action := context;
       ap_url := currentUrl;
       ap_pageTitle := pageTitle;
       ap_errorMessage := errorMessage;
       ap_stackTrace := stackTrace;
       ap_visibleElements := firstn 10 visibleElements;
       ap_hasLoginForms :=
         Str.includes pageHtml "password" || Str.includes pageHtml "login";
       ap_hasJobListings :=
         Str.includes pageHtml "jobTuple" || Str.includes pageHtml "job";
       ap_hasCaptcha :=
         Str.includes pageHtml "captcha" || Str.includes pageHtml "recaptcha";
       ap_previousErrors := eng.(errorHistory) |} in
  answered <-
    try_catch
      (content <- await (llm_chat analysisPrompt) ;;
       match match_braces content with
       | Some jsonMatch =>
           match Json.JSON_parse jsonMatch with
           | Some analysis =>
               logError errorMessage ;;
               ret (Some analysis)
           | None => throw SyntaxError
           end
       | None => ret None
       end)
      (fun llmError => ret None) ;;
  match answered with
  | Some analysis => ret analysis
  | None =>
      ret (ErrorAnalysis_object (fallbackErrorAnalysis errorMessage context))
  end.

(** *** Selector extraction *)

Module Selectors.

Definition is_word_or_dash (c : ascii) : bool :=
  Str.is_word c || Ascii.eqb c "-".

Definition run_length (p : ascii -> bool) (s : string) : nat :=
  String.length (Str.take_while p s).

Definition skip (n : nat) (s : string) : string :=
  String.substring n (String.length s - n) s.

(** Each [at_*] gives the length of the match of one pattern at the very
    start of [s], if it matches there. *)

(** [/[#.]\w+[\w\-]*/] *)
Definition at_id_or_class (s : string) : option nat :=
  match s with
  | String c r =>
      if Ascii.eqb c "#" || Ascii.eqb c "." then
        match run_length Str.is_word r with
        | O => None
        | _ => Some (S (run_length is_word_or_dash r))
        end
      else None
  | EmptyString => None
  end.

(** [/\w+\[[^\]]+\]/] *)
Definition at_attribute (s : string) : option nat :=
  match run_length Str.is_word s with
  | O => None
  | w =>
      match skip w s with
      | String "[" r =>
          let inside := run_length (fun c => negb (Ascii.eqb c "]")) r in
          match inside, skip inside r with
          | S _, String "]" _ => Some (w + 1 + inside + 1)%nat
          | _, _ => None
          end
      | _ => None
      end
  end.

(** [/\w+:\w+\([^)]*\)/] *)
Definition at_pseudo (s : string) : option nat :=
  match run_length Str.is_word s with
  | O => None
  | w =>
      match skip w s with
      | String ":" r =>
          match run_length Str.is_word r with
          | O => None
          | w2 =>
              match skip w2 r with
              | String "(" r2 =>
                  let inside :=
                    run_length (fun c => negb (Ascii.eqb c ")")) r2 in
                  match skip inside r2 with
                  | String ")" _ => Some (w + 1 + w2 + 1 + inside + 1)%nat
                  | _ => None
                  end
              | _ => None
              end
          end
      | _ => None
      end
  end.

(** Where the scan of one more [\s*[>,]\s*\w+] group stands. *)
Inductive group_state : Type :=
| BeforeSep     (* in the blanks before [>] or [,] *)
| AfterSep      (* in the blanks after it *)
| InWord.       (* in the word that completes the group *)

Definition is_sep (c : ascii) : bool := Ascii.eqb c ">" || Ascii.eqb c ",".

(** Length matched by [(?:\s*[>,]\s*\w+)*] at the start of [s]: [done]
    characters belong to completed groups, [pending] to the group being
    attempted. *)
Fixpoint groups (st : group_state) (done pending : nat) (s : string) : nat :=
  match s with
  | EmptyString =>
      match st with
      | InWord => done + pending
      | _ => done
      end
  | String c r =>
      match st with
      | BeforeSep =>
          if Str.is_space c then groups BeforeSep done (S pending) r
          else if is_sep c then groups AfterSep done (S pending) r
          else done
      | AfterSep =>
          if Str.is_space c then groups AfterSep done (S pending) r
          else if Str.is_word c then groups InWord done (S pending) r
          else done
      | InWord =>
          if Str.is_word c then groups InWord done (S pending) r
          else if Str.is_space c then groups BeforeSep (done + pending) 1 r
          else if is_sep c then groups AfterSep (done + pending) 1 r
          else (done + pending)%nat
      end
  end.

(** [/[a-zA-Z]+[\w\-]*(?:\s*[>,]\s*\w+)*/] *)
Definition at_combination (s : string) : option nat :=
  match run_length Str.is_alpha s with
  | O => None
  | _ =>
      let head := run_length is_word_or_dash s in
      Some (head + groups BeforeSep 0 0 (skip head s))%nat
  end.

(** [text.match(pattern)] with the [g] flag: the matches from left to
    right, each search resuming where the previous match ended.  [inside]
    counts the characters of the current match still to be passed. *)
Fixpoint match_all (at_start : string -> option nat) (inside : nat)
  (s : string) : list string :=
  match s with
  | EmptyString => []
  | String _ r =>
      match inside with
      | S n => match_all at_start n r
      | O =>
          match at_start s with
          | Some len =>
              String.substring 0 len s :: match_all at_start (len - 1) r
          | None => match_all at_start 0 r
          end
      end
  end.

(** [[...new Set(xs)]] *)
Fixpoint dedup (xs : list string) : list string :=
  match xs with
  | [] => []
  | x :: rest =>
      x :: filter (fun y => negb (String.eqb x y)) (dedup rest)
  end.

Definition extractSelectorsFromText (t : string) : list string :=
  let selectors :=
    (match_all at_id_or_class 0 t ++ match_all at_attribute 0 t
     ++ match_all at_pseudo 0 t ++ match_all at_combination 0 t)%list in
  firstn 5 (dedup selectors).

End Selectors.

(** *** Fix handlers *)

Definition includes_lit (v : json) (lit : string) : EM bool :=
  defined (Js.includes v lit).

Definition fixTimeout (fix_ : json) (context : string) : EM FixAttempt :=
  inc <- includes_lit fix_ "increase timeout" ;;
  if inc then
    await (page_waitForTimeout 5000) ;;
    ret {| strategy := Lit "Increased timeout";
           success := true;
           newLocator := undefined;
           notes := Lit "Added 5 second delay" |}
  else
    wait <- includes_lit fix_ "wait for load" ;;
    if wait then
      await (page_waitForLoadState "domcontentloaded" 60000) ;;
      ret {| strategy := Lit "Wait for DOM content loaded";
             success := true;
             newLocator := undefined;
             notes := Lit "Waited for DOM to load" |}
    else
      nav <- includes_lit fix_ "retry navigation" ;;
      if nav then
        await (page_reload "networkidle" None) ;;
        ret {| strategy := Lit "Page reload";
               success := true;
               newLocator := undefined;
               notes := Lit "Reloaded page" |}
      else
        ret {| strategy := Interp "" fix_;
               success := false;
               newLocator := undefined;
               notes := Lit "Timeout fix not implemented" |}.

(** [for (const locator of locators) { try { if (await ...isVisible(...))
    return ...locator... } catch (e) { continue; } }]: the first locator
    reported visible, a probe that throws counting as not visible. *)
Fixpoint first_visible (timeout : Z) (locators : list json)
  : EM (option json) :=
  match locators with
  | [] => ret None
  | l :: rest =>
      visible <- try_catch (await (locator_isVisible l timeout))
                   (fun _ => ret false) ;;
      if visible then ret (Some l) else first_visible timeout rest
  end.

Definition loginLocators : list json :=
  [ JStr ("#usernameField, #emailField, [name=" ++ Str.dq ++ "email"
          ++ Str.dq ++ "], [type=" ++ Str.dq ++ "email" ++ Str.dq ++ "]");
    JStr ("#passwordField, [name=" ++ Str.dq ++ "password" ++ Str.dq
          ++ "], [type=" ++ Str.dq ++ "password" ++ Str.dq ++ "]");
    JStr ("button[type=" ++ Str.dq ++ "submit" ++ Str.dq
          ++ "], .login-btn, #loginButton") ].

Definition jobLocators : list json :=
  [ JStr ".jobTuple, .job-card, .job-listing";
    JStr ("button:has-text(" ++ Str.dq ++ "Apply" ++ Str.dq
          ++ "), a:has-text(" ++ Str.dq ++ "Apply" ++ Str.dq
          ++ "), .apply-btn");
    JStr ".job-title, .title, h2, h3" ].

Definition found (label found_note : string) (l : json) : FixAttempt :=
  {| strategy := Interp label l;
     success := true;
     newLocator := Some l;
     notes := Interp found_note l |}.

Definition fixLocator (fix_ : json) (alternativeLocators : jsval)
  (context : string) : EM FixAttempt :=
  candidates <- defined (Js.iterate alternativeLocators) ;;
  alt <- first_visible 5000 candidates ;;
  match alt with
  | Some l => ret (found "Alternative locator: " "Found working locator: " l)
  | None =>
      login <- (if Str.includes context "login"
                then first_visible 2000 loginLocators else ret None) ;;
      match login with
      | Some l =>
          ret (found "Smart login locator: " "Discovered login element: " l)
      | None =>
          job <- (if Str.includes context "job"
                     || Str.includes context "apply"
                  then first_visible 2000 jobLocators else ret None) ;;
          match job with
          | Some l =>
              ret (found "Smart job locator: " "Discovered job element: " l)
          | None =>
              ret {| strategy := Lit "Locator discovery failed";
                     success := false;
                     newLocator := undefined;
                     notes := Lit "No working alternative locators found" |}
          end
      end
  end.

Definition fixUIChange (fix_ : json) (context : string) : EM FixAttempt :=
  await page_screenshot ;;
  currentUrl <- perform page_url ;;
  pageTitle <- await page_title ;;
  adapted <-
    try_catch
      (content <- await (llm_chat
                           (UiAnalysisPrompt context currentUrl pageTitle)) ;;
       let selectors := Selectors.extractSelectorsFromText content in
       first_visible 3000 (map JStr selectors))
      (fun _ => ret None) ;;
  match adapted with
  | Some selector =>
      ret (found "UI change adaptation: " "Adapted to UI change with: "
             selector)
  | None =>
      ret {| strategy := Lit "UI change adaptation";
             success := false;
             newLocator := undefined;
             notes := Lit "Could not adapt to UI changes" |}
  end.

Definition fixNetworkIssue (fix_ : json) : EM FixAttempt :=
  again <- includes_lit fix_ "retry" ;;
  if again then
    await (page_waitForTimeout 5000) ;;
    await (page_reload "networkidle" (Some 60000)) ;;
    ret {| strategy := Lit "Network retry";
           success := true;
           newLocator := undefined;
           notes := Lit "Reloaded page after network delay" |}
  else
    ret {| strategy := Lit "Network fix";
           success := false;
           newLocator := undefined;
           notes := Lit "Network issue not resolved" |}.

Definition fixCaptcha (fix_ : json) : EM FixAttempt :=
  perform (rl_question "Press Enter after solving CAPTCHA: ") ;;
  ret {| strategy := Lit "Manual CAPTCHA resolution";
         success := true;
         newLocator := undefined;
         notes := Lit "CAPTCHA resolved manually" |}.

Definition applyFix (fix_ : json) (analysis : json) (context : string)
  : EM FixAttempt :=
  let errorType := Js.field analysis "errorType" in
  if Js.is_str errorType "timeout" then fixTimeout fix_ context
  else if Js.is_str errorType "locator" then
    fixLocator fix_ (Js.field analysis "alternativeLocators") context
  else if Js.is_str errorType "ui_change" then fixUIChange fix_ context
  else if Js.is_str errorType "network" then fixNetworkIssue fix_
  else if Js.is_str errorType "captcha" then fixCaptcha fix_
  else
    ret {| strategy := Interp "" fix_;
           success := false;
           newLocator := undefined;
           notes := Lit "Unknown error type" |}.

(** The engine after [this.successfulFixes.set(context, l)]. *)
Definition remembered (context : string) (l : json) (eng : engine) : engine :=
  {| errorHistory := eng.(errorHistory);
     successfulFixes :=
       JsMap.set String.eqb context l eng.(successfulFixes) |}.

Definition remember_fix (context : string) (l : json) : EM unit :=
  modify (remembered context l).

(** The loop of [attemptFix] over the suggested fixes. *)
Fixpoint try_fixes (fixes : list json) (analysis : json) (context : string)
  : EM FixAttempt :=
  match fixes with
  | [] =>
      ret {| strategy := Lit "All fixes failed";
             success := false;
             newLocator := undefined;
             notes := Lit "Manual intervention required" |}
  | fix_ :: rest =>
      applied <- try_catch
                   (result <- applyFix fix_ analysis context ;;
                    ret (Some result))
                   (fun fixError =>
                      (* the log line prints [fix] *)
                      if Js.printable (Some fix_) then ret None
                      else throw TypeError) ;;
      match applied with
      | Some result =>
          if result.(success) then
            match result.(newLocator) with
            | Some l =>
                (if Js.truthy (Some l) then remember_fix context l
                 else ret tt) ;;
                ret result
            | None => ret result
            end
          else try_fixes rest analysis context
      | None => try_fixes rest analysis context
      end
  end.

Definition attemptFix (error : error_obj) (analysis : json)
  (context : string) : EM FixAttempt :=
  let suggested := Js.field analysis "suggestedFixes" in
  (* the log line reads and prints [analysis.suggestedFixes[0]] *)
  (if negb (Js.is_nullish suggested) then ret tt else throw TypeError) ;;
  (if Js.printable (Js.first_item suggested) then ret tt
   else throw TypeError) ;;
  fixes <- defined (Js.iterate suggested) ;;
  try_fixes fixes analysis context.

(* ================================================================== *)
(** ** [SelfHealingIntelligentNaukriBot.executeWithErrorRecovery] *)
(* ================================================================== *)

(** What the executor touches outside the engine: the operation it is
    given, the URL of the bot's current page ([this.page?.url() || '']),
    and the timer it sleeps on.  The timer is handed the delay as the
    classification has it, of whatever type, and is taken to accept it. *)
Inductive botE (T : Type) : Type -> Type :=
| operation : botE T (T + error_obj)
| bot_page_url : botE T string
| setTimeout (delay : jsval) : botE T unit
| engine_call {X : Type} (e : engineE X) : botE T X.

Arguments operation {T}.
Arguments bot_page_url {T}.
Arguments setTimeout {T} delay.
Arguments engine_call {T X} e.

(** The fields of the bot the executor reads and writes:
    [errorStats], [errorAnalyzer], and
    [credentials.jobPreferences.maxRetryAttempts]. *)
Record bot : Type := {
  totalErrors : Z;
  fixedErrors : Z;
  errorTypes : list (jsval * Z);
  errorAnalyzer : option engine;
  maxRetryAttempts : Z
}.

Definition set_totalErrors (n : Z) (b : bot) : bot :=
  {| totalErrors := n;
     fixedErrors := b.(fixedErrors);
     errorTypes := b.(errorTypes);
     errorAnalyzer := b.(errorAnalyzer);
     maxRetryAttempts := b.(maxRetryAttempts) |}.

Definition set_fixedErrors (n : Z) (b : bot) : bot :=
  {| totalErrors := b.(totalErrors);
     fixedErrors := n;
     errorTypes := b.(errorTypes);
     errorAnalyzer := b.(errorAnalyzer);
     maxRetryAttempts := b.(maxRetryAttempts) |}.

Definition set_errorTypes (m : list (jsval * Z)) (b : bot) : bot :=
  {| totalErrors := b.(totalErrors);
     fixedErrors := b.(fixedErrors);
     errorTypes := m;
     errorAnalyzer := b.(errorAnalyzer);
     maxRetryAttempts := b.(maxRetryAttempts) |}.

Definition set_errorAnalyzer (e : option engine) (b : bot) : bot :=
  {| totalErrors := b.(totalErrors);
     fixedErrors := b.(fixedErrors);
     errorTypes := b.(errorTypes);
     errorAnalyzer := e;
     maxRetryAttempts := b.(maxRetryAttempts) |}.

(** [this.errorStats.errorTypes.get(k) || 0] *)
Definition errorType_count (k : jsval) (b : bot) : Z :=
  match JsMap.get Js.same_value_zero k b.(errorTypes) with
  | Some c => c
  | None => 0
  end.

Section Executor.
Context {T : Type}.

Definition BM : Type -> Type := M (botE T) bot.

(** A method call on [this.errorAnalyzer]. *)
Definition on_analyzer {A} (m : EM A) : BM A :=
  fun b =>
    match b.(errorAnalyzer) with
    | None => Ret (Thrown TypeError, b)
    | Some eng =>
        pbind (translate (@engine_call T) (m eng))
          (fun r => Ret (fst r, set_errorAnalyzer (Some (snd r)) b))
    end.

(** The values [attempt] takes in
    [for (let attempt = 1; attempt <= retries; attempt++)]. *)
Definition attempt_values (retries : Z) : list Z :=
  map Z.of_nat (seq 1 (Z.to_nat retries)).

(** Whether the three log lines that print [analysis.errorType],
    [analysis.severity] and [analysis.shouldRetry] complete. *)
Definition loggable (analysis : json) : bool :=
  Js.printable (Js.field analysis "errorType")
  && Js.printable (Js.field analysis "severity")
  && Js.printable (Js.field analysis "shouldRetry").

(** The [catch] block of one attempt; [next_attempt] is the rest of the
    loop, entered by [continue] or by reaching the end of the block. *)
Definition recover (context : string) (retries attempt : Z)
  (err : error_obj) (next_attempt : BM (option T)) : BM (option T) :=
  modify (fun b => set_totalErrors (b.(totalErrors) + 1) b) ;;
  b <- get ;;
  match b.(errorAnalyzer) with
  | None => throw (Raised err)
  | Some _ =>
      currentUrl <- perform bot_page_url ;;
      analysis <- on_analyzer (analyzeError err context currentUrl) ;;
      (if loggable analysis then ret tt else throw TypeError) ;;
      let errorType := Js.field analysis "errorType" in
      modify (fun b =>
        set_errorTypes
          (JsMap.set Js.same_value_zero errorType
             (errorType_count errorType b + 1) b.(errorTypes)) b) ;;
      if (attempt <? retries) && Js.truthy (Js.field analysis "shouldRetry")
      then
        fixResult <- on_analyzer (attemptFix err analysis context) ;;
        if fixResult.(success) then
          modify (fun b => set_fixedErrors (b.(fixedErrors) + 1) b) ;;
          perform (setTimeout (Js.field analysis "retryDelay")) ;;
          next_attempt
        else
          perform (setTimeout (Js.field analysis "retryDelay")) ;;
          next_attempt
      else if Js.is_str (Js.field analysis "severity") "high" then
        throw (Raised err)
      else
        ret None
  end.

(** The [for] loop over the remaining values of [attempt], and the
    [throw] after it. *)
Fixpoint attempts (context : string) (retries : Z) (todo : list Z)
  : BM (option T) :=
  match todo with
  | [] => throw (MaxRetriesError retries context)
  | attempt :: later =>
      r <- perform operation ;;
      match r with
      | inl result => ret (Some result)
      | inr err =>
          recover context retries attempt err (attempts context retries later)
      end
  end.

(** [maxRetries || this.credentials.jobPreferences.maxRetryAttempts], with
    [None] for an omitted argument. *)
Definition retries_of (maxRetries : option Z) (b : bot) : Z :=
  match maxRetries with
  | Some n => if n =? 0 then b.(maxRetryAttempts) else n
  | None => b.(maxRetryAttempts)
  end.

(** A result of [None] is [null]. *)
Definition executeWithErrorRecovery (context : string)
  (maxRetries : option Z) : BM (option T) :=
  b <- get ;;
  let retries := retries_of maxRetries b in
  attempts context retries (attempt_values retries).

End Executor.

(* ================================================================== *)
(** ** [LLMJobAnalyzer.analyzeJob] *)
(* ================================================================== *)

Module JobAnalyzer.

(** [interface JobAnalysis], as the local scorer builds it. *)
Record JobAnalysis : Type := {
  shouldApply : bool;
  confidenceScore : Z;
  reasoning : string;
  matchedSkills : list string;
  concerns : list string
}.

Definition JobAnalysis_object (a : JobAnalysis) : json :=
  JObj [ ("shouldApply", JBool a.(shouldApply));
         ("confidenceScore", JNum (inject_Z a.(confidenceScore)));
         ("reasoning", JStr a.(reasoning));
         ("matchedSkills", JArr (map JStr a.(matchedSkills)));
         ("concerns", JArr (map JStr a.(concerns))) ].

(** The fields of the analyzer that scoring reads. *)
Record analyzer : Type := {
  userProfile : string;
  userSkills : list string;
  userKeywords : list string
}.

(** What the job prompt interpolates. *)
Record job_prompt : Type := {
  jp_userProfile : string;
  jp_jobTitle : string;
  jp_company : string;
  jp_salary : string;
  jp_jobDescription : string
}.

(** [makeOllamaRequest(prompt)]: the text of the reply, or a failure of the
    request (transport, status, or a reply without a text). *)
Inductive ollamaE : Type -> Type :=
| ollama_request (p : job_prompt) : ollamaE (string + error_obj).

Definition Math_min (a b : Q) : Q := if Qle_bool a b then a else b.
Definition Math_max (a b : Q) : Q := if Qle_bool a b then b else a.

Definition string_of_nat (n : nat) : string :=
  DecimalString.NilZero.string_of_uint (Nat.to_uint n).

(** [profile.match(/Experience:\s*(\d+)/i)]: the digits captured by the
    leftmost match. *)
Fixpoint match_experience (profile : string) : option string :=
  match profile with
  | EmptyString => None
  | String _ rest =>
      let here :=
        if String.eqb (Str.toLowerCase (String.substring 0 11 profile))
             "experience:"
        then
          match Str.take_while Str.is_digit
                  (Str.drop_while Str.is_space
                     (String.substring 11 (String.length profile - 11)
                        profile)) with
          | EmptyString => None
          | ds => Some ds
          end
        else None in
      match here with
      | Some ds => Some ds
      | None => match_experience rest
      end
  end.

Definition redFlags : list string :=
  ["manual testing only"; "no automation"; "entry level only";
   "intern"; "trainee"; "unpaid"].

Definition localJobAnalysis (self : analyzer)
  (jobTitle company jobDescription salary : string) : JobAnalysis :=
  let jobText := Str.toLowerCase (jobTitle ++ " " ++ jobDescription) in
  (* skill matching *)
  let '(score, matched) :=
    fold_left
      (fun acc skill =>
         if Str.includes jobText skill
         then (fst acc + 15, List.app (snd acc) [skill])
         else acc)
      self.(userSkills) (0, []) in
  let skillMatches := List.length matched in
  let '(concerns0, reasoning0) :=
    if (0 <? skillMatches)%nat then
      ([], ["Found " ++ string_of_nat skillMatches ++ " matching skills: "
            ++ String.concat ", " matched])
    else
      (["No direct skill matches found"],
       ["Limited skill alignment detected"]) in
  (* keyword matching *)
  let '(score, keywordMatches) :=
    fold_left
      (fun acc keyword =>
         if Str.includes jobText keyword
         then (fst acc + 5, S (snd acc))
         else acc)
      self.(userKeywords) (score, O) in
  let reasoning1 :=
    if (0 <? keywordMatches)%nat then
      List.app reasoning0
        ["Found " ++ string_of_nat keywordMatches ++ " relevant keywords"]
    else reasoning0 in
  (* experience level *)
  let userExperience :=
    match match_experience self.(userProfile) with
    | Some ds => Json.digits_val ds 0
    | None => 0
    end in
  let '(score, reasoning2) :=
    if Str.includes jobText "senior" && (5 <=? userExperience) then
      (score + 10,
       List.app reasoning1 ["Good match for senior-level experience"])
    else if Str.includes jobText "junior" && (userExperience <? 3) then
      (score + 10,
       List.app reasoning1 ["Appropriate for junior-level experience"])
    else if Str.includes jobText "lead" && (7 <=? userExperience) then
      (score + 15,
       List.app reasoning1 ["Suitable for leadership role experience"])
    else (score, reasoning1) in
  (* red flags *)
  let '(score, concerns1) :=
    fold_left
      (fun acc redFlag =>
         if Str.includes jobText redFlag
         then (fst acc - 20,
               List.app (snd acc) ["Contains red flag: " ++ redFlag])
         else acc)
      redFlags (score, concerns0) in
  let score := Z.max 0 (Z.min 100 score) in
  {| shouldApply := (60 <=? score) && (2 <=? List.length matched)%nat;
     confidenceScore := score;
     reasoning := String.concat ". " reasoning2;
     matchedSkills := matched;
     concerns := concerns1 |}.

Definition is_boolean (v : jsval) : bool :=
  match v with Some (JBool _) => true | _ => false end.

Definition is_number (v : jsval) : bool :=
  match v with Some (JNum _) => true | _ => false end.

Definition is_string (v : jsval) : bool :=
  match v with Some (JStr _) => true | _ => false end.

Definition is_array (v : jsval) : bool :=
  match v with Some (JArr _) => true | _ => false end.

Definition plain_error (msg : string) : thrown :=
  Raised {| message := msg; stack := None |}.

(** The [try] block of [analyzeJob]. *)
Definition ask_model (jobTitle company jobDescription salary : string)
  : M ollamaE analyzer json :=
  self <- get ;;
  response <- await (ollama_request
                       {| jp_userProfile := self.(userProfile);
                          jp_jobTitle := jobTitle;
                          jp_company := company;
                          jp_salary := salary;
                          jp_jobDescription := jobDescription |}) ;;
  let cleanedResponse := Str.trim response in
  match Str.indexOf "{" cleanedResponse,
        Str.lastIndexOf "}" cleanedResponse with
  | Some jsonStart, Some last =>
      let jsonEnd := S last in
      let jsonString := Str.substring jsonStart jsonEnd cleanedResponse in
      analysis <- match Json.JSON_parse jsonString with
                  | Some v => ret v
                  | None => throw SyntaxError
                  end ;;
      (match analysis with JNull => throw TypeError | _ => ret tt end) ;;
      if negb (is_boolean (Js.field analysis "shouldApply"))
         || negb (is_number (Js.field analysis "confidenceScore"))
         || negb (is_string (Js.field analysis "reasoning"))
         || negb (is_array (Js.field analysis "matchedSkills"))
         || negb (is_array (Js.field analysis "concerns"))
      then throw (plain_error "Invalid analysis structure")
      else
        match analysis, Js.field analysis "confidenceScore" with
        | JObj fields, Some (JNum score) =>
            ret (JObj (Js.assign "confidenceScore"
                         (JNum (Math_max 0 (Math_min 100 score))) fields))
        | _, _ => throw TypeError
        end
  | _, _ => throw (plain_error "No valid JSON found in response")
  end.

Definition analyzeJob (jobTitle company jobDescription salary : string)
  : M ollamaE analyzer json :=
  try_catch (ask_model jobTitle company jobDescription salary)
    (fun error =>
       self <- get ;;
       ret (JobAnalysis_object
              (localJobAnalysis self jobTitle company jobDescription salary))).

End JobAnalyzer.

(* ================================================================== *)
(** * Properties *)
(* ================================================================== *)

Local Open Scope list_scope.

(** ** Runs of composed programs *)

Section RunFacts.
Context {E : Type -> Type}.

Lemma runs_pbind {A B} (p : prog E A) (f : A -> prog E B) tr r :
  runs (pbind p f) tr r <->
  exists tr1 tr2 a, runs p tr1 a /\ runs (f a) tr2 r /\ tr = tr1 ++ tr2.
Proof.
  revert tr. induction p as [a | X e k IH]; intros tr; cbn.
  - split.
    + intros H. exists [], tr, a. auto.
    + intros (tr1 & tr2 & a' & [-> ->] & H & ->). exact H.
  - split.
    + intros (x & tr' & -> & H). apply IH in H.
      destruct H as (tr1 & tr2 & a & H1 & H2 & ->).
      exists (Obs e x :: tr1), tr2, a. split; [| auto].
      exists x, tr1. auto.
    + intros (tr1 & tr2 & a & (x & tr' & -> & H1) & H2 & ->).
      exists x, (tr' ++ tr2). split; [reflexivity |].
      apply IH. exists tr', tr2, a. auto.
Qed.

(** The environment [w] gives one run of every program. *)
Lemma run_in_runs {R} (w : env E) (p : prog E R) past :
  runs p (fst (run_in w past p)) (snd (run_in w past p)).
Proof.
  revert past. induction p as [r | X e k IH]; intros past; cbn.
  - auto.
  - specialize (IH (w past X e) (past ++ [Obs e (w past X e)])).
    destruct (run_in w (past ++ [Obs e (w past X e)]) (k (w past X e)))
      as [tr r]. cbn in *.
    exists (w past X e), tr. auto.
Qed.

Lemma run_in_eq_runs {R} (w : env E) (p : prog E R) past tr r :
  run_in w past p = (tr, r) -> runs p tr r.
Proof.
  intros H. pose proof (run_in_runs w p past) as Hr.
  rewrite H in Hr. exact Hr.
Qed.

Context {S : Type}.

Lemma runs_bind {A B} (m : M E S A) (k : A -> M E S B) s tr res :
  runs (bind m k s) tr res <->
  exists tr1 tr2 o s1,
    runs (m s) tr1 (o, s1) /\ tr = tr1 ++ tr2 /\
    match o with
    | Returned a => runs (k a s1) tr2 res
    | Thrown t => tr2 = [] /\ res = (Thrown t, s1)
    end.
Proof.
  unfold bind. rewrite runs_pbind. split.
  - intros (tr1 & tr2 & [o s1] & H1 & H2 & ->).
    exists tr1, tr2, o, s1. destruct o; cbn in H2; auto.
  - intros (tr1 & tr2 & o & s1 & H1 & -> & H2).
    exists tr1, tr2, (o, s1). destruct o; cbn; auto.
Qed.

Lemma runs_try_catch {A} (m : M E S A) (h : thrown -> M E S A) s tr res :
  runs (try_catch m h s) tr res <->
  exists tr1 tr2 o s1,
    runs (m s) tr1 (o, s1) /\ tr = tr1 ++ tr2 /\
    match o with
    | Returned a => tr2 = [] /\ res = (Returned a, s1)
    | Thrown t => runs (h t s1) tr2 res
    end.
Proof.
  unfold try_catch. rewrite runs_pbind. split.
  - intros (tr1 & tr2 & [o s1] & H1 & H2 & ->).
    exists tr1, tr2, o, s1. destruct o; cbn in H2; auto.
  - intros (tr1 & tr2 & o & s1 & H1 & -> & H2).
    exists tr1, tr2, (o, s1). destruct o; cbn; auto.
Qed.

End RunFacts.

Definition obs_map {E F} (h : forall X, E X -> F X) (o : obs E) : obs F :=
  match o with
  | Obs e x => Obs (h _ e) x
  end.

Lemma runs_translate {E F R} (h : forall X, E X -> F X) (p : prog E R) tr r :
  runs (translate h p) tr r <->
  exists tr', runs p tr' r /\ tr = map (obs_map h) tr'.
Proof.
  revert tr. induction p as [a | X e k IH]; intros tr; cbn.
  - split.
    + intros [-> ->]. exists []. auto.
    + intros (tr' & [-> ->] & ->). auto.
  - split.
    + intros (x & tr' & -> & H). apply IH in H. destruct H as (t & H & ->).
      exists (Obs e x :: t). split; [exists x, t; auto | reflexivity].
    + intros (t & (x & tr' & -> & H) & ->).
      exists x, (map (obs_map h) tr'). split; [reflexivity |].
      apply IH. exists tr'. auto.
Qed.

(** ** The keyword classifier *)

(** C2, as the code has it: a message that contains the lower-case
    substring [timeout] is classified as a timeout by the keyword
    classifier, whatever the context. *)
Theorem fallback_timeout_exact_case (errorMessage context : string) :
  Str.includes errorMessage "timeout" = true ->
  errorType (fallbackErrorAnalysis errorMessage context) = timeout.
Proof.
  intros H. unfold fallbackErrorAnalysis. rewrite H. reflexivity.
Qed.

Lemma fallback_timeout_exact_case_witness :
  Str.includes "navigation timeout of 30000 ms exceeded" "timeout" = true /\
  errorType
    (fallbackErrorAnalysis "navigation timeout of 30000 ms exceeded" "login")
  = timeout.
Proof.
  split; [reflexivity |].
  apply (fallback_timeout_exact_case
           "navigation timeout of 30000 ms exceeded" "login").
  reflexivity.
Defined.

(** C2 as stated fails: the message of a browser timeout, which has the
    word capitalised, contains it up to letter case and is classified as
    unknown. *)
Lemma fallback_timeout_capitalised :
  Str.includes (Str.toLowerCase "Timeout 30000ms exceeded") "timeout" = true
  /\ errorType (fallbackErrorAnalysis "Timeout 30000ms exceeded" "login")
     = unknown
  /\ errorType (fallbackErrorAnalysis "Timeout 30000ms exceeded" "login")
     <> timeout.
Proof.
  split; [reflexivity | split; [reflexivity | discriminate]].
Qed.

(** ** The captcha handler *)

(** C8: a run of the captcha handler consists of exactly one exchange, the
    console question being answered, and then reports success; the engine's
    fields are untouched and the page is not used. *)
Theorem fixCaptcha_waits_for_answer (fix_ : json) (eng : engine) tr res :
  runs (fixCaptcha fix_ eng) tr res ->
  tr = [Obs (rl_question "Press Enter after solving CAPTCHA: ") tt]
  /\ exists attempt,
       res = (Returned attempt, eng) /\ attempt.(success) = true.
Proof.
  cbn. intros (x & tr' & -> & -> & ->). destruct x.
  split; [reflexivity |]. eexists. split; reflexivity.
Qed.

(** Once the question is answered the handler does finish. *)
Lemma fixCaptcha_resumes (fix_ : json) (eng : engine) :
  runs (fixCaptcha fix_ eng)
    [Obs (rl_question "Press Enter after solving CAPTCHA: ") tt]
    (Returned {| strategy := Lit "Manual CAPTCHA resolution";
                 success := true;
                 newLocator := undefined;
                 notes := Lit "CAPTCHA resolved manually" |}, eng).
Proof.
  cbn. exists tt, []. auto.
Qed.

Lemma fixCaptcha_waits_for_answer_witness :
  exists attempt,
    (Returned {| strategy := Lit "Manual CAPTCHA resolution";
                 success := true;
                 newLocator := undefined;
                 notes := Lit "CAPTCHA resolved manually" |}, new_engine)
    = (Returned attempt, new_engine) /\ attempt.(success) = true.
Proof.
  exact (proj2 (fixCaptcha_waits_for_answer (JStr "solve captcha") new_engine
                  _ _ (fixCaptcha_resumes (JStr "solve captcha") new_engine))).
Defined.

(** ** The job scorer *)

Module JobAnalyzerFacts.
Import JobAnalyzer.

Lemma lookup_assign_same k v fields :
  Js.lookup k (Js.assign k v fields) = Some v.
Proof.
  induction fields as [| [k' v'] rest IH]; cbn.
  - now rewrite String.eqb_refl.
  - destruct (String.eqb k k') eqn:Hk; cbn.
    + now rewrite String.eqb_refl.
    + now rewrite Hk.
Qed.

(** [Math.max(0, Math.min(100, q))] lies between 0 and 100. *)
Lemma clamp_in_range (q : Q) :
  (0 <= Math_max 0 (Math_min 100 q))%Q /\
  (Math_max 0 (Math_min 100 q) <= 100)%Q.
Proof.
  unfold Math_max, Math_min.
  destruct (Qle_bool 100 q) eqn:H100.
  - cbn. split; [discriminate | apply Qle_refl].
  - destruct (Qle_bool 0 q) eqn:H0.
    + split; [now apply Qle_bool_iff |].
      destruct (Qlt_le_dec q 100) as [Hlt | Hle].
      * now apply Qlt_le_weak.
      * apply Qle_bool_iff in Hle. congruence.
    + split; [apply Qle_refl | discriminate].
Qed.

(** The local scorer ends with the same clamp, on integers. *)
Lemma local_score_in_range self jobTitle company jobDescription salary :
  0 <= confidenceScore
         (localJobAnalysis self jobTitle company jobDescription salary)
    <= 100.
Proof.
  unfold localJobAnalysis.
  repeat match goal with
         | |- context [let '(_, _) := ?x in _] => destruct x
         end.
  cbn. lia.
Qed.

Lemma inject_Z_in_range (z : Z) :
  0 <= z <= 100 -> (0 <= inject_Z z)%Q /\ (inject_Z z <= 100)%Q.
Proof.
  intros [H0 H100]. split.
  - change 0%Q with (inject_Z 0). now rewrite <- Zle_Qle.
  - change 100%Q with (inject_Z 100). now rewrite <- Zle_Qle.
Qed.

(** C10: whatever the model answers, and when the request fails,
    [analyzeJob] returns (it does not throw) an object whose
    [confidenceScore] is a number between 0 and 100. *)
Theorem analyzeJob_confidence_in_range
  (jobTitle company jobDescription salary : string) (self : analyzer)
  tr o self' :
  runs (analyzeJob jobTitle company jobDescription salary self) tr (o, self')
  ->
  exists fields q,
    o = Returned (JObj fields)
    /\ Js.lookup "confidenceScore" fields = Some (JNum q)
    /\ (0 <= q)%Q /\ (q <= 100)%Q.
Proof.
  unfold analyzeJob. intros H.
  apply runs_try_catch in H.
  destruct H as (tr1 & tr2 & o1 & s1 & Hask & -> & Hrest).
  assert (Hlocal : forall s (t : list (obs ollamaE)) res,
             runs ((self0 <- get ;;
                    ret (JobAnalysis_object
                           (localJobAnalysis self0 jobTitle company
                              jobDescription salary))) s) t res ->
             exists fields q,
               fst res = Returned (JObj fields)
               /\ Js.lookup "confidenceScore" fields = Some (JNum q)
               /\ (0 <= q)%Q /\ (q <= 100)%Q).
  { intros s t res Hr. cbn in Hr. destruct Hr as [_ ->]. cbn.
    do 2 eexists. split; [reflexivity |]. split; [reflexivity |].
    apply inject_Z_in_range, local_score_in_range. }
  destruct o1 as [analysis | t].
  - (* the model's answer passed validation *)
    destruct Hrest as [_ Hres]. injection Hres as -> ->.
    unfold ask_model in Hask. cbn in Hask.
    destruct Hask as (reply & tr' & -> & Hask).
    destruct reply as [response | err]; cbn in Hask;
      [| destruct Hask as [_ Habs]; discriminate].
    destruct (Str.indexOf "{" (Str.trim response)) as [jsonStart |];
      [| cbn in Hask; destruct Hask as [_ Habs]; discriminate].
    destruct (Str.lastIndexOf "}" (Str.trim response)) as [last |];
      [| cbn in Hask; destruct Hask as [_ Habs]; discriminate].
    apply runs_bind in Hask.
    destruct Hask as (t1 & t2 & o2 & s2 & Hparse & -> & Hvalid).
    destruct (Json.JSON_parse _) as [v |]; cbn in Hparse;
      destruct Hparse as [-> Hp]; inversion Hp; subst; clear Hp;
      [| destruct Hvalid as [_ Habs]; discriminate].
    apply runs_bind in Hvalid.
    destruct Hvalid as (t3 & t4 & o3 & s3 & Hnull & -> & Hvalid).
    destruct v as [| b | q | s | items | fields]; cbn in Hnull;
      destruct Hnull as [-> Hn]; inversion Hn; subst; clear Hn;
      cbn in Hvalid;
      try (destruct Hvalid as [_ Habs]; discriminate).
    destruct (Js.lookup "shouldApply" fields) as [[| | | | |] |];
      cbn in Hvalid; try (destruct Hvalid as [_ Habs]; discriminate).
    destruct (Js.lookup "confidenceScore" fields) as [[| | q | | |] |];
      cbn in Hvalid; try (destruct Hvalid as [_ Habs]; discriminate).
    destruct (Js.lookup "reasoning" fields) as [[| | | | |] |];
      cbn in Hvalid; try (destruct Hvalid as [_ Habs]; discriminate).
    destruct (Js.lookup "matchedSkills" fields) as [[| | | | |] |];
      cbn in Hvalid; try (destruct Hvalid as [_ Habs]; discriminate).
    destruct (Js.lookup "concerns" fields) as [[| | | | |] |];
      cbn in Hvalid; try (destruct Hvalid as [_ Habs]; discriminate).
    destruct Hvalid as [_ Hres]. injection Hres as -> _.
    do 2 eexists. split; [reflexivity |].
    split; [apply lookup_assign_same | apply clamp_in_range].
  - (* anything thrown in the [try] block leads to the local scorer *)
    apply Hlocal in Hrest. exact Hrest.
Qed.

(** A reply that claims a confidence of 250. *)
Definition eager_reply : string :=
  "Sure! {" ++ Str.dq ++ "shouldApply" ++ Str.dq ++ ": true, "
  ++ Str.dq ++ "confidenceScore" ++ Str.dq ++ ": 250, "
  ++ Str.dq ++ "reasoning" ++ Str.dq ++ ": " ++ Str.dq ++ "great fit"
  ++ Str.dq ++ ", " ++ Str.dq ++ "matchedSkills" ++ Str.dq ++ ": ["
  ++ Str.dq ++ "selenium" ++ Str.dq ++ "], "
  ++ Str.dq ++ "concerns" ++ Str.dq ++ ": []} ".

Definition eager_model : env ollamaE :=
  fun _ X e =>
    match e in ollamaE X return X with
    | ollama_request _ => inl eager_reply
    end.

Definition tester : analyzer :=
  {| userProfile := "Experience: 6 years";
     userSkills := ["selenium"; "playwright"];
     userKeywords := ["automation"] |}.

Definition eager_run :=
  Eval vm_compute in
    run_in eager_model []
      (analyzeJob "Senior SDET" "Acme" "selenium automation" "20 LPA"
         tester).

Example eager_run_clamped :
  fst (snd eager_run)
  = Returned
      (JObj [ ("shouldApply", JBool true);
              ("confidenceScore", JNum 100);
              ("reasoning", JStr "great fit");
              ("matchedSkills", JArr [JStr "selenium"]);
              ("concerns", JArr []) ]).
Proof. reflexivity. Qed.

Lemma analyzeJob_confidence_in_range_witness :
  exists fields q,
    fst (snd eager_run) = Returned (JObj fields)
    /\ Js.lookup "confidenceScore" fields = Some (JNum q)
    /\ (0 <= q)%Q /\ (q <= 100)%Q.
Proof.
  apply (analyzeJob_confidence_in_range
           "Senior SDET" "Acme" "selenium automation" "20 LPA" tester
           (fst eager_run) (fst (snd eager_run)) (snd (snd eager_run))).
  apply (run_in_eq_runs eager_model _ []).
  vm_compute. reflexivity.
Defined.

End JobAnalyzerFacts.

(** ** The classifier *)

Section ClassifierFacts.

(** The classification that a reply of the model yields, if any: the text
    between the first opening and the last closing brace, parsed. *)
Definition parsed_reply (answer : string + error_obj) : option json :=
  match answer with
  | inl content =>
      match match_braces content with
      | Some jsonMatch => Json.JSON_parse jsonMatch
      | None => None
      end
  | inr _ => None
  end.

Definition or_default {A} (d : A) (answer : A + error_obj) : A :=
  match answer with
  | inl a => a
  | inr _ => d
  end.

Definition analysis_prompt_of (error : error_obj)
  (context currentUrl : string) (eng : engine)
  (title html : string + error_obj) (visible : list string + error_obj)
  : prompt :=
  let pageHtml := or_default "" html in
  AnalysisPrompt
    {| ap_action := context;
       ap_url := currentUrl;
       ap_pageTitle := or_default "Unknown" title;
       ap_errorMessage := error.(message);
       ap_stackTrace := match error.(stack) with Some s => s | None => "" end;
       ap_visibleElements := firstn 10 (or_default [] visible);
       ap_hasLoginForms :=
         Str.includes pageHtml "password" || Str.includes pageHtml "login";
       ap_hasJobListings :=
         Str.includes pageHtml "jobTuple" || Str.includes pageHtml "job";
       ap_hasCaptcha :=
         Str.includes pageHtml "captcha" || Str.includes pageHtml "recaptcha";
       ap_previousErrors := eng.(errorHistory) |}.

(** Every run of [analyzeError]: four exchanges, the last one with the
    model, whose answer decides the result. *)
Lemma analyzeError_runs error context currentUrl eng tr res :
  runs (analyzeError error context currentUrl eng) tr res <->
  exists title html visible answer,
    tr = [ Obs page_title title; Obs page_content html;
           Obs page_evaluate_visible visible;
           Obs (llm_chat (analysis_prompt_of error context currentUrl eng
                            title html visible)) answer ]
    /\ res = match parsed_reply answer with
             | Some analysis =>
                 (Returned analysis, logged error.(message) eng)
             | None =>
                 (Returned (ErrorAnalysis_object
                              (fallbackErrorAnalysis error.(message) context)),
                  eng)
             end.
Proof.
  unfold analyzeError, getVisibleElements. split.
  - intros H. cbn in H.
    destruct H as (title & tr1 & -> & H). exists title.
    destruct title as [title | e1]; cbn in H;
      destruct H as (html & tr2 & -> & H); exists html;
      destruct html as [html | e2]; cbn in H;
      destruct H as (visible & tr3 & -> & H); exists visible;
      destruct visible as [visible | e3]; cbn in H;
      destruct H as (answer & tr4 & -> & H); exists answer;
      (destruct answer as [content | e4]; cbn in H;
       [ unfold parsed_reply;
         destruct (match_braces content) as [jsonMatch |]; cbn in H;
         [ destruct (Json.JSON_parse jsonMatch) as [analysis |]; cbn in H |]
       | ]);
      destruct H as [-> ->]; split; reflexivity.
  - intros (title & html & visible & answer & -> & ->). cbn.
    exists title, [ Obs page_content html;
                    Obs page_evaluate_visible visible;
                    Obs (llm_chat (analysis_prompt_of error context
                                     currentUrl eng title html visible))
                      answer ].
    split; [reflexivity |].
    destruct title as [title | e1]; cbn;
      eexists html, _; (split; [reflexivity |]);
      destruct html as [html | e2]; cbn;
      eexists visible, _; (split; [reflexivity |]);
      destruct visible as [visible | e3]; cbn;
      eexists answer, _; (split; [reflexivity |]);
      (destruct answer as [content | e4]; cbn;
       [ destruct (match_braces content) as [jsonMatch |]; cbn;
         [ destruct (Json.JSON_parse jsonMatch) as [analysis |]; cbn |]
       | ]);
      split; reflexivity.
Qed.

Lemma ErrorAnalysis_object_conforms (a : ErrorAnalysis) :
  is_ErrorAnalysis (ErrorAnalysis_object a) = true.
Proof.
  assert (Hs : forall l : list string,
             forallb (fun i => match i with JStr _ => true | _ => false end)
               (map JStr l) = true).
  { induction l as [| x l IH]; cbn; auto. }
  destruct a as [t s fixes locs retry delay].
  unfold is_ErrorAnalysis. cbn. rewrite !Hs.
  destruct t, s; reflexivity.
Qed.

(** C3, as the code has it: [analyzeError] never throws; when the model
    cannot be reached, or its reply has no opening brace followed by a
    closing one, or the text between the first opening and the last closing
    brace does not parse, the result is the keyword classification of the
    message, which has every field of a classification with its declared
    type, and the engine's fields are left as they were. *)
Theorem analyzeError_falls_back error context currentUrl eng tr o eng' :
  runs (analyzeError error context currentUrl eng) tr (o, eng') ->
  exists title html visible p answer analysis,
    tr = [ Obs page_title title; Obs page_content html;
           Obs page_evaluate_visible visible; Obs (llm_chat p) answer ]
    /\ o = Returned analysis
    /\ (parsed_reply answer = None ->
        analysis = ErrorAnalysis_object
                     (fallbackErrorAnalysis error.(message) context)
        /\ is_ErrorAnalysis analysis = true
        /\ eng' = eng).
Proof.
  intros H. apply analyzeError_runs in H.
  destruct H as (title & html & visible & answer & -> & Hres).
  eexists title, html, visible, _, answer.
  destruct (parsed_reply answer) as [analysis |].
  - injection Hres as -> ->. exists analysis.
    split; [reflexivity |]. split; [reflexivity |]. discriminate.
  - injection Hres as -> ->. eexists.
    split; [reflexivity |]. split; [reflexivity |]. intros _.
    split; [reflexivity |].
    split; [apply ErrorAnalysis_object_conforms | reflexivity].
Qed.

(** A page on which nothing is visible, with a given model. *)
Definition page_env (chat : prompt -> string + error_obj)
  (visible : json -> bool) : list (obs engineE) -> forall X, engineE X -> X :=
  fun _ X e =>
    match e in engineE X return X with
    | page_title => inl "Jobs - Naukri"
    | page_content => inl "<html></html>"
    | page_evaluate_visible => inl ["body"]
    | page_url => "https://www.naukri.com/"
    | page_waitForTimeout _ => inl tt
    | page_waitForLoadState _ _ => inl tt
    | page_reload _ _ => inl tt
    | page_screenshot => inl tt
    | locator_isVisible selector _ => inl (visible selector)
    | llm_chat p => chat p
    | rl_question _ => tt
    end.

Definition unreachable_model (p : prompt) : string + error_obj :=
  inr {| message := "fetch failed"; stack := None |}.

Definition boom : error_obj :=
  {| message := "Timeout 30000ms exceeded"; stack := None |}.

Definition offline_analysis :=
  Eval vm_compute in
    run_in (page_env unreachable_model (fun _ => false)) []
      (analyzeError boom "login" "https://www.naukri.com/" new_engine).

Lemma analyzeError_falls_back_witness :
  exists title html visible p answer analysis,
    fst offline_analysis
    = [ Obs page_title title; Obs page_content html;
        Obs page_evaluate_visible visible; Obs (llm_chat p) answer ]
    /\ fst (snd offline_analysis) = Returned analysis
    /\ (parsed_reply answer = None ->
        analysis = ErrorAnalysis_object
                     (fallbackErrorAnalysis boom.(message) "login")
        /\ is_ErrorAnalysis analysis = true
        /\ snd (snd offline_analysis) = new_engine).
Proof.
  apply (analyzeError_falls_back boom "login" "https://www.naukri.com/"
           new_engine (fst offline_analysis) (fst (snd offline_analysis))
           (snd (snd offline_analysis))).
  apply (run_in_eq_runs (page_env unreachable_model (fun _ => false)) _ []).
  vm_compute. reflexivity.
Defined.

(** A reply with one field missing most of the shape and one of the wrong
    type. *)
Definition sloppy_reply : string :=
  "Analysis: {" ++ Str.dq ++ "errorType" ++ Str.dq ++ ": " ++ Str.dq
  ++ "timeout" ++ Str.dq ++ ", " ++ Str.dq ++ "shouldRetry" ++ Str.dq
  ++ ": " ++ Str.dq ++ "no" ++ Str.dq ++ "}".

Definition sloppy_analysis :=
  Eval vm_compute in
    run_in (page_env (fun _ => inl sloppy_reply) (fun _ => false)) []
      (analyzeError boom "login" "https://www.naukri.com/" new_engine).

(** C3 as stated fails: a reply that parses is returned as it is.  Here
    the returned object lacks [severity], [suggestedFixes],
    [alternativeLocators] and [retryDelay], and its [shouldRetry] is a
    string; it is not the keyword classification. *)
Lemma analyzeError_returns_unvalidated :
  exists tr,
    runs (analyzeError boom "login" "https://www.naukri.com/" new_engine)
      tr
      (Returned (JObj [("errorType", JStr "timeout");
                       ("shouldRetry", JStr "no")]),
       logged "Timeout 30000ms exceeded" new_engine)
    /\ is_ErrorAnalysis (JObj [("errorType", JStr "timeout");
                               ("shouldRetry", JStr "no")]) = false
    /\ Js.field (JObj [("errorType", JStr "timeout");
                       ("shouldRetry", JStr "no")]) "severity"
       = undefined
    /\ JObj [("errorType", JStr "timeout"); ("shouldRetry", JStr "no")]
       <> ErrorAnalysis_object
            (fallbackErrorAnalysis "Timeout 30000ms exceeded" "login").
Proof.
  exists (fst sloppy_analysis).
  split; [| split; [reflexivity | split; [reflexivity | discriminate]]].
  apply (run_in_eq_runs
           (page_env (fun _ => inl sloppy_reply) (fun _ => false)) _ []).
  vm_compute. reflexivity.
Qed.

(** The brace match is greedy: with two objects in the reply it spans
    both, and the span does not parse. *)
Example match_braces_spans_to_last_brace :
  match_braces "{} or {}" = Some "{} or {}"
  /\ Json.JSON_parse "{} or {}" = None
  /\ Json.JSON_parse "{}" = Some (JObj []).
Proof. vm_compute. repeat split. Qed.

End ClassifierFacts.

(** ** The fix dispatcher *)

Section DispatcherFacts.

(** A log line that prints a value: nothing happens, or a TypeError. *)
Lemma guard_runs (c : bool) (eng : engine) tr res :
  runs ((if c then ret tt else throw TypeError : EM unit) eng) tr res <->
  tr = [] /\ res = (if c then Returned tt else Thrown TypeError, eng).
Proof. destruct c; reflexivity. Qed.

(** One turn of the loop over the suggested fixes: the handler runs; what
    it throws is caught, and printing the fix in the log line of the
    [catch] block can throw in its turn. *)
Definition caught (fix_ : json) (applied : outcome FixAttempt)
  : outcome (option FixAttempt) :=
  match applied with
  | Returned result => Returned (Some result)
  | Thrown _ =>
      if Js.printable (Some fix_) then Returned None else Thrown TypeError
  end.

Lemma applied_runs fix_ analysis context eng tr o eng' :
  runs (try_catch
          (result <- applyFix fix_ analysis context ;; ret (Some result))
          (fun fixError =>
             if Js.printable (Some fix_) then ret None else throw TypeError)
          eng) tr (o, eng') ->
  exists applied,
    runs (applyFix fix_ analysis context eng) tr (applied, eng')
    /\ o = caught fix_ applied.
Proof.
  intros H. apply runs_try_catch in H.
  destruct H as (t1 & t2 & o2 & eng2 & Happ & -> & Hc).
  apply runs_bind in Happ.
  destruct Happ as (t3 & t4 & o3 & eng3 & Happ & -> & Hk).
  destruct o3 as [result | t].
  - cbn in Hk. destruct Hk as [-> Hk]. injection Hk as -> ->.
    destruct Hc as [-> Hc]. injection Hc as -> ->.
    exists (Returned result). rewrite !app_nil_r. auto.
  - destruct Hk as [-> Hk]. injection Hk as -> ->.
    exists (Thrown t). rewrite app_nil_r. unfold caught.
    destruct (Js.printable (Some fix_)); cbn in Hc;
      destruct Hc as [-> Hc]; injection Hc as -> ->;
      rewrite app_nil_r; auto.
Qed.

(** The loop over the suggested fixes catches whatever a handler throws;
    it throws only the TypeError of a log line. *)
Lemma try_fixes_returns fixes analysis context eng tr o eng' :
  runs (try_fixes fixes analysis context eng) tr (o, eng') ->
  (exists result, o = Returned result) \/ o = Thrown TypeError.
Proof.
  revert eng tr. induction fixes as [| fix_ rest IH]; intros eng tr H.
  - cbn in H. destruct H as [_ H]. injection H as -> _. eauto.
  - cbn [try_fixes] in H. apply runs_bind in H.
    destruct H as (tr1 & tr2 & o1 & eng1 & Happ & -> & H).
    apply applied_runs in Happ. destruct Happ as (applied & _ & ->).
    unfold caught in H.
    destruct applied as [result | t].
    + destruct (success result); [| eapply IH; eassumption].
      destruct (newLocator result) as [l |].
      * apply runs_bind in H.
        destruct H as (t5 & t6 & o5 & eng5 & Hrem & -> & H).
        destruct (Js.truthy (Some l)); cbn in Hrem;
          destruct Hrem as [_ Hrem]; injection Hrem as -> _;
          cbn in H; destruct H as [_ H]; injection H as -> _; eauto.
      * cbn in H. destruct H as [_ H]. injection H as -> _. eauto.
    + destruct (Js.printable (Some fix_)); [eapply IH; eassumption |].
      destruct H as [_ H]. injection H as -> _. auto.
Qed.

(** [attemptFix] returns a fix attempt, or throws a TypeError: on a
    classification whose [suggestedFixes] cannot be iterated, or when a
    log line cannot print a suggested fix. *)
Lemma attemptFix_outcome error analysis context eng tr o eng' :
  runs (attemptFix error analysis context eng) tr (o, eng') ->
  (exists result, o = Returned result) \/ o = Thrown TypeError.
Proof.
  unfold attemptFix. intros H. apply runs_bind in H.
  destruct H as (tr1 & tr2 & o1 & eng1 & Hnull & -> & H).
  apply guard_runs in Hnull. destruct Hnull as [_ Hnull].
  destruct (negb (Js.is_nullish _)); injection Hnull as -> _.
  2: { destruct H as [_ H]. injection H as -> _. auto. }
  apply runs_bind in H.
  destruct H as (tr3 & tr4 & o3 & eng3 & Hprint & -> & H).
  apply guard_runs in Hprint. destruct Hprint as [_ Hprint].
  destruct (Js.printable _); injection Hprint as -> _.
  2: { destruct H as [_ H]. injection H as -> _. auto. }
  apply runs_bind in H.
  destruct H as (t1 & t2 & o2 & eng2 & Hit & -> & H).
  destruct (Js.iterate _) as [fixes |]; cbn in Hit;
    destruct Hit as [_ Hit]; injection Hit as -> _.
  - eapply try_fixes_returns. eassumption.
  - destruct H as [_ H]. injection H as -> _. auto.
Qed.

(** The fixes the dispatcher goes through: the suggested fixes when its
    first log line can read and print the first of them and the loop can
    iterate over them; [None] when a TypeError is thrown before the first
    fix is tried. *)
Definition fixes_of (analysis : json) : option (list json) :=
  let suggested := Js.field analysis "suggestedFixes" in
  if negb (Js.is_nullish suggested)
     && Js.printable (Js.first_item suggested)
  then Js.iterate suggested
  else None.

Lemma attemptFix_runs error analysis context eng tr o eng' :
  runs (attemptFix error analysis context eng) tr (o, eng') ->
  match fixes_of analysis with
  | Some fixes => runs (try_fixes fixes analysis context eng) tr (o, eng')
  | None => tr = [] /\ o = Thrown TypeError /\ eng' = eng
  end.
Proof.
  unfold attemptFix, fixes_of. intros H. apply runs_bind in H.
  destruct H as (tr1 & tr2 & o1 & eng1 & Hnull & -> & H).
  apply guard_runs in Hnull. destruct Hnull as [-> Hnull].
  destruct (negb (Js.is_nullish _)); injection Hnull as -> ->.
  2: { destruct H as [-> H]. injection H as -> ->. cbn. auto. }
  apply runs_bind in H.
  destruct H as (tr3 & tr4 & o3 & eng3 & Hprint & -> & H).
  apply guard_runs in Hprint. destruct Hprint as [-> Hprint].
  destruct (Js.printable _); injection Hprint as -> ->.
  2: { destruct H as [-> H]. injection H as -> ->. cbn. auto. }
  apply runs_bind in H.
  destruct H as (t1 & t2 & o2 & eng2 & Hit & -> & H).
  cbn [andb app].
  destruct (Js.iterate _) as [fixes |]; cbn in Hit;
    destruct Hit as [-> Hit]; injection Hit as -> ->.
  - exact H.
  - destruct H as [-> H]. injection H as -> ->. cbn. auto.
Qed.

(** *** The cache of successful fixes *)

(** A method is blind to the engine's fields when its exchanges and its
    outcome are the same from any two engines. *)
Definition blind {A} (m : EM A) : Prop :=
  forall eng other tr o eng',
    runs (m eng) tr (o, eng') -> exists other', runs (m other) tr (o, other').

Lemma blind_ret {A} (a : A) : blind (ret a).
Proof.
  intros eng other tr o eng' H. cbn in H. destruct H as [-> H].
  injection H as -> _. exists other. cbn. auto.
Qed.

Lemma blind_throw {A} t : blind (@throw engineE engine A t).
Proof.
  intros eng other tr o eng' H. cbn in H. destruct H as [-> H].
  injection H as -> _. exists other. cbn. auto.
Qed.

Lemma blind_modify f : blind (@modify engineE engine f).
Proof.
  intros eng other tr o eng' H. cbn in H. destruct H as [-> H].
  injection H as -> _. exists (f other). cbn. auto.
Qed.

Lemma blind_perform {X} (e : engineE X) : blind (perform e).
Proof.
  intros eng other tr o eng' H. cbn in H.
  destruct H as (x & tr' & -> & -> & H). injection H as -> _.
  exists other. cbn. exists x, []. auto.
Qed.

Lemma blind_await {X} (e : engineE (X + error_obj)) : blind (await e).
Proof.
  intros eng other tr o eng' H. cbn in H.
  destruct H as (x & tr' & -> & H). exists other. cbn. exists x, tr'.
  split; [reflexivity |].
  destruct x; cbn in *; destruct H as [-> H]; injection H as -> _; auto.
Qed.

Lemma blind_defined {A} (v : option A) : blind (defined v).
Proof. destruct v; [apply blind_ret | apply blind_throw]. Qed.

Lemma blind_bind {A B} (m : EM A) (k : A -> EM B) :
  blind m -> (forall a, blind (k a)) -> blind (bind m k).
Proof.
  intros Hm Hk eng other tr o eng' H. apply runs_bind in H.
  destruct H as (tr1 & tr2 & o1 & eng1 & H1 & -> & H2).
  destruct (Hm _ other _ _ _ H1) as (other1 & H1').
  destruct o1 as [a | t].
  - destruct (Hk a _ other1 _ _ _ H2) as (other' & H2').
    exists other'. apply runs_bind.
    exists tr1, tr2, (Returned a), other1. auto.
  - destruct H2 as [-> H2]. injection H2 as -> _.
    exists other1. apply runs_bind.
    exists tr1, [], (Thrown t), other1. auto.
Qed.

Lemma blind_try_catch {A} (m : EM A) (h : thrown -> EM A) :
  blind m -> (forall t, blind (h t)) -> blind (try_catch m h).
Proof.
  intros Hm Hh eng other tr o eng' H. apply runs_try_catch in H.
  destruct H as (tr1 & tr2 & o1 & eng1 & H1 & -> & H2).
  destruct (Hm _ other _ _ _ H1) as (other1 & H1').
  destruct o1 as [a | t].
  - destruct H2 as [-> H2]. injection H2 as -> _.
    exists other1. apply runs_try_catch.
    exists tr1, [], (Returned a), other1. auto.
  - destruct (Hh t _ other1 _ _ _ H2) as (other' & H2').
    exists other'. apply runs_try_catch.
    exists tr1, tr2, (Thrown t), other1. auto.
Qed.

Ltac blind_step :=
  first
    [ apply blind_bind; [| intros ?]
    | apply blind_try_catch; [| intros ?]
    | apply blind_ret
    | apply blind_throw
    | apply blind_perform
    | apply blind_await
    | apply blind_modify
    | apply blind_defined
    | match goal with
      | |- blind (if ?c then _ else _) => destruct c
      | |- blind (match ?x with _ => _ end) => destruct x
      end ].

Lemma blind_first_visible timeout locators :
  blind (first_visible timeout locators).
Proof.
  induction locators as [| l rest IH]; cbn [first_visible].
  - apply blind_ret.
  - apply blind_bind; [repeat blind_step | intros visible].
    destruct visible; [apply blind_ret | exact IH].
Qed.

Lemma blind_applyFix fix_ analysis context :
  blind (applyFix fix_ analysis context).
Proof.
  unfold applyFix, fixTimeout, fixLocator, fixUIChange, fixNetworkIssue,
    fixCaptcha, includes_lit.
  repeat first [apply blind_first_visible | blind_step].
Qed.

Lemma blind_try_fixes fixes analysis context :
  blind (try_fixes fixes analysis context).
Proof.
  induction fixes as [| fix_ rest IH]; cbn [try_fixes].
  - apply blind_ret.
  - apply blind_bind.
    + apply blind_try_catch; [| intros ?; repeat blind_step].
      apply blind_bind; [apply blind_applyFix | intros ?; apply blind_ret].
    + intros [result |]; [| exact IH].
      destruct (success result); [| exact IH].
      unfold remember_fix. repeat blind_step.
Qed.

Lemma blind_attemptFix error analysis context :
  blind (attemptFix error analysis context).
Proof.
  unfold attemptFix.
  repeat first [apply blind_try_fixes | blind_step].
Qed.

Lemma get_set_same_key (k : string) (v : json) m :
  JsMap.get String.eqb k (JsMap.set String.eqb k v m) = Some v.
Proof.
  induction m as [| [k' v'] m IH]; cbn.
  - now rewrite String.eqb_refl.
  - destruct (String.eqb k k') eqn:Hk; cbn; rewrite Hk; auto.
Qed.

(** A successful result that carries a locator has been written to the
    cache under the context. *)
Lemma try_fixes_remembers fixes analysis context eng tr result eng' l :
  runs (try_fixes fixes analysis context eng) tr (Returned result, eng') ->
  success result = true ->
  newLocator result = Some l ->
  Js.truthy (Some l) = true ->
  JsMap.get String.eqb context (successfulFixes eng') = Some l.
Proof.
  revert eng tr.
  induction fixes as [| fix_ rest IH]; intros eng tr H Hok Hloc Htruthy.
  - cbn in H. destruct H as [_ H]. injection H as -> _. discriminate.
  - cbn [try_fixes] in H. apply runs_bind in H.
    destruct H as (tr1 & tr2 & o1 & eng1 & Happ & -> & H).
    destruct o1 as [applied | t]; [| destruct H as [_ H]; discriminate].
    destruct applied as [r |]; [| eapply IH; eassumption].
    destruct (success r) eqn:Hr; [| eapply IH; eassumption].
    destruct (newLocator r) as [l' |] eqn:Hl'.
    + apply runs_bind in H.
      destruct H as (t5 & t6 & o5 & eng5 & Hrem & -> & H).
      destruct (Js.truthy (Some l')) eqn:Ht'; cbn in Hrem;
        destruct Hrem as [_ Hrem]; injection Hrem as -> ->;
        cbn in H; destruct H as [_ H]; injection H as -> ->.
      * rewrite Hl' in Hloc. injection Hloc as ->.
        cbn. apply get_set_same_key.
      * rewrite Hl' in Hloc. injection Hloc as ->. congruence.
    + cbn in H. destruct H as [_ H]. injection H as -> _. congruence.
Qed.

(** C4, as the code has it: a successful fix that discovered a locator
    leaves the cache mapping the context to that locator; and the cache is
    never consulted: from any other engine (any other cache) the dispatcher
    makes the same exchanges, the same probes in the same order, and ends
    with the same outcome. *)
Theorem fix_cache_written_never_read error analysis context eng tr o eng' :
  runs (attemptFix error analysis context eng) tr (o, eng') ->
  (forall result l,
      o = Returned result -> success result = true ->
      newLocator result = Some l -> Js.truthy (Some l) = true ->
      JsMap.get String.eqb context (successfulFixes eng') = Some l)
  /\ (forall other,
        exists other',
          runs (attemptFix error analysis context other) tr (o, other')).
Proof.
  intros H. split.
  - intros result l -> Hok Hloc Htruthy.
    unfold attemptFix in H. apply runs_bind in H.
    destruct H as (tr1 & tr2 & o1 & eng1 & Hnull & -> & H).
    apply guard_runs in Hnull. destruct Hnull as [_ Hnull].
    destruct (negb (Js.is_nullish _)); injection Hnull as -> ->;
      [| destruct H as [_ H]; discriminate].
    apply runs_bind in H.
    destruct H as (tr3 & tr4 & o3 & eng3 & Hprint & -> & H).
    apply guard_runs in Hprint. destruct Hprint as [_ Hprint].
    destruct (Js.printable _); injection Hprint as -> ->;
      [| destruct H as [_ H]; discriminate].
    apply runs_bind in H.
    destruct H as (t1 & t2 & o2 & eng2 & Hit & -> & H).
    destruct (Js.iterate _) as [fixes |]; cbn in Hit;
      destruct Hit as [_ Hit]; injection Hit as -> ->;
      [| destruct H as [_ H]; discriminate].
    eapply try_fixes_remembers; eassumption.
  - intros other. eapply blind_attemptFix. eassumption.
Qed.

(** The selectors a run probed, in order. *)
Definition probed (o : obs engineE) : option json :=
  match o with
  | Obs e _ =>
      match e with
      | locator_isVisible selector _ => Some selector
      | _ => None
      end
  end.

Fixpoint keep_probes (tr : list (obs engineE)) : list json :=
  match tr with
  | [] => []
  | o :: rest =>
      match probed o with
      | Some l => l :: keep_probes rest
      | None => keep_probes rest
      end
  end.

Definition locator_failure (candidates : list string) : json :=
  JObj [ ("errorType", JStr "locator");
         ("severity", JStr "high");
         ("suggestedFixes", JArr [JStr "try alternative locators"]);
         ("alternativeLocators", JArr (map JStr candidates));
         ("shouldRetry", JBool true);
         ("retryDelay", JNum 2000) ].

Definition click_failed : error_obj :=
  {| message := "locator.click: element not found"; stack := None |}.

(** A page on which only [#submit-v2] is visible. *)
Definition new_form : list (obs engineE) -> forall X, engineE X -> X :=
  page_env unreachable_model (fun l => Js.is_str (Some l) "#submit-v2").

Definition first_repair :=
  Eval vm_compute in
    run_in new_form []
      (attemptFix click_failed (locator_failure ["#submit-v2"]) "submit_form"
         new_engine).

Definition second_repair :=
  Eval vm_compute in
    run_in new_form []
      (attemptFix click_failed (locator_failure ["#submit-old"])
         "submit_form" (snd (snd first_repair))).

Lemma fix_cache_written_never_read_witness :
  (forall result l,
      fst (snd first_repair) = Returned result -> success result = true ->
      newLocator result = Some l -> Js.truthy (Some l) = true ->
      JsMap.get String.eqb "submit_form"
        (successfulFixes (snd (snd first_repair))) = Some l)
  /\ (forall other,
        exists other',
          runs (attemptFix click_failed (locator_failure ["#submit-v2"])
                  "submit_form" other)
            (fst first_repair) (fst (snd first_repair), other')).
Proof.
  apply (fix_cache_written_never_read click_failed
           (locator_failure ["#submit-v2"]) "submit_form" new_engine
           (fst first_repair) (fst (snd first_repair))
           (snd (snd first_repair))).
  apply (run_in_eq_runs new_form _ []). vm_compute. reflexivity.
Defined.

(** C4 as stated fails: after a repair has cached [#submit-v2] for the
    context, and with that element still visible, the next failure in the
    same context probes the one alternative locator of its classification
    and nothing else; the cached locator is not consulted, and the repair
    fails. *)
Lemma cached_locator_not_consulted :
  runs (attemptFix click_failed (locator_failure ["#submit-v2"])
          "submit_form" new_engine)
    (fst first_repair) (snd first_repair)
  /\ JsMap.get String.eqb "submit_form"
       (successfulFixes (snd (snd first_repair)))
     = Some (JStr "#submit-v2")
  /\ runs (attemptFix click_failed (locator_failure ["#submit-old"])
             "submit_form" (snd (snd first_repair)))
       (fst second_repair) (snd second_repair)
  /\ keep_probes (fst second_repair) = [JStr "#submit-old"]
  /\ hd_error (keep_probes (fst second_repair)) <> Some (JStr "#submit-v2")
  /\ fst (snd second_repair)
     = Returned {| strategy := Lit "All fixes failed";
                   success := false;
                   newLocator := undefined;
                   notes := Lit "Manual intervention required" |}.
Proof.
  split; [| split; [reflexivity | split; [| split; [reflexivity |]]]].
  - apply (run_in_eq_runs new_form _ []). vm_compute. reflexivity.
  - apply (run_in_eq_runs new_form _ []). vm_compute. reflexivity.
  - split; [discriminate | reflexivity].
Qed.

End DispatcherFacts.


(** ** What the classifier can return *)

Section ClassifierShape.

Lemma members_object fuel acc s v rest :
  Json.parse fuel (Json.Members acc) s = Json.Parsed v rest ->
  exists fields, v = JObj fields.
Proof.
  revert acc s.
  induction fuel as [| fuel IH]; intros acc s H; cbn [Json.parse] in H.
  - discriminate.
  - destruct (Json.after Str.dquote (Json.skip_ws s)) as [r |];
      [| discriminate].
    destruct (Json.string_body r) as [[key r1] |]; [| discriminate].
    destruct (Json.after ":" (Json.skip_ws r1)) as [r2 |]; [| discriminate].
    destruct (Json.parse fuel Json.Value r2) as [v' r3 | |];
      [| discriminate | discriminate].
    destruct (Json.after "," (Json.skip_ws r3)) as [r4 |].
    + eapply IH. eassumption.
    + destruct (Json.after "}" (Json.skip_ws r3)) as [r4 |];
        [| discriminate].
      injection H as <- _. eauto.
Qed.

(** A text that starts with an opening brace parses to an object, if it
    parses. *)
Lemma JSON_parse_brace r v :
  Json.JSON_parse (String "{" r) = Some v -> exists fields, v = JObj fields.
Proof.
  unfold Json.JSON_parse.
  destruct (Json.parse _ Json.Value (String "{" r)) as [v' rest | |] eqn:Hp;
    [| discriminate | discriminate].
  destruct (Json.skip_ws rest); [| discriminate].
  intros H. injection H as ->.
  rewrite Nat.add_1_r in Hp. cbn [Json.parse] in Hp.
  change (Json.skip_ws (String "{" r)) with (String "{" r) in Hp.
  cbn [Json.after Ascii.eqb Bool.eqb] in Hp.
  destruct (Json.after "}" (Json.skip_ws r)) as [r' |].
  - injection Hp as <- _. eauto.
  - eapply members_object. eassumption.
Qed.

Lemma substring_from_index c s i :
  Str.indexOf c s = Some i ->
  exists r, String.substring i (String.length s - i) s = String c r.
Proof.
  revert i. induction s as [| d s IH]; intros i H; cbn in H.
  - discriminate.
  - destruct (Ascii.eqb c d) eqn:Hcd.
    + injection H as <-. apply Ascii.eqb_eq in Hcd. subst d.
      cbn. eauto.
    + destruct (Str.indexOf c s) as [j |]; [| discriminate].
      injection H as <-. cbn. apply IH. reflexivity.
Qed.

Lemma match_braces_brace content jsonMatch :
  match_braces content = Some jsonMatch ->
  exists r, jsonMatch = String "{" r.
Proof.
  unfold match_braces.
  destruct (Str.indexOf "{" content) as [i |] eqn:Hi; [| discriminate].
  destruct (substring_from_index _ _ _ Hi) as (r & ->).
  destruct (Str.lastIndexOf "}" (String "{" r)) as [j |]; [| discriminate].
  intros H. injection H as <-. cbn. eauto.
Qed.

Lemma parsed_reply_object answer v :
  parsed_reply answer = Some v -> exists fields, v = JObj fields.
Proof.
  unfold parsed_reply. destruct answer as [content |]; [| discriminate].
  destruct (match_braces content) as [jsonMatch |] eqn:Hm; [| discriminate].
  destruct (match_braces_brace _ _ Hm) as (r & ->).
  apply JSON_parse_brace.
Qed.

(** [analyzeError] returns an object: the one parsed from the reply, or
    the keyword classification. *)
Lemma analyzeError_returns_object error context currentUrl eng tr o eng' :
  runs (analyzeError error context currentUrl eng) tr (o, eng') ->
  exists fields, o = Returned (JObj fields).
Proof.
  intros H. apply analyzeError_runs in H.
  destruct H as (_ & _ & _ & answer & _ & H).
  destruct (parsed_reply answer) as [v |] eqn:Hp.
  - destruct (parsed_reply_object _ _ Hp) as (fields & ->).
    injection H as -> _. eauto.
  - injection H as -> _. unfold ErrorAnalysis_object. eauto.
Qed.

End ClassifierShape.

(** ** The executor *)

Section ExecutorFacts.
Context {T : Type}.

(** An engine exchange as the executor's environment sees it. *)
Definition lift (tr : list (obs engineE)) : list (obs (botE T)) :=
  map (obs_map (@engine_call T)) tr.

Definition after_failure (b : bot) : bot :=
  set_totalErrors (b.(totalErrors) + 1) b.

(** The bot once a failure has been counted and classified. *)
Definition after_analysis (analysis : json) (eng : engine) (b : bot) : bot :=
  let b2 := set_errorAnalyzer (Some eng) (after_failure b) in
  let errorType := Js.field analysis "errorType" in
  set_errorTypes
    (JsMap.set Js.same_value_zero errorType
       (errorType_count errorType b2 + 1) b2.(errorTypes)) b2.

(** The bot once the dispatcher has returned [result]. *)
Definition after_fix (result : FixAttempt) (eng : engine) (b : bot) : bot :=
  let b4 := set_errorAnalyzer (Some eng) b in
  if result.(success) then set_fixedErrors (b4.(fixedErrors) + 1) b4 else b4.

Definition wants_retry (retries attempt : Z) (analysis : json) : bool :=
  (attempt <? retries) && Js.truthy (Js.field analysis "shouldRetry").

Lemma on_analyzer_runs {A} (m : EM A) (b : bot) tr res :
  runs (on_analyzer (T := T) m b) tr res <->
  match b.(errorAnalyzer) with
  | None => tr = [] /\ res = (Thrown TypeError, b)
  | Some eng =>
      exists tr' o eng',
        runs (m eng) tr' (o, eng') /\ tr = lift tr'
        /\ res = (o, set_errorAnalyzer (Some eng') b)
  end.
Proof.
  unfold on_analyzer. destruct (errorAnalyzer b) as [eng |]; [| reflexivity].
  rewrite runs_pbind. split.
  - intros (tr1 & tr2 & [o eng'] & H1 & [-> ->] & ->).
    apply runs_translate in H1. destruct H1 as (tr' & H1 & ->).
    exists tr', o, eng'. rewrite app_nil_r. auto.
  - intros (tr' & o & eng' & H1 & -> & ->).
    exists (lift tr'), [], (o, eng'). rewrite app_nil_r.
    split; [| cbn; auto]. apply runs_translate. eauto.
Qed.

(** Every run of the [catch] block of one attempt. *)
Lemma recover_runs context retries attempt err
  (next_attempt : BM (option T)) b tr res :
  runs (recover context retries attempt err next_attempt b) tr res ->
  match b.(errorAnalyzer) with
  | None => tr = [] /\ res = (Thrown (Raised err), after_failure b)
  | Some eng =>
      exists currentUrl tra analysis eng1,
        runs (analyzeError err context currentUrl eng) tra
          (Returned analysis, eng1)
        /\ let b3 := after_analysis analysis eng1 b in
           if negb (loggable analysis) then
             tr = Obs bot_page_url currentUrl :: lift tra
             /\ res = (Thrown TypeError,
                       set_errorAnalyzer (Some eng1) (after_failure b))
           else if wants_retry retries attempt analysis then
             exists trf fixed eng2,
               runs (attemptFix err analysis context eng1) trf (fixed, eng2)
               /\ match fixed with
                  | Thrown t =>
                      tr = Obs bot_page_url currentUrl :: lift tra ++ lift trf
                      /\ res = (Thrown t, set_errorAnalyzer (Some eng2) b3)
                  | Returned result =>
                      exists trn,
                        runs (next_attempt (after_fix result eng2 b3)) trn res
                        /\ tr = Obs bot_page_url currentUrl :: lift tra
                                ++ lift trf
                                ++ Obs (setTimeout
                                          (Js.field analysis "retryDelay")) tt
                                   :: trn
                  end
           else
             tr = Obs bot_page_url currentUrl :: lift tra
             /\ res = (if Js.is_str (Js.field analysis "severity") "high"
                       then Thrown (Raised err) else Returned None, b3)
  end.
Proof.
  unfold recover. intros H.
  apply runs_bind in H. destruct H as (t1 & t2 & o1 & b1 & Hmod & -> & H).
  cbn in Hmod. destruct Hmod as [-> Hmod]. injection Hmod as -> ->.
  cbv beta iota in H.
  apply runs_bind in H. destruct H as (t3 & t4 & o2 & b2 & Hget & -> & H).
  cbn in Hget. destruct Hget as [-> Hget]. injection Hget as -> ->.
  cbv beta iota in H. cbn [errorAnalyzer set_totalErrors] in H.
  destruct (errorAnalyzer b) as [eng |] eqn:Heng.
  2:{ cbn in H. destruct H as [-> ->]. auto. }
  apply runs_bind in H. destruct H as (t5 & t6 & o3 & b3 & Hurl & -> & H).
  cbn in Hurl. destruct Hurl as (currentUrl & t7 & -> & -> & Hurl).
  injection Hurl as -> ->. cbv beta iota in H.
  apply runs_bind in H. destruct H as (t8 & t9 & o4 & b4 & Han & -> & H).
  apply on_analyzer_runs in Han. cbn [errorAnalyzer set_totalErrors] in Han.
  rewrite Heng in Han. destruct Han as (tra & oa & eng1 & Han & -> & Hb4).
  injection Hb4 as -> ->.
  destruct (analyzeError_returns_object _ _ _ _ _ _ _ Han) as (fields & ->).
  exists currentUrl, tra, (JObj fields), eng1. split; [exact Han |].
  cbv beta iota in H.
  apply runs_bind in H. destruct H as (t19 & t20 & o9 & b9 & Hlog & -> & H).
  fold (after_failure b) in Hlog, H |- *.
  destruct (loggable (JObj fields)); cbn in Hlog;
    destruct Hlog as [-> Hlog]; injection Hlog as -> ->.
  2:{ destruct H as [-> ->]. cbn. rewrite app_nil_r. auto. }
  cbv beta iota in H. cbn [negb].
  apply runs_bind in H. destruct H as (t10 & t11 & o5 & b5 & Hset & -> & H).
  cbn in Hset. destruct Hset as [-> Hset]. injection Hset as -> ->.
  cbv beta iota in H. cbv zeta. fold (after_failure b) in H |- *.
  unfold wants_retry.
  destruct ((attempt <? retries)
            && Js.truthy (Js.field (JObj fields) "shouldRetry")).
  - apply runs_bind in H. destruct H as (t12 & t13 & o6 & b6 & Hfix & -> & H).
    apply on_analyzer_runs in Hfix.
    cbn [errorAnalyzer set_errorTypes set_errorAnalyzer] in Hfix.
    destruct Hfix as (trf & fixed & eng2 & Hfix & -> & Hb6).
    injection Hb6 as -> ->.
    exists trf, fixed, eng2. split; [exact Hfix |].
    destruct fixed as [result | t].
    + unfold after_fix. destruct (success result).
      * apply runs_bind in H.
        destruct H as (t14 & t15 & o7 & b7 & Hinc & -> & H).
        cbn in Hinc. destruct Hinc as [-> Hinc]. injection Hinc as -> ->.
        cbv beta iota in H. apply runs_bind in H.
        destruct H as (t16 & t17 & o8 & b8 & Hsleep & -> & H).
        cbn in Hsleep. destruct Hsleep as ([] & t18 & -> & -> & Hsleep).
        injection Hsleep as -> ->. cbv beta iota in H.
        exists t17. split; [exact H | reflexivity].
      * apply runs_bind in H.
        destruct H as (t16 & t17 & o8 & b8 & Hsleep & -> & H).
        cbn in Hsleep. destruct Hsleep as ([] & t18 & -> & -> & Hsleep).
        injection Hsleep as -> ->. cbv beta iota in H.
        exists t17. split; [exact H | reflexivity].
    + destruct H as [-> ->]. rewrite app_nil_r. auto.
  - destruct (Js.is_str (Js.field (JObj fields) "severity") "high");
      cbn in H; destruct H as [-> ->]; rewrite app_nil_r; auto.
Qed.

(** *** Counting what a run did *)

(** The answer of the operation, for an exchange that is a call of it. *)
Definition call_answer (o : obs (botE T)) : option (T + error_obj) :=
  match o with
  | Obs e x =>
      match e in botE _ X return X -> option (T + error_obj) with
      | operation => fun x => Some x
      | _ => fun _ => None
      end x
  end.

(** The reply of the model, for an exchange that is a chat. *)
Definition chat_answer (o : obs engineE) : option (string + error_obj) :=
  match o with
  | Obs e x =>
      match e in engineE X return X -> option (string + error_obj) with
      | llm_chat _ => fun x => Some x
      | _ => fun _ => None
      end x
  end.

Definition bot_chat_answer (o : obs (botE T))
  : option (string + error_obj) :=
  match o with
  | Obs e x =>
      match e in botE _ X return X -> option (string + error_obj) with
      | engine_call e' => fun x => chat_answer (Obs e' x)
      | _ => fun _ => None
      end x
  end.

Fixpoint keep {A B} (f : A -> option B) (l : list A) : list B :=
  match l with
  | [] => []
  | a :: rest =>
      match f a with
      | Some b => b :: keep f rest
      | None => keep f rest
      end
  end.

(** The outcomes of the successive calls of the operation in a run. *)
Definition call_answers (tr : list (obs (botE T))) : list (T + error_obj) :=
  keep call_answer tr.

(** How many times the run called the operation. *)
Definition calls (tr : list (obs (botE T))) : nat :=
  List.length (call_answers tr).

Definition is_failure (a : T + error_obj) : bool :=
  match a with
  | inl _ => false
  | inr _ => true
  end.

(** How many of these calls failed. *)
Definition failed_calls (tr : list (obs (botE T))) : nat :=
  List.length (filter is_failure (call_answers tr)).

(** The replies the model gave during a run. *)
Definition chat_answers (tr : list (obs (botE T)))
  : list (string + error_obj) :=
  keep bot_chat_answer tr.

Lemma keep_app {A B} (f : A -> option B) l1 l2 :
  keep f (l1 ++ l2) = keep f l1 ++ keep f l2.
Proof.
  induction l1 as [| a l1 IH]; cbn; [reflexivity |].
  destruct (f a); cbn; now rewrite IH.
Qed.

Lemma call_answers_lift tr : call_answers (lift tr) = [].
Proof.
  induction tr as [| [X e x] tr IH]; cbn; [reflexivity | exact IH].
Qed.

Lemma call_answers_app tr1 tr2 :
  call_answers (tr1 ++ tr2) = call_answers tr1 ++ call_answers tr2.
Proof. apply keep_app. Qed.

Lemma chat_answers_lift tr : chat_answers (lift tr) = keep chat_answer tr.
Proof.
  unfold chat_answers, lift.
  induction tr as [| [X e x] tr IH]; [reflexivity |].
  cbn [map keep]. rewrite IH. reflexivity.
Qed.

Lemma calls_cons_operation x tr :
  call_answers (Obs (@operation T) x :: tr) = x :: call_answers tr.
Proof. reflexivity. Qed.

Lemma call_answers_recovery currentUrl tra rest :
  call_answers (Obs bot_page_url currentUrl :: lift tra ++ rest)
  = call_answers rest.
Proof.
  change (call_answers (lift tra ++ rest) = call_answers rest).
  now rewrite call_answers_app, call_answers_lift.
Qed.

Lemma call_answers_url currentUrl tra :
  call_answers (Obs (@bot_page_url T) currentUrl :: lift tra) = [].
Proof.
  change (call_answers (lift tra) = []). apply call_answers_lift.
Qed.

Lemma call_answers_sleep delay rest :
  call_answers (Obs (@setTimeout T delay) tt :: rest) = call_answers rest.
Proof. reflexivity. Qed.

Lemma after_fix_counters result eng analysis eng1 b :
  let b' := after_fix result eng (after_analysis analysis eng1 b) in
  totalErrors b' = totalErrors b + 1
  /\ fixedErrors b <= fixedErrors b' <= fixedErrors b + 1
  /\ (success result = true -> fixedErrors b' = fixedErrors b + 1)
  /\ (success result = false -> fixedErrors b' = fixedErrors b).
Proof.
  unfold after_fix. destruct (success result); cbn; repeat split; lia.
Qed.

(** How a run can end from within the loop body: with the result of a
    call of the operation, with [null], with the error of a failed call
    thrown again, or with the TypeError of a classification that a log
    line cannot print or whose suggested fixes cannot be iterated. *)
Definition loop_outcome (tr : list (obs (botE T)))
  (o : outcome (option T)) : Prop :=
  (exists v, o = Returned (Some v) /\ In (inl v) (call_answers tr))
  \/ o = Returned None
  \/ (exists e, o = Thrown (Raised e) /\ In (inr e) (call_answers tr))
  \/ o = Thrown TypeError.

(** What every run of the loop satisfies, from any value of [attempt]
    on: [len] values remain, the last of them being [retries]. *)
Lemma attempts_runs context retries len :
  forall a, retries = Z.of_nat (a + len) - 1 ->
  forall b tr o b',
    runs (attempts (T := T) context retries (map Z.of_nat (seq a len)) b)
      tr (o, b') ->
    (calls tr <= len)%nat
    /\ totalErrors b' = totalErrors b + Z.of_nat (failed_calls tr)
    /\ (len <> 0%nat ->
        fixedErrors b' - fixedErrors b < Z.of_nat (calls tr)
        /\ loop_outcome tr o).
Proof.
  induction len as [| len IH]; intros a Hretries b tr o b' H.
  - cbn in H. destruct H as [-> H]. injection H as -> ->.
    cbn. repeat split; [lia | lia | contradiction | contradiction].
  - cbn [seq map attempts] in H. apply runs_bind in H.
    destruct H as (t1 & t2 & o1 & b1 & Hop & -> & H).
    cbn in Hop. destruct Hop as (x & t3 & -> & -> & Hop).
    injection Hop as -> ->. cbv beta iota in H.
    unfold calls, failed_calls, loop_outcome.
    cbn [app]. rewrite calls_cons_operation.
    destruct x as [v | err].
    + cbn in H. destruct H as [-> H]. injection H as -> ->.
      cbn. repeat split; try lia. left. eauto.
    + apply recover_runs in H. cbn [filter is_failure List.length].
      destruct (errorAnalyzer b) as [eng |].
      * destruct H as (currentUrl & tra & analysis & eng1 & Han & H).
        cbv zeta in H.
        destruct (loggable analysis); cbn [negb] in H.
        2:{ destruct H as [-> H]. injection H as -> ->.
            rewrite call_answers_url. cbn.
            repeat split; try lia. right; right; right. reflexivity. }
        destruct (wants_retry retries (Z.of_nat a) analysis) eqn:Hwant.
        -- destruct H as (trf & fixed & eng2 & Hfix & H).
           destruct fixed as [result | t].
           ++ destruct H as (trn & Hnext & ->).
              rewrite call_answers_recovery, call_answers_app,
                call_answers_lift, call_answers_sleep. cbn [app].
              assert (Hlen : len <> 0%nat).
              { unfold wants_retry in Hwant.
                apply andb_prop in Hwant. destruct Hwant as [Hlt _].
                apply Z.ltb_lt in Hlt. lia. }
              apply (IH (S a)) in Hnext; [| lia].
              destruct Hnext as (Hcalls & Htotal & Hrest).
              destruct (Hrest Hlen) as (Hfixed & Hout).
              destruct (after_fix_counters result eng2 analysis eng1 b)
                as (Ht & Hf & _).
              unfold calls, failed_calls, loop_outcome in *.
              cbn [List.length] in *.
              repeat split; try lia.
              destruct Hout as [(v & -> & Hin) | [-> | [(e & -> & Hin) | ->]]];
                [ left; exists v | right; left
                | right; right; left; exists e | right; right; right ];
                auto using in_cons.
           ++ destruct H as [-> H]. injection H as -> ->.
              rewrite call_answers_recovery, call_answers_lift. cbn.
              repeat split; try lia.
              destruct (attemptFix_outcome _ _ _ _ _ _ _ Hfix)
                as [(result & Habs) | Ht]; [discriminate |].
              injection Ht as ->. auto.
        -- destruct H as [-> H].
           replace (Obs bot_page_url currentUrl :: lift tra)
             with (Obs (@bot_page_url T) currentUrl :: lift tra ++ [])
             by now rewrite app_nil_r.
           rewrite call_answers_recovery. cbn.
           destruct (Js.is_str (Js.field analysis "severity") "high");
             injection H as -> ->; cbn; repeat split; try lia;
             [right; right; left; exists err | right; left]; auto.
      * destruct H as [-> H]. injection H as -> ->. cbn.
        repeat split; try lia. right; right; left. exists err. auto.
Qed.



(** The classification [analyzeError] returns on an answer of the model:
    the parsed reply, or the keyword classification of the message. *)
Definition classification_of (err : error_obj) (context : string)
  (answer : string + error_obj) : json :=
  match parsed_reply answer with
  | Some analysis => analysis
  | None => ErrorAnalysis_object (fallbackErrorAnalysis err.(message) context)
  end.

(** How the [catch] block ends when nothing is retried: with the error
    thrown again when the severity is ['high'], and with [null]
    otherwise; with a TypeError when a log line cannot print the
    classification. *)
Definition gives_up (err : error_obj) (analysis : json)
  : outcome (option T) :=
  if loggable analysis then
    if Js.is_str (Js.field analysis "severity") "high"
    then Thrown (Raised err) else Returned None
  else Thrown TypeError.

Lemma analyzeError_classification err context currentUrl eng tra analysis
  eng1 :
  runs (analyzeError err context currentUrl eng) tra
    (Returned analysis, eng1) ->
  exists answer,
    keep chat_answer tra = [answer]
    /\ analysis = classification_of err context answer.
Proof.
  intros H. apply analyzeError_runs in H.
  destruct H as (title & html & visible & answer & -> & Hres).
  exists answer. split; [reflexivity |]. unfold classification_of.
  destruct (parsed_reply answer); injection Hres as -> _; reflexivity.
Qed.

(** The bot when the [catch] block has ended without a retry: the failure
    is counted, and classified unless a log line threw before that. *)
Definition given_up (analysis : json) (eng : engine) (b : bot) : bot :=
  if loggable analysis then after_analysis analysis eng b
  else set_errorAnalyzer (Some eng) (after_failure b).

(** C7: when the first call fails and the classification of that failure
    (the one the model's first answer yields) says not to retry, the run
    consists of that one call, the reading of the URL and the
    classifier's exchanges: the operation is not called again, the
    dispatcher is not entered (nothing is waited for, no fix is counted,
    the bot is as the classification left it), and the run ends with the
    original error thrown again if the severity is ['high'], and with
    [null] otherwise. *)
Theorem no_retry_when_told_not_to context N b eng err answer tr o b' :
  b.(errorAnalyzer) = Some eng ->
  1 <= N ->
  runs (executeWithErrorRecovery (T := T) context (Some N) b) tr (o, b') ->
  hd_error (call_answers tr) = Some (inr err) ->
  hd_error (chat_answers tr) = Some answer ->
  Js.truthy (Js.field (classification_of err context answer) "shouldRetry")
  = false ->
  call_answers tr = [inr err]
  /\ fixedErrors b' = fixedErrors b
  /\ o = gives_up err (classification_of err context answer)
  /\ exists currentUrl tra eng1,
       tr = Obs operation (inr err) :: Obs bot_page_url currentUrl :: lift tra
       /\ runs (analyzeError err context currentUrl eng) tra
            (Returned (classification_of err context answer), eng1)
       /\ b' = given_up (classification_of err context answer) eng1 b.
Proof.
  intros Heng HN H Hfirst Hchat Hno. unfold executeWithErrorRecovery in H.
  apply runs_bind in H. destruct H as (t1 & t2 & o1 & b1 & Hget & -> & H).
  cbn in Hget. destruct Hget as [-> Hget]. injection Hget as -> ->.
  cbv beta iota zeta in H. unfold retries_of in H.
  destruct (N =? 0) eqn:H0; [apply Z.eqb_eq in H0; lia |].
  unfold attempt_values in H.
  destruct (Z.to_nat N) as [| n] eqn:Hn; [lia |].
  cbn [seq map attempts app] in H, Hfirst, Hchat |- *. apply runs_bind in H.
  destruct H as (t3 & t4 & o2 & b2 & Hop & -> & H).
  cbn in Hop. destruct Hop as (x & t5 & -> & -> & Hop).
  injection Hop as -> ->. cbv beta iota in H.
  cbn in Hfirst. injection Hfirst as ->.
  apply recover_runs in H. rewrite Heng in H.
  destruct H as (currentUrl & tra & analysis & eng1 & Han & H).
  cbv zeta in H.
  destruct (analyzeError_classification _ _ _ _ _ _ _ Han)
    as (answer' & Hkeep & Hanalysis).
  assert (Hrest : exists rest,
             t4 = Obs bot_page_url currentUrl :: lift tra ++ rest).
  { destruct (negb (loggable analysis)).
    - destruct H as [-> _]. exists []. now rewrite app_nil_r.
    - destruct (wants_retry N (Z.of_nat 1) analysis).
      + destruct H as (trf & fixed & eng2 & _ & H).
        destruct fixed as [result | t].
        * destruct H as (trn & _ & ->). eexists. reflexivity.
        * destruct H as [-> _]. eexists. reflexivity.
      + destruct H as [-> _]. exists []. now rewrite app_nil_r. }
  destruct Hrest as (rest & Ht4).
  assert (Hsame : answer' = answer).
  { rewrite Ht4 in Hchat.
    change (hd_error (chat_answers (lift tra ++ rest)) = Some answer)
      in Hchat.
    unfold chat_answers in Hchat. rewrite keep_app in Hchat.
    fold (chat_answers (lift tra)) in Hchat.
    rewrite chat_answers_lift, Hkeep in Hchat. cbn in Hchat.
    now injection Hchat. }
  subst answer'. rewrite <- Hanalysis in Hno |- *. clear Ht4 rest.
  unfold gives_up, given_up, wants_retry in *.
  rewrite Hno, andb_false_r in H.
  assert (Hend : t4 = Obs bot_page_url currentUrl :: lift tra
                 /\ fixedErrors b' = fixedErrors b
                 /\ b' = (if loggable analysis
                          then after_analysis analysis eng1 b
                          else set_errorAnalyzer (Some eng1)
                                 (after_failure b))
                 /\ o = if loggable analysis
                        then if Js.is_str (Js.field analysis "severity") "high"
                             then Thrown (Raised err) else Returned None
                        else Thrown TypeError).
  { destruct (loggable analysis); cbn [negb] in H; destruct H as [-> H].
    - destruct (Js.is_str (Js.field analysis "severity") "high");
        injection H as -> ->; cbn; auto.
    - injection H as -> ->. cbn. auto. }
  destruct Hend as (-> & Hfixed & Heng1 & ->). cbn [app].
  split; [rewrite calls_cons_operation, call_answers_url; reflexivity |].
  split; [exact Hfixed |]. split; [reflexivity |].
  exists currentUrl, tra, eng1. auto.
Qed.

(** *** Recovery when the model gives no usable reply *)

Definition unparsable (a : string + error_obj) : Prop :=
  parsed_reply a = None.

(** The keyword classification of a message without any of the keywords. *)
Definition unknown_classification : ErrorAnalysis :=
  {| errorType := unknown;
     severity := medium;
     suggestedFixes := ["retry operation"; "wait and retry"];
     alternativeLocators := [];
     shouldRetry := true;
     retryDelay := 3000 |}.

Lemma fallback_unknown errorMessage context :
  errorType (fallbackErrorAnalysis errorMessage context) = unknown ->
  fallbackErrorAnalysis errorMessage context = unknown_classification.
Proof.
  unfold fallbackErrorAnalysis.
  destruct (Str.includes errorMessage "timeout"); [discriminate |].
  destruct (Str.includes errorMessage "locator"
            || Str.includes errorMessage "selector"); [discriminate |].
  reflexivity.
Qed.

Lemma chat_answers_recovery currentUrl tra rest :
  chat_answers (Obs (@bot_page_url T) currentUrl :: lift tra ++ rest)
  = keep chat_answer tra ++ chat_answers rest.
Proof.
  change (chat_answers (lift tra ++ rest)
          = keep chat_answer tra ++ chat_answers rest).
  unfold chat_answers at 1. rewrite keep_app.
  fold (chat_answers (lift tra)). now rewrite chat_answers_lift.
Qed.

(** The bot after a failure classified as unknown by the keyword rules:
    the failure is counted, under [unknown], and nothing else changes. *)
Definition counted_unknown (eng : engine) (b : bot) : bot :=
  after_analysis (ErrorAnalysis_object unknown_classification) eng b.

(** One pass through the [catch] block for a message without keywords,
    with retries left and no usable reply of the model: no fix applies
    (the handler for unknown errors does nothing), the executor sleeps
    three seconds and goes to the next attempt. *)
Lemma recover_unknown context retries attempt err
  (next_attempt : BM (option T)) b eng tr res :
  b.(errorAnalyzer) = Some eng ->
  errorType (fallbackErrorAnalysis err.(message) context) = unknown ->
  attempt < retries ->
  runs (recover context retries attempt err next_attempt b) tr res ->
  Forall unparsable (chat_answers tr) ->
  exists currentUrl tra trn,
    tr = Obs bot_page_url currentUrl :: lift tra
         ++ Obs (setTimeout (Some (JNum 3000))) tt :: trn
    /\ runs (next_attempt (counted_unknown eng b)) trn res.
Proof.
  intros Heng Hunknown Hlt H Hchat.
  apply recover_runs in H. rewrite Heng in H.
  destruct H as (currentUrl & tra & analysis & eng1 & Han & H).
  apply analyzeError_runs in Han.
  destruct Han as (title & html & visible & answer & Htra & Hres).
  assert (Hprefix : exists rest,
             tr = Obs bot_page_url currentUrl :: lift tra ++ rest).
  { cbv zeta in H.
    destruct (negb (loggable analysis));
      [destruct H as [-> _]; exists []; now rewrite app_nil_r |].
    destruct (wants_retry retries attempt analysis).
    - destruct H as (trf & [result | t] & eng2 & _ & H).
      + destruct H as (trn & _ & ->). eauto.
      + destruct H as [-> _]. eauto.
    - destruct H as [-> _]. exists []. now rewrite app_nil_r. }
  assert (Hnone : parsed_reply answer = None).
  { destruct Hprefix as (rest & ->).
    rewrite chat_answers_recovery, Htra in Hchat. cbn in Hchat.
    inversion Hchat; assumption. }
  rewrite Hnone in Hres. injection Hres as -> ->.
  rewrite (fallback_unknown _ _ Hunknown) in H.
  cbv zeta in H.
  change (loggable (ErrorAnalysis_object unknown_classification))
    with true in H.
  cbn [negb] in H. unfold wants_retry in H.
  apply Z.ltb_lt in Hlt. rewrite Hlt in H. cbn [andb] in H.
  change (Js.truthy
            (Js.field (ErrorAnalysis_object unknown_classification)
               "shouldRetry")) with true in H.
  cbv beta iota in H.
  destruct H as (trf & fixed & eng2 & Hfix & H).
  cbn in Hfix. destruct Hfix as [-> Hfix]. injection Hfix as -> ->.
  destruct H as (trn & Hnext & ->).
  exists currentUrl, tra, trn. split; [reflexivity | exact Hnext].
Qed.

Lemma get_set_string_key s1 s2 (v : Z) m :
  JsMap.get Js.same_value_zero (Some (JStr s2))
    (JsMap.set Js.same_value_zero (Some (JStr s1)) v m)
  = if String.eqb s2 s1 then Some v
    else JsMap.get Js.same_value_zero (Some (JStr s2)) m.
Proof.
  induction m as [| [k' v'] m IH]; cbn.
  - reflexivity.
  - destruct k' as [[| c | q | y | items | fields] |]; cbn;
      try (rewrite IH; reflexivity).
    destruct (String.eqb s1 y) eqn:H1; cbn.
    + apply String.eqb_eq in H1. subst y.
      destruct (String.eqb s2 s1); reflexivity.
    + rewrite IH. destruct (String.eqb s2 y) eqn:H2; [| reflexivity].
      apply String.eqb_eq in H2. subst y.
      rewrite String.eqb_sym, H1. reflexivity.
Qed.

Lemma errorType_count_counted_unknown k eng b :
  errorType_count (Some (JStr k)) (counted_unknown eng b)
  = errorType_count (Some (JStr k)) b
    + (if String.eqb k "unknown" then 1 else 0).
Proof.
  unfold counted_unknown, after_analysis, errorType_count.
  cbn [errorTypes set_errorTypes set_errorAnalyzer after_failure
       set_totalErrors].
  change (Js.field (ErrorAnalysis_object unknown_classification) "errorType")
    with (Some (JStr "unknown")).
  rewrite get_set_string_key.
  destruct (String.eqb k "unknown") eqn:Hk.
  - apply String.eqb_eq in Hk. subst k. lia.
  - lia.
Qed.

(** C5, as the code has it: the operation fails twice with the message
    "Timeout 30000ms exceeded" and then succeeds, the bound is 3, and the
    model gives no usable reply, so that the keyword rules classify.  The
    operation is called three times, the result is its value, two errors
    are counted, both under [unknown] and none under [timeout], and no fix
    is counted. *)
Theorem capitalised_timeout_scenario context b eng e1 e2 v tr o b' :
  b.(errorAnalyzer) = Some eng ->
  e1.(message) = "Timeout 30000ms exceeded"%string ->
  e2.(message) = "Timeout 30000ms exceeded"%string ->
  runs (executeWithErrorRecovery (T := T) context (Some 3) b) tr (o, b') ->
  (exists rest, [inr e1; inr e2; inl v] = call_answers tr ++ rest) ->
  Forall unparsable (chat_answers tr) ->
  call_answers tr = [inr e1; inr e2; inl v]
  /\ o = Returned (Some v)
  /\ totalErrors b' = totalErrors b + 2
  /\ errorType_count (Some (JStr "unknown")) b'
     = errorType_count (Some (JStr "unknown")) b + 2
  /\ errorType_count (Some (JStr "timeout")) b'
     = errorType_count (Some (JStr "timeout")) b
  /\ fixedErrors b' = fixedErrors b.
Proof.
  intros Heng Hm1 Hm2 H (rest & Hscript) Hchat.
  unfold executeWithErrorRecovery in H.
  apply runs_bind in H. destruct H as (t1 & t2 & o1 & b1 & Hget & -> & H).
  cbn in Hget. destruct Hget as [-> Hget]. injection Hget as -> ->.
  cbv beta iota zeta in H.
  change (retries_of (Some 3) b) with 3 in H.
  change (attempt_values 3) with [1; 2; 3] in H.
  cbn [app] in *.
  (* first attempt *)
  cbn [attempts] in H. apply runs_bind in H.
  destruct H as (ta & tb & oa & ba & Hop & -> & H).
  cbn in Hop. destruct Hop as (x1 & tc & -> & -> & Hop).
  injection Hop as -> ->. cbv beta iota in H. cbn [app] in *.
  rewrite calls_cons_operation in Hscript |- *.
  injection Hscript as <- Hscript.
  change (chat_answers (Obs operation (inr e1) :: tb))
    with (chat_answers tb) in Hchat.
  apply recover_unknown with (eng := eng) in H;
    [| exact Heng | rewrite Hm1; reflexivity | lia | exact Hchat].
  destruct H as (url1 & tra1 & trn1 & -> & H).
  rewrite call_answers_recovery, call_answers_sleep in Hscript |- *.
  rewrite chat_answers_recovery in Hchat. apply Forall_app in Hchat.
  destruct Hchat as [_ Hchat].
  change (chat_answers (Obs (setTimeout (Some (JNum 3000))) tt :: trn1))
    with (chat_answers trn1) in Hchat.
  (* second attempt *)
  cbn [attempts] in H. apply runs_bind in H.
  destruct H as (ta & tb & oa & ba & Hop & -> & H).
  cbn in Hop. destruct Hop as (x2 & tc & -> & -> & Hop).
  injection Hop as -> ->. cbv beta iota in H. cbn [app] in *.
  rewrite calls_cons_operation in Hscript |- *.
  injection Hscript as <- Hscript.
  change (chat_answers (Obs operation (inr e2) :: tb))
    with (chat_answers tb) in Hchat.
  apply recover_unknown with (eng := eng) in H;
    [| reflexivity | rewrite Hm2; reflexivity | lia | exact Hchat].
  destruct H as (url2 & tra2 & trn2 & -> & H).
  rewrite call_answers_recovery, call_answers_sleep in Hscript |- *.
  (* third attempt *)
  cbn [attempts] in H. apply runs_bind in H.
  destruct H as (ta & tb & oa & ba & Hop & -> & H).
  cbn in Hop. destruct Hop as (x3 & tc & -> & -> & Hop).
  injection Hop as -> ->. cbv beta iota in H. cbn [app] in *.
  rewrite calls_cons_operation in Hscript |- *.
  injection Hscript as <- Hscript.
  cbn in H. destruct H as [-> H]. injection H as -> ->.
  split; [reflexivity |]. split; [reflexivity |].
  rewrite !errorType_count_counted_unknown. cbn.
  repeat split; lia.
Qed.

End ExecutorFacts.

(** ** Sessions run against scripted environments *)

Module Scenarios.

(** The operation answers as scripted, call after call; the page and the
    model answer as [page] says. *)
Definition scripted {T} (answers : list (T + error_obj))
  (otherwise : T + error_obj) (page : forall X, engineE X -> X)
  : env (botE T) :=
  fun past X e =>
    match e in botE _ X return X with
    | operation => nth (calls past) answers otherwise
    | bot_page_url => "https://www.naukri.com/nlogin/login"%string
    | setTimeout _ => tt
    | engine_call e' => page _ e'
    end.

(** A session that has just opened its page. *)
Definition fresh_bot : bot :=
  {| totalErrors := 0;
     fixedErrors := 0;
     errorTypes := [];
     errorAnalyzer := Some new_engine;
     maxRetryAttempts := 3 |}.

Definition offline_page : forall X, engineE X -> X :=
  page_env unreachable_model (fun _ => false) [].

Definition slow : error_obj :=
  {| message := "navigation timeout of 30000 ms exceeded"; stack := None |}.

(** The bound is 2; the first failure is repaired (the keyword rules see
    "timeout", the timeout handler waits five seconds), the second attempt
    fails as well. *)
Definition healed_once :=
  Eval vm_compute in
    run_in (scripted (T := string) [inr slow; inr slow] (inr slow)
              offline_page) []
      (executeWithErrorRecovery "login" (Some 2) fresh_bot).

(** The repair used up the first of the two slots: the second failure is
    final, and the run gives [null] after two calls. *)
Example healed_once_then_gives_up :
  call_answers (fst healed_once) = [inr slow; inr slow]
  /\ fst (snd healed_once) = Returned None
  /\ fixedErrors (snd (snd healed_once)) = 1
  /\ totalErrors (snd (snd healed_once)) = 2.
Proof. repeat split. Qed.



(** The scenario of C5 with the model out of reach. *)
Definition twice_then_applied :=
  Eval vm_compute in
    run_in (scripted (T := string) [inr boom; inr boom; inl "applied"%string]
              (inr boom) offline_page) []
      (executeWithErrorRecovery "login" (Some 3) fresh_bot).

Lemma capitalised_timeout_scenario_witness :
  call_answers (fst twice_then_applied)
  = [inr boom; inr boom; inl "applied"%string]
  /\ fst (snd twice_then_applied) = Returned (Some "applied"%string)
  /\ totalErrors (snd (snd twice_then_applied)) = totalErrors fresh_bot + 2
  /\ errorType_count (Some (JStr "unknown")) (snd (snd twice_then_applied))
     = errorType_count (Some (JStr "unknown")) fresh_bot + 2
  /\ errorType_count (Some (JStr "timeout")) (snd (snd twice_then_applied))
     = errorType_count (Some (JStr "timeout")) fresh_bot
  /\ fixedErrors (snd (snd twice_then_applied)) = fixedErrors fresh_bot.
Proof.
  apply (capitalised_timeout_scenario "login" fresh_bot new_engine boom boom
           "applied"%string (fst twice_then_applied)
           (fst (snd twice_then_applied)) (snd (snd twice_then_applied))).
  - reflexivity.
  - reflexivity.
  - reflexivity.
  - apply (run_in_eq_runs
             (scripted [inr boom; inr boom; inl "applied"%string] (inr boom)
                offline_page) _ []).
    vm_compute. reflexivity.
  - exists []. reflexivity.
  - replace (chat_answers (fst twice_then_applied))
      with [unreachable_model (UiAnalysisPrompt "" "" "");
            unreachable_model (UiAnalysisPrompt "" "" "")]
      by (vm_compute; reflexivity).
    repeat constructor.
Defined.

(** C5 as stated fails: at the end of this run the counter of [timeout]
    errors is 0, not 2; the two failures are counted as [unknown]. *)
Lemma capitalised_timeout_not_counted_as_timeout :
  runs (executeWithErrorRecovery "login" (Some 3) fresh_bot)
    (fst twice_then_applied) (snd twice_then_applied)
  /\ call_answers (fst twice_then_applied)
     = [inr boom; inr boom; inl "applied"%string]
  /\ fst (snd twice_then_applied) = Returned (Some "applied"%string)
  /\ totalErrors (snd (snd twice_then_applied)) = 2
  /\ errorType_count (Some (JStr "timeout")) (snd (snd twice_then_applied))
     = 0
  /\ errorType_count (Some (JStr "timeout")) (snd (snd twice_then_applied))
     <> 2
  /\ errorTypes (snd (snd twice_then_applied))
     = [(Some (JStr "unknown"), 2)].
Proof.
  split.
  - apply (run_in_eq_runs
             (scripted [inr boom; inr boom; inl "applied"%string] (inr boom)
                offline_page) _ []).
    vm_compute. reflexivity.
  - repeat split. vm_compute. discriminate.
Qed.

(** A reply that says: high severity, do not retry. *)
Definition fatal_reply : string :=
  ("{" ++ Str.dq ++ "errorType" ++ Str.dq ++ ": " ++ Str.dq ++ "captcha"
   ++ Str.dq ++ ", " ++ Str.dq ++ "severity" ++ Str.dq ++ ": " ++ Str.dq
   ++ "high" ++ Str.dq ++ ", " ++ Str.dq ++ "suggestedFixes" ++ Str.dq
   ++ ": [" ++ Str.dq ++ "solve it" ++ Str.dq ++ "], " ++ Str.dq
   ++ "alternativeLocators" ++ Str.dq ++ ": [], " ++ Str.dq ++ "shouldRetry"
   ++ Str.dq ++ ": false, " ++ Str.dq ++ "retryDelay" ++ Str.dq
   ++ ": 1000}")%string.

Definition blunt_page : forall X, engineE X -> X :=
  page_env (fun _ => inl fatal_reply) (fun _ => false) [].

Definition blocked : error_obj :=
  {| message := "Access denied"; stack := None |}.

Definition told_not_to_retry :=
  Eval vm_compute in
    run_in (scripted (T := string) [inr blocked; inl "applied"%string]
              (inr blocked) blunt_page) []
      (executeWithErrorRecovery "login" (Some 2) fresh_bot).

(** The second call, which would have succeeded, is not made. *)
Example told_not_to_retry_throws :
  call_answers (fst told_not_to_retry) = [inr blocked]
  /\ fst (snd told_not_to_retry) = Thrown (Raised blocked).
Proof. split; reflexivity. Qed.

Lemma no_retry_when_told_not_to_witness :
  call_answers (fst told_not_to_retry) = [inr blocked]
  /\ fixedErrors (snd (snd told_not_to_retry)) = fixedErrors fresh_bot
  /\ fst (snd told_not_to_retry)
     = gives_up blocked (classification_of blocked "login" (inl fatal_reply))
  /\ exists currentUrl tra eng1,
       fst told_not_to_retry
       = Obs operation (inr blocked)
           :: Obs bot_page_url currentUrl :: lift tra
       /\ runs (analyzeError blocked "login" currentUrl new_engine) tra
            (Returned (classification_of blocked "login" (inl fatal_reply)),
             eng1)
       /\ snd (snd told_not_to_retry)
          = given_up (classification_of blocked "login" (inl fatal_reply))
              eng1 fresh_bot.
Proof.
  apply (no_retry_when_told_not_to "login" 2 fresh_bot new_engine blocked
           (inl fatal_reply)
           (fst told_not_to_retry) (fst (snd told_not_to_retry))
           (snd (snd told_not_to_retry))).
  - reflexivity.
  - lia.
  - apply (run_in_eq_runs
             (scripted [inr blocked; inl "applied"%string] (inr blocked)
                blunt_page) _ []).
    vm_compute. reflexivity.
  - reflexivity.
  - reflexivity.
  - vm_compute. reflexivity.
Defined.

(** A reply whose [shouldRetry] is a number too small for a double: it
    parses to zero, which says not to retry. *)
Definition underflow_reply : string :=
  ("{" ++ Str.dq ++ "errorType" ++ Str.dq ++ ": " ++ Str.dq ++ "network"
   ++ Str.dq ++ ", " ++ Str.dq ++ "severity" ++ Str.dq ++ ": " ++ Str.dq
   ++ "low" ++ Str.dq ++ ", " ++ Str.dq ++ "suggestedFixes" ++ Str.dq
   ++ ": [" ++ Str.dq ++ "retry" ++ Str.dq ++ "], " ++ Str.dq
   ++ "shouldRetry" ++ Str.dq ++ ": 1e-400}")%string.

Definition underflow_run :=
  Eval vm_compute in
    run_in (scripted (T := string) [inr blocked; inl "applied"%string]
              (inr blocked)
              (page_env (fun _ => inl underflow_reply) (fun _ => false) []))
      []
      (executeWithErrorRecovery "login" (Some 2) fresh_bot).

Example underflow_is_not_retried :
  Js.field (classification_of blocked "login" (inl underflow_reply))
    "shouldRetry" = Some (JNum 0)
  /\ call_answers (fst underflow_run) = [inr blocked]
  /\ fst (snd underflow_run) = Returned None.
Proof. vm_compute. auto. Qed.

(** *** Which failures reach the error history *)

Definition missing_field : error_obj :=
  {| message := "Could not find email field"; stack := None |}.

(** One attempt that fails, with the model out of reach. *)
Definition failed_offline :=
  Eval vm_compute in
    run_in (scripted (T := string) [inr missing_field] (inr missing_field)
              offline_page) []
      (executeWithErrorRecovery "login" (Some 1) fresh_bot).

(** The same attempt, with a model whose reply parses. *)
Definition failed_online :=
  Eval vm_compute in
    run_in (scripted (T := string) [inr missing_field] (inr missing_field)
              (page_env (fun _ => inl sloppy_reply) (fun _ => false) [])) []
      (executeWithErrorRecovery "login" (Some 1) fresh_bot).

(** C6 fails on the keyword path: the failure is counted in [totalErrors]
    on both paths, but its message reaches [errorHistory] only when the
    reply of the model has parsed. *)
Theorem failure_logged_only_after_parsed_reply :
  runs (executeWithErrorRecovery "login" (Some 1) fresh_bot)
    (fst failed_offline) (snd failed_offline)
  /\ totalErrors (snd (snd failed_offline)) = 1
  /\ option_map errorHistory (errorAnalyzer (snd (snd failed_offline)))
     = Some []
  /\ runs (executeWithErrorRecovery "login" (Some 1) fresh_bot)
       (fst failed_online) (snd failed_online)
  /\ totalErrors (snd (snd failed_online)) = 1
  /\ option_map errorHistory (errorAnalyzer (snd (snd failed_online)))
     = Some [("Could not find email field"%string, 1)].
Proof.
  split; [| split; [reflexivity | split; [reflexivity |]]].
  - apply (run_in_eq_runs
             (scripted [inr missing_field] (inr missing_field) offline_page)
             _ []).
    vm_compute. reflexivity.
  - split; [| split; reflexivity].
    apply (run_in_eq_runs
             (scripted [inr missing_field] (inr missing_field)
                (page_env (fun _ => inl sloppy_reply) (fun _ => false) []))
             _ []).
    vm_compute. reflexivity.
Qed.

End Scenarios.

(** ** More on the executor *)

Section ExecutorBookkeeping.
Context {T : Type}.

Lemma attempt_values_nonpositive retries :
  retries <= 0 -> attempt_values retries = [].
Proof.
  intros H. unfold attempt_values.
  replace (Z.to_nat retries) with 0%nat by lia. reflexivity.
Qed.

(** With a bound that is not positive the loop body is never entered: the
    operation is not called, nothing is counted, and the error that
    follows the loop is thrown. *)
Theorem nonpositive_bound_throws_without_a_call context maxRetries b tr o b' :
  retries_of maxRetries b <= 0 ->
  runs (executeWithErrorRecovery (T := T) context maxRetries b) tr (o, b') ->
  tr = []
  /\ o = Thrown (MaxRetriesError (retries_of maxRetries b) context)
  /\ b' = b.
Proof.
  intros Hle H. unfold executeWithErrorRecovery in H.
  apply runs_bind in H. destruct H as (t1 & t2 & o1 & b1 & Hget & -> & H).
  cbn in Hget. destruct Hget as [-> Hget]. injection Hget as -> ->.
  cbv beta iota zeta in H. rewrite (attempt_values_nonpositive _ Hle) in H.
  cbn in H. destruct H as [-> H]. injection H as -> ->. auto.
Qed.

Lemma failed_calls_counted context maxRetries b tr o b' :
  runs (executeWithErrorRecovery (T := T) context maxRetries b) tr (o, b') ->
  totalErrors b' = totalErrors b + Z.of_nat (failed_calls tr).
Proof.
  intros H. unfold executeWithErrorRecovery in H.
  apply runs_bind in H. destruct H as (t1 & t2 & o1 & b1 & Hget & -> & H).
  cbn in Hget. destruct Hget as [-> Hget]. injection Hget as -> ->.
  cbv beta iota zeta in H.
  destruct (Z_le_gt_dec (retries_of maxRetries b) 0) as [Hle | Hgt].
  - rewrite (attempt_values_nonpositive _ Hle) in H.
    cbn in H. destruct H as [-> H]. injection H as _ ->. cbn. lia.
  - unfold attempt_values in H.
    apply (attempts_runs context _ (Z.to_nat (retries_of maxRetries b)) 1)
      in H; [| lia].
    cbn [app]. tauto.
Qed.


(** Without an error analyzer (no page has been opened) nothing is
    classified or retried: the first failure is counted and thrown again
    at once. *)
Theorem failure_without_analyzer_is_rethrown context maxRetries b tr o b' :
  b.(errorAnalyzer) = None ->
  1 <= retries_of maxRetries b ->
  runs (executeWithErrorRecovery (T := T) context maxRetries b) tr (o, b') ->
  (exists v, tr = [Obs operation (inl v)] /\ o = Returned (Some v) /\ b' = b)
  \/ (exists err,
        tr = [Obs operation (inr err)] /\ o = Thrown (Raised err)
        /\ b' = after_failure b).
Proof.
  intros Hnone Hge H. unfold executeWithErrorRecovery in H.
  apply runs_bind in H. destruct H as (t1 & t2 & o1 & b1 & Hget & -> & H).
  cbn in Hget. destruct Hget as [-> Hget]. injection Hget as -> ->.
  cbv beta iota zeta in H. unfold attempt_values in H.
  destruct (Z.to_nat (retries_of maxRetries b)) as [| n] eqn:Hn; [lia |].
  cbn [seq map attempts app] in H |- *. apply runs_bind in H.
  destruct H as (t3 & t4 & o2 & b2 & Hop & -> & H).
  cbn in Hop. destruct Hop as (x & t5 & -> & -> & Hop).
  injection Hop as -> ->. cbv beta iota in H.
  destruct x as [v | err].
  - cbn in H. destruct H as [-> H]. injection H as -> ->.
    left. exists v. cbn [app]. auto.
  - apply recover_runs in H. rewrite Hnone in H.
    destruct H as [-> H]. injection H as -> ->.
    right. exists err. cbn [app]. auto.
Qed.

(** *** The counters per kind *)







End ExecutorBookkeeping.

(** ** An operation that keeps failing, with the model out of reach *)

Section Hopeless.
Context {T : Type}.

(** The last pass through the [catch] block for a message without
    keywords: the keyword classification is of medium severity, so the
    failure is absorbed. *)
Lemma recover_unknown_last context retries attempt err
  (next_attempt : BM (option T)) b eng tr res :
  b.(errorAnalyzer) = Some eng ->
  errorType (fallbackErrorAnalysis err.(message) context) = unknown ->
  retries <= attempt ->
  runs (recover context retries attempt err next_attempt b) tr res ->
  Forall unparsable (chat_answers tr) ->
  exists currentUrl tra,
    tr = Obs bot_page_url currentUrl :: lift tra
    /\ res = (Returned None, counted_unknown eng b).
Proof.
  intros Heng Hunknown Hge H Hchat.
  apply recover_runs in H. rewrite Heng in H.
  destruct H as (currentUrl & tra & analysis & eng1 & Han & H).
  apply analyzeError_runs in Han.
  destruct Han as (title & html & visible & answer & Htra & Hres).
  cbv zeta in H. unfold wants_retry in H.
  replace (attempt <? retries) with false in H
    by (symmetry; apply Z.ltb_ge; exact Hge).
  cbn [andb] in H.
  assert (Htr : tr = Obs bot_page_url currentUrl :: lift tra).
  { destruct (negb (loggable analysis)); destruct H as [-> _]; reflexivity. }
  assert (Hnone : parsed_reply answer = None).
  { rewrite Htr in Hchat.
    replace (Obs bot_page_url currentUrl :: lift tra)
      with (Obs (@bot_page_url T) currentUrl :: lift tra ++ []) in Hchat
      by now rewrite app_nil_r.
    rewrite chat_answers_recovery, Htra in Hchat. cbn in Hchat.
    inversion Hchat; assumption. }
  rewrite Hnone in Hres. injection Hres as -> ->.
  rewrite (fallback_unknown _ _ Hunknown) in H.
  change (loggable (ErrorAnalysis_object unknown_classification))
    with true in H.
  cbn [negb] in H. destruct H as [_ H].
  exists currentUrl, tra. split; [exact Htr | exact H].
Qed.

(** A call that failed with a message the keyword rules know nothing
    about. *)
Definition keyword_free_failure (context : string) (a : T + error_obj)
  : Prop :=
  match a with
  | inl _ => False
  | inr e => errorType (fallbackErrorAnalysis e.(message) context) = unknown
  end.

Lemma attempts_hopeless context retries len :
  forall a, retries = Z.of_nat (a + len) - 1 ->
  forall b eng tr o b',
    b.(errorAnalyzer) = Some eng ->
    runs (attempts (T := T) context retries (map Z.of_nat (seq a len)) b)
      tr (o, b') ->
    Forall (keyword_free_failure context) (call_answers tr) ->
    Forall unparsable (chat_answers tr) ->
    len <> 0%nat ->
    calls tr = len
    /\ o = Returned None
    /\ fixedErrors b' = fixedErrors b
    /\ errorType_count (Some (JStr "unknown")) b'
       = errorType_count (Some (JStr "unknown")) b + Z.of_nat len.
Proof.
  induction len as [| len IH];
    intros a Hretries b eng tr o b' Heng H Hfail Hchat Hlen;
    [contradiction |].
  cbn [seq map attempts] in H. apply runs_bind in H.
  destruct H as (t1 & t2 & o1 & b1 & Hop & -> & H).
  cbn in Hop. destruct Hop as (x & t3 & -> & -> & Hop).
  injection Hop as -> ->. cbv beta iota in H.
  unfold calls in *. cbn [app] in *.
  rewrite calls_cons_operation in Hfail |- *.
  inversion Hfail as [| x' rest' Hx Hrest]; subst x' rest'.
  destruct x as [v | err]; [contradiction |]. cbn in Hx.
  change (chat_answers (Obs operation (inr err) :: t2))
    with (chat_answers t2) in Hchat.
  destruct len as [| len'].
  - apply recover_unknown_last with (eng := eng) in H;
      [| exact Heng | exact Hx | cbn in Hretries; lia | exact Hchat].
    destruct H as (currentUrl & tra & -> & H). injection H as -> ->.
    replace (Obs bot_page_url currentUrl :: lift tra)
      with (Obs (@bot_page_url T) currentUrl :: lift tra ++ [])
      by now rewrite app_nil_r.
    rewrite call_answers_recovery, errorType_count_counted_unknown.
    cbn. repeat split; lia.
  - apply recover_unknown with (eng := eng) in H;
      [| exact Heng | exact Hx | lia | exact Hchat].
    destruct H as (currentUrl & tra & trn & -> & H).
    rewrite call_answers_recovery, call_answers_sleep in Hrest |- *.
    rewrite chat_answers_recovery in Hchat. apply Forall_app in Hchat.
    destruct Hchat as [_ Hchat].
    change (chat_answers (Obs (setTimeout (Some (JNum 3000))) tt :: trn))
      with (chat_answers trn) in Hchat.
    apply (IH (S a)) with (eng := eng) in H;
      [| lia | reflexivity | exact Hrest | exact Hchat | discriminate].
    destruct H as (Hcalls & -> & Hfixed & Hcount).
    rewrite errorType_count_counted_unknown in Hcount. cbn in Hcount.
    cbn [List.length]. rewrite Hcalls.
    repeat split; try lia. exact Hfixed.
Qed.

(** When every call fails with a message that holds none of the keywords
    and the model gives no usable reply, the operation is called exactly
    [N] times, no fix is counted, every failure is counted as [unknown],
    and the run ends with [null]: the failure is absorbed, not thrown. *)
Theorem hopeless_operation_gives_null context N b eng tr o b' :
  b.(errorAnalyzer) = Some eng ->
  1 <= N ->
  runs (executeWithErrorRecovery (T := T) context (Some N) b) tr (o, b') ->
  Forall (keyword_free_failure context) (call_answers tr) ->
  Forall unparsable (chat_answers tr) ->
  Z.of_nat (calls tr) = N
  /\ o = Returned None
  /\ totalErrors b' = totalErrors b + N
  /\ fixedErrors b' = fixedErrors b
  /\ errorType_count (Some (JStr "unknown")) b'
     = errorType_count (Some (JStr "unknown")) b + N.
Proof.
  intros Heng HN H Hfail Hchat.
  pose proof (failed_calls_counted _ _ _ _ _ _ H) as Htotal.
  unfold executeWithErrorRecovery in H.
  apply runs_bind in H. destruct H as (t1 & t2 & o1 & b1 & Hget & -> & H).
  cbn in Hget. destruct Hget as [-> Hget]. injection Hget as -> ->.
  cbv beta iota zeta in H. unfold retries_of in H.
  destruct (N =? 0) eqn:H0; [apply Z.eqb_eq in H0; lia |].
  unfold attempt_values in H. cbn [app] in *.
  apply (attempts_hopeless context N (Z.to_nat N) 1) with (eng := eng) in H;
    [| lia | exact Heng | exact Hfail | exact Hchat | lia].
  destruct H as (Hcalls & -> & Hfixed & Hcount).
  assert (Hall : failed_calls t2 = calls t2).
  { unfold failed_calls, calls. clear - Hfail.
    induction (call_answers t2) as [| x l IH]; [reflexivity |].
    inversion Hfail as [| x' l' Hx Hl]; subst.
    destruct x; [contradiction |]. cbn. now rewrite IH. }
  rewrite Hall in Htotal. repeat split; try lia.
Qed.

End Hopeless.

Module HopelessScenario.
Import Scenarios.

Definition always_boom :=
  Eval vm_compute in
    run_in (scripted (T := string) [] (inr boom) offline_page) []
      (executeWithErrorRecovery "apply_job_42" (Some 2) fresh_bot).

Lemma hopeless_operation_gives_null_witness :
  Z.of_nat (calls (fst always_boom)) = 2
  /\ fst (snd always_boom) = Returned None
  /\ totalErrors (snd (snd always_boom)) = totalErrors fresh_bot + 2
  /\ fixedErrors (snd (snd always_boom)) = fixedErrors fresh_bot
  /\ errorType_count (Some (JStr "unknown")) (snd (snd always_boom))
     = errorType_count (Some (JStr "unknown")) fresh_bot + 2.
Proof.
  apply (hopeless_operation_gives_null "apply_job_42" 2 fresh_bot new_engine
           (fst always_boom) (fst (snd always_boom))
           (snd (snd always_boom))).
  - reflexivity.
  - lia.
  - apply (run_in_eq_runs (scripted [] (inr boom) offline_page) _ []).
    vm_compute. reflexivity.
  - replace (call_answers (fst always_boom))
      with [@inr string _ boom; inr boom] by (vm_compute; reflexivity).
    repeat constructor.
  - replace (chat_answers (fst always_boom))
      with [unreachable_model (UiAnalysisPrompt "" "" "");
            unreachable_model (UiAnalysisPrompt "" "" "")]
      by (vm_compute; reflexivity).
    repeat constructor.
Defined.

End HopelessScenario.

(** ** More on the fix dispatcher *)

Section DispatcherMore.

Definition all_fixes_failed : FixAttempt :=
  {| strategy := Lit "All fixes failed";
     success := false;
     newLocator := undefined;
     notes := Lit "Manual intervention required" |}.

(** Whether [applyFix] has a handler for the kind. *)
Definition handled_kind (errorType : jsval) : bool :=
  Js.is_str errorType "timeout" || Js.is_str errorType "locator"
  || Js.is_str errorType "ui_change" || Js.is_str errorType "network"
  || Js.is_str errorType "captcha".

Lemma try_fixes_unhandled fixes analysis context eng tr o eng' :
  handled_kind (Js.field analysis "errorType") = false ->
  runs (try_fixes fixes analysis context eng) tr (o, eng') ->
  tr = [] /\ o = Returned all_fixes_failed /\ eng' = eng.
Proof.
  intros Hkind. unfold handled_kind in Hkind.
  destruct (orb_false_elim _ _ Hkind) as [Hk4 Hcaptcha].
  destruct (orb_false_elim _ _ Hk4) as [Hk3 Hnetwork].
  destruct (orb_false_elim _ _ Hk3) as [Hk2 Hui].
  destruct (orb_false_elim _ _ Hk2) as [Htimeout Hlocator].
  revert eng tr. induction fixes as [| fix_ rest IH]; intros eng tr H.
  - cbn in H. destruct H as [-> H]. injection H as -> ->. auto.
  - cbn [try_fixes] in H. apply runs_bind in H.
    destruct H as (tr1 & tr2 & o1 & eng1 & Happ & -> & H).
    apply applied_runs in Happ. destruct Happ as (applied & Happ & ->).
    unfold applyFix in Happ.
    rewrite Htimeout, Hlocator, Hui, Hnetwork, Hcaptcha in Happ.
    cbn in Happ. destruct Happ as [-> Happ]. injection Happ as -> ->.
    cbn [caught success] in H. cbv beta iota in H.
    apply IH in H. exact H.
Qed.

(** For a classification of a kind without a handler ([unknown], a kind
    outside the taxonomy, or none at all) the dispatcher makes no exchange
    with the page, the model or the console and leaves the engine as it
    was.  It returns the record of failure; but it throws a TypeError
    when [suggestedFixes] is missing, cannot be iterated, or has a first
    entry that the log line cannot print. *)
Theorem attemptFix_unhandled_kind_does_nothing
  error analysis context eng tr o eng' :
  handled_kind (Js.field analysis "errorType") = false ->
  runs (attemptFix error analysis context eng) tr (o, eng') ->
  tr = [] /\ eng' = eng
  /\ o = match fixes_of analysis with
         | Some _ => Returned all_fixes_failed
         | None => Thrown TypeError
         end.
Proof.
  intros Hkind H. apply attemptFix_runs in H.
  destruct (fixes_of analysis) as [fixes |].
  - apply try_fixes_unhandled in H; [| exact Hkind]. tauto.
  - tauto.
Qed.

(** A classification of a kind outside the taxonomy. *)
Definition rate_limited (fixes : jsval) : json :=
  JObj (("errorType", JStr "rate_limit")
        :: match fixes with
           | Some l => [("suggestedFixes", l)]
           | None => []
           end).

Lemma attemptFix_unhandled_kind_does_nothing_witness :
  ([] : list (obs engineE)) = [] /\ new_engine = new_engine
  /\ Returned all_fixes_failed
     = match fixes_of (rate_limited
                         (Some (JArr [JStr "slow down"; JStr "retry"]))) with
       | Some _ => Returned all_fixes_failed
       | None => Thrown TypeError
       end.
Proof.
  apply (attemptFix_unhandled_kind_does_nothing click_failed
           (rate_limited (Some (JArr [JStr "slow down"; JStr "retry"])))
           "search" new_engine).
  - reflexivity.
  - cbn. auto.
Defined.

(** Without suggested fixes, and with a first fix that cannot be printed,
    the dispatcher throws. *)
Example attemptFix_throws_on_malformed_fixes :
  fixes_of (rate_limited None) = None
  /\ fixes_of (rate_limited (Some (JArr [JObj [("toString", JNum 0)]])))
     = None
  /\ runs (attemptFix click_failed (rate_limited None) "search" new_engine)
       [] (Thrown TypeError, new_engine).
Proof. cbn. auto. Qed.






End DispatcherMore.

(** ** Probing candidate locators *)

Section Probing.

(** A selector that was probed, with the answer of the page. *)
Definition asked : Type := (json * (bool + error_obj))%type.

(** The exchanges of probing the selectors of [qs] with one timeout. *)
Definition probing (timeout : Z) (qs : list asked) : list (obs engineE) :=
  map (fun q => Obs (locator_isVisible (fst q) timeout) (snd q)) qs.

(** The probe did not report the element visible: it answered [false],
    or it threw. *)
Definition not_visible (q : asked) : Prop := snd q <> inl true.

(** What a search through candidates found: [Some l] after probes that all
    failed but the last, on [l]; [None] after all candidates failed. *)
Definition search_result (candidates : list json) (qs : list asked)
  (r : option json) : Prop :=
  match r with
  | Some l =>
      exists skipped rest,
        qs = skipped ++ [(l, inl true)]
        /\ Forall not_visible skipped
        /\ candidates = map fst skipped ++ l :: rest
  | None => map fst qs = candidates /\ Forall not_visible qs
  end.

Lemma first_visible_runs timeout candidates eng tr o eng' :
  runs (first_visible timeout candidates eng) tr (o, eng') ->
  eng' = eng
  /\ exists qs r,
       tr = probing timeout qs /\ o = Returned r
       /\ search_result candidates qs r.
Proof.
  revert tr. induction candidates as [| l rest IH]; intros tr H.
  - cbn in H. destruct H as [-> H]. injection H as -> ->.
    split; [reflexivity |]. exists [], None. cbn. auto.
  - cbn [first_visible] in H. apply runs_bind in H.
    destruct H as (tr1 & tr2 & o1 & eng1 & Hprobe & -> & H).
    cbn in Hprobe. destruct Hprobe as (x & t & -> & Hprobe).
    assert (Hx : o1 = Returned (match x with inl b => b | inr _ => false end)
                 /\ eng1 = eng /\ t = []).
    { destruct x as [b | err]; cbn in Hprobe; destruct Hprobe as [-> Hp];
        injection Hp as -> ->; auto. }
    destruct Hx as (-> & -> & ->). clear Hprobe. cbv beta iota in H.
    destruct x as [[|] | err].
    + cbn in H. destruct H as [-> H]. injection H as -> ->.
      split; [reflexivity |].
      exists [(l, inl true)], (Some l). cbn.
      repeat split. exists [], rest. cbn. auto.
    + apply IH in H. destruct H as (-> & qs & r & -> & -> & Hr).
      split; [reflexivity |].
      exists ((l, inl false) :: qs), r. repeat split.
      destruct r as [l' |]; cbn in Hr |- *.
      * destruct Hr as (skipped & after & -> & Hsk & ->).
        exists ((l, inl false) :: skipped), after. cbn.
        repeat split. constructor; [discriminate | exact Hsk].
      * destruct Hr as [<- Hall]. split; [reflexivity |].
        constructor; [discriminate | exact Hall].
    + apply IH in H. destruct H as (-> & qs & r & -> & -> & Hr).
      split; [reflexivity |].
      exists ((l, inr err) :: qs), r. repeat split.
      destruct r as [l' |]; cbn in Hr |- *.
      * destruct Hr as (skipped & after & -> & Hsk & ->).
        exists ((l, inr err) :: skipped), after. cbn.
        repeat split. constructor; [discriminate | exact Hsk].
      * destruct Hr as [<- Hall]. split; [reflexivity |].
        constructor; [discriminate | exact Hall].
Qed.

(** The locator resolver: the candidates are probed strictly in list
    order, each with the given timeout; the first one reported visible is
    the result and ends the search; a probe that throws counts as not
    visible; the engine's fields are not touched. *)
Theorem first_visible_in_list_order timeout candidates eng tr o eng' :
  runs (first_visible timeout candidates eng) tr (o, eng') ->
  eng' = eng
  /\ exists qs r,
       tr = probing timeout qs /\ o = Returned r
       /\ search_result candidates qs r.
Proof. exact (first_visible_runs timeout candidates eng tr o eng'). Qed.

Definition two_buttons : list (obs engineE) -> forall X, engineE X -> X :=
  page_env unreachable_model
    (fun l => Js.is_str (Some l) ".apply-btn" || Js.is_str (Some l) "#apply").

Definition resolved :=
  Eval vm_compute in
    run_in two_buttons []
      (first_visible 3000 [JStr "#missing"; JStr ".apply-btn"; JStr "#apply"]
         new_engine).

(** With two candidates visible the earlier one in the list wins, and the
    later one is not probed. *)
Example earlier_candidate_wins :
  fst (snd resolved) = Returned (Some (JStr ".apply-btn"))
  /\ fst resolved
     = probing 3000 [(JStr "#missing", inl false);
                     (JStr ".apply-btn", inl true)].
Proof. split; reflexivity. Qed.

Lemma first_visible_in_list_order_witness :
  snd (snd resolved) = new_engine
  /\ exists qs r,
       fst resolved = probing 3000 qs /\ fst (snd resolved) = Returned r
       /\ search_result [JStr "#missing"; JStr ".apply-btn"; JStr "#apply"]
            qs r.
Proof.
  apply (first_visible_in_list_order 3000
           [JStr "#missing"; JStr ".apply-btn"; JStr "#apply"] new_engine
           (fst resolved) (fst (snd resolved)) (snd (snd resolved))).
  apply (run_in_eq_runs two_buttons _ []). vm_compute. reflexivity.
Defined.

End Probing.

(** ** The locator handler *)

Section LocatorHandler.

(** The hard-coded candidates the handler falls back on for a context. *)
Definition default_candidates (context : string) : list json :=
  (if Str.includes context "login" then loginLocators else [])
  ++ (if Str.includes context "job" || Str.includes context "apply"
      then jobLocators else []).

Lemma search_found_first c1 c2 q1 l :
  search_result c1 q1 (Some l) -> search_result (c1 ++ c2) q1 (Some l).
Proof.
  intros (skipped & rest & -> & Hsk & ->).
  exists skipped, (rest ++ c2). repeat split; [exact Hsk |].
  now rewrite <- app_assoc.
Qed.

Lemma search_found_later c1 c2 q1 q2 r :
  search_result c1 q1 None -> search_result c2 q2 r ->
  search_result (c1 ++ c2) (q1 ++ q2) r.
Proof.
  intros [<- Hq1] H2. destruct r as [l |]; cbn in H2 |- *.
  - destruct H2 as (skipped & rest & -> & Hsk & ->).
    exists (q1 ++ skipped), rest. repeat split.
    + now rewrite app_assoc.
    + apply Forall_app. auto.
    + now rewrite map_app, <- app_assoc.
  - destruct H2 as [<- Hq2]. split; [now rewrite map_app |].
    apply Forall_app. auto.
Qed.

Lemma optional_search (wanted : bool) timeout candidates eng tr o eng' :
  runs ((if wanted then first_visible timeout candidates else ret None) eng)
    tr (o, eng') ->
  eng' = eng
  /\ exists qs r,
       tr = probing timeout qs /\ o = Returned r
       /\ search_result (if wanted then candidates else []) qs r.
Proof.
  destruct wanted.
  - apply first_visible_runs.
  - intros H. cbn in H. destruct H as [-> H]. injection H as -> ->.
    split; [reflexivity |]. exists [], None. cbn. auto.
Qed.

(** What the two stages of the locator handler found: the search through
    the alternative locators, and, only when that found nothing, the
    search through the hard-coded candidates of the context. *)
Definition staged_search (candidates : list json) (context : string)
  (qs5 qs2 : list asked) (r : option json) : Prop :=
  exists alt,
    search_result candidates qs5 alt
    /\ match alt with
       | Some l => qs2 = [] /\ r = Some l
       | None => search_result (default_candidates context) qs2 r
       end.

Lemma staged_search_joined candidates context qs5 qs2 r :
  staged_search candidates context qs5 qs2 r ->
  search_result (candidates ++ default_candidates context) (qs5 ++ qs2) r.
Proof.
  intros ([l |] & H5 & H2).
  - destruct H2 as [-> ->]. rewrite app_nil_r.
    apply search_found_first. exact H5.
  - apply search_found_later; assumption.
Qed.

Lemma fixLocator_runs
  fix_ alternativeLocators candidates context eng tr o eng' :
  Js.iterate alternativeLocators = Some candidates ->
  runs (fixLocator fix_ alternativeLocators context eng) tr (o, eng') ->
  eng' = eng
  /\ exists qs5 qs2 result,
       tr = probing 5000 qs5 ++ probing 2000 qs2
       /\ o = Returned result
       /\ staged_search candidates context qs5 qs2 (newLocator result)
       /\ success result
          = match newLocator result with Some _ => true | None => false end.
Proof.
  intros Hit H. unfold fixLocator in H. rewrite Hit in H.
  apply runs_bind in H.
  destruct H as (tr1 & tr2 & o1 & eng1 & Hdef & -> & H).
  cbn in Hdef. destruct Hdef as [-> Hdef]. injection Hdef as -> ->.
  cbv beta iota in H. apply runs_bind in H.
  destruct H as (tr3 & tr4 & o3 & eng3 & Halt & -> & H).
  apply first_visible_runs in Halt.
  destruct Halt as (-> & qs5 & alt & -> & -> & Hsearch5).
  cbv beta iota in H. cbn [app]. unfold staged_search, default_candidates.
  destruct alt as [l |].
  { cbn in H. destruct H as [-> H]. injection H as -> ->.
    split; [reflexivity |].
    exists qs5, [],
      (found "Alternative locator: " "Found working locator: " l).
    cbn [probing map newLocator found success]. rewrite !app_nil_r.
    split; [reflexivity |]. split; [reflexivity |].
    split; [| reflexivity].
    exists (Some l). auto. }
  apply runs_bind in H.
  destruct H as (tr5 & tr6 & o5 & eng5 & Hlogin & -> & H).
  apply optional_search in Hlogin.
  destruct Hlogin as (-> & qsl & login & -> & -> & Hsearchl).
  cbv beta iota in H.
  destruct login as [l |].
  { cbn in H. destruct H as [-> H]. injection H as -> ->.
    split; [reflexivity |].
    exists qs5, qsl,
      (found "Smart login locator: " "Discovered login element: " l).
    rewrite app_nil_r. cbn [newLocator found success].
    split; [reflexivity |]. split; [reflexivity |].
    split; [| reflexivity].
    exists None. split; [exact Hsearch5 |].
    apply search_found_first. exact Hsearchl. }
  apply runs_bind in H.
  destruct H as (tr7 & tr8 & o7 & eng7 & Hjob & -> & H).
  apply optional_search in Hjob.
  destruct Hjob as (-> & qsj & job & -> & -> & Hsearchj).
  cbv beta iota in H.
  assert (Hsearch : search_result
                      ((if Str.includes context "login"
                        then loginLocators else [])
                       ++ (if Str.includes context "job"
                              || Str.includes context "apply"
                           then jobLocators else []))
                      (qsl ++ qsj) job).
  { apply search_found_later; assumption. }
  destruct job as [l |]; cbn in H; destruct H as [-> H];
    injection H as -> ->; (split; [reflexivity |]).
  - exists qs5, (qsl ++ qsj),
      (found "Smart job locator: " "Discovered job element: " l).
    rewrite app_nil_r. unfold probing. rewrite map_app.
    cbn [newLocator found success].
    split; [reflexivity |]. split; [reflexivity |].
    split; [| reflexivity]. exists None. auto.
  - exists qs5, (qsl ++ qsj),
      {| strategy := Lit "Locator discovery failed";
         success := false;
         newLocator := undefined;
         notes := Lit "No working alternative locators found" |}.
    rewrite app_nil_r. unfold probing. rewrite map_app.
    cbn [newLocator success].
    split; [reflexivity |]. split; [reflexivity |].
    split; [| reflexivity]. exists None. auto.
Qed.

(** The locator handler probes the alternative locators of the
    classification, in their order and with five seconds each, up to the
    first one reported visible; only when none of them is visible does it
    probe the hard-coded candidates of the context, in their order and
    with two seconds each, up to the first one reported visible.  It
    succeeds exactly when it found one, which it returns as the new
    locator; when it fails, every candidate has been probed and none was
    visible.  It does nothing else. *)
Theorem fixLocator_priority_order
  fix_ alternativeLocators candidates context eng tr o eng' :
  Js.iterate alternativeLocators = Some candidates ->
  runs (fixLocator fix_ alternativeLocators context eng) tr (o, eng') ->
  eng' = eng
  /\ exists qs5 qs2 result,
       tr = probing 5000 qs5 ++ probing 2000 qs2
       /\ o = Returned result
       /\ staged_search candidates context qs5 qs2 (newLocator result)
       /\ search_result (candidates ++ default_candidates context)
            (qs5 ++ qs2) (newLocator result)
       /\ success result
          = match newLocator result with Some _ => true | None => false end.
Proof.
  intros Hit H.
  destruct (fixLocator_runs _ _ _ _ _ _ _ _ Hit H)
    as (-> & qs5 & qs2 & result & -> & -> & Hstaged & Hsuccess).
  split; [reflexivity |]. exists qs5, qs2, result.
  split; [reflexivity |]. split; [reflexivity |].
  split; [exact Hstaged |].
  split; [apply staged_search_joined; exact Hstaged | exact Hsuccess].
Qed.

Definition login_moved : list (obs engineE) -> forall X, engineE X -> X :=
  page_env unreachable_model
    (fun l => match l with
              | JStr s => Str.includes s "#passwordField"
              | _ => false
              end).

Definition login_repair :=
  Eval vm_compute in
    run_in login_moved []
      (fixLocator (JStr "try alternative locators")
         (Some (JArr [JStr "#usernameField"; JStr "#emailField"]))
         "login" new_engine).

(** Both alternatives fail, then the first hard-coded login candidate,
    and the second one is found. *)
Example login_repair_probes :
  map fst [ (JStr "#usernameField", 5000); (JStr "#emailField", 5000) ]
  ++ firstn 2 loginLocators
  = keep_probes (fst login_repair)
  /\ match fst (snd login_repair) with
     | Returned result =>
         success result = true
         /\ newLocator result = nth_error loginLocators 1
     | Thrown _ => False
     end.
Proof. vm_compute. auto. Qed.

Lemma fixLocator_priority_order_witness :
  snd (snd login_repair) = new_engine
  /\ exists qs5 qs2 result,
       fst login_repair = probing 5000 qs5 ++ probing 2000 qs2
       /\ fst (snd login_repair) = Returned result
       /\ staged_search [JStr "#usernameField"; JStr "#emailField"] "login"
            qs5 qs2 (newLocator result)
       /\ search_result
            ([JStr "#usernameField"; JStr "#emailField"]
             ++ default_candidates "login")
            (qs5 ++ qs2) (newLocator result)
       /\ success result
          = match newLocator result with Some _ => true | None => false end.
Proof.
  apply (fixLocator_priority_order (JStr "try alternative locators")
           (Some (JArr [JStr "#usernameField"; JStr "#emailField"]))
           [JStr "#usernameField"; JStr "#emailField"] "login" new_engine
           (fst login_repair) (fst (snd login_repair))
           (snd (snd login_repair))).
  - reflexivity.
  - apply (run_in_eq_runs login_moved _ []). vm_compute. reflexivity.
Defined.

End LocatorHandler.

(** ** The error history *)

Section History.

(** [this.errorHistory.get(error) || 0] *)
Definition history_count (error : string) (eng : engine) : Z :=
  match JsMap.get String.eqb error eng.(errorHistory) with
  | Some c => c
  | None => 0
  end.

Lemma get_set_string (k1 k2 : string) (v : Z) m :
  JsMap.get String.eqb k2 (JsMap.set String.eqb k1 v m)
  = if String.eqb k2 k1 then Some v else JsMap.get String.eqb k2 m.
Proof.
  induction m as [| [k' v'] m IH]; cbn.
  - reflexivity.
  - destruct (String.eqb k1 k') eqn:H1; cbn.
    + apply String.eqb_eq in H1. subst k'.
      destruct (String.eqb k2 k1); reflexivity.
    + rewrite IH. destruct (String.eqb k2 k') eqn:H2; [| reflexivity].
      apply String.eqb_eq in H2. subst k'.
      rewrite String.eqb_sym, H1. reflexivity.
Qed.

(** [logError] makes no exchange and does not throw; it adds one to the
    count of the message it is given, leaves the count of every other
    message as it was, and does not touch the cache of fixes. *)
Theorem logError_counts_one_message error eng tr o eng' :
  runs (logError error eng) tr (o, eng') ->
  tr = [] /\ o = Returned tt
  /\ successfulFixes eng' = successfulFixes eng
  /\ forall other,
       history_count other eng'
       = history_count other eng + (if String.eqb other error then 1 else 0).
Proof.
  cbn. intros [-> H]. injection H as -> ->.
  split; [reflexivity |]. split; [reflexivity |]. split; [reflexivity |].
  intros other. unfold history_count, logged. cbn [errorHistory].
  rewrite get_set_string.
  destruct (String.eqb other error) eqn:Ho.
  - apply String.eqb_eq in Ho. subst other. lia.
  - lia.
Qed.

Lemma logError_counts_one_message_witness :
  ([] : list (obs engineE)) = [] /\ Returned tt = Returned tt
  /\ successfulFixes (logged "boom" (logged "boom" new_engine))
     = successfulFixes (logged "boom" new_engine)
  /\ forall other,
       history_count other (logged "boom" (logged "boom" new_engine))
       = history_count other (logged "boom" new_engine)
         + (if String.eqb other "boom" then 1 else 0).
Proof.
  apply (logError_counts_one_message "boom" (logged "boom" new_engine)).
  cbn. auto.
Defined.

End History.

(** ** Selectors taken from a reply *)

Section SelectorFacts.
Import Selectors.

Lemma prefix_of_substring n s :
  String.prefix (String.substring 0 n s) s = true.
Proof.
  revert n. induction s as [| c s IH]; intros [| n]; cbn; auto.
  destruct (ascii_dec c c); [apply IH | contradiction].
Qed.

Lemma includes_prefix s p : String.prefix p s = true -> Str.includes s p = true.
Proof. intros H. destruct s; cbn [Str.includes]; now rewrite H. Qed.

Lemma includes_later c s p :
  Str.includes s p = true -> Str.includes (String c s) p = true.
Proof.
  intros H. cbn [Str.includes]. rewrite H.
  destruct (String.prefix p (String c s)); reflexivity.
Qed.

Lemma match_all_taken_from_text at_start s :
  forall inside,
    Forall (fun sel => Str.includes s sel = true) (match_all at_start inside s).
Proof.
  induction s as [| c s IH]; intros inside; cbn [match_all].
  - constructor.
  - assert (Hstep : forall n,
               Forall (fun sel => Str.includes (String c s) sel = true)
                 (match_all at_start n s)).
    { intros n. eapply Forall_impl; [| apply IH].
      intros sel. apply includes_later. }
    destruct inside as [| n]; [| apply Hstep].
    destruct (at_start (String c s)) as [len |]; [| apply Hstep].
    constructor; [| apply Hstep].
    apply includes_prefix, prefix_of_substring.
Qed.

Lemma dedup_subset xs x : In x (dedup xs) -> In x xs.
Proof.
  induction xs as [| y xs IH]; cbn; [auto |].
  intros [-> | H]; [auto |].
  apply filter_In in H. destruct H as [H _]. auto.
Qed.

Lemma dedup_NoDup xs : NoDup (dedup xs).
Proof.
  induction xs as [| y xs IH]; cbn; constructor.
  - intros H. apply filter_In in H. destruct H as [_ H].
    now rewrite String.eqb_refl in H.
  - now apply NoDup_filter.
Qed.

Lemma firstn_subset {A} n (l : list A) x : In x (firstn n l) -> In x l.
Proof.
  revert n. induction l as [| y l IH]; intros [| n]; cbn; try tauto.
  intros [-> | H]; eauto.
Qed.

Lemma firstn_NoDup {A} n (l : list A) : NoDup l -> NoDup (firstn n l).
Proof.
  intros H. revert n. induction H as [| y l Hy H IH]; intros [| n]; cbn;
    try constructor.
  - intros Hin. apply Hy. eapply firstn_subset. eassumption.
  - apply IH.
Qed.

(** The selectors extracted from a reply are at most five, pairwise
    different, and each occurs literally in the reply. *)
Theorem extracted_selectors_few_distinct_literal (reply : string) :
  (List.length (extractSelectorsFromText reply) <= 5)%nat
  /\ NoDup (extractSelectorsFromText reply)
  /\ Forall (fun sel => Str.includes reply sel = true)
       (extractSelectorsFromText reply).
Proof.
  unfold extractSelectorsFromText. split; [apply firstn_le_length |].
  split; [apply firstn_NoDup, dedup_NoDup |].
  apply Forall_forall. intros sel Hin.
  apply firstn_subset, dedup_subset in Hin.
  repeat (apply in_app_or in Hin; destruct Hin as [Hin | Hin]);
    (eapply Forall_forall in Hin; [exact Hin |]);
    apply match_all_taken_from_text.
Qed.

End SelectorFacts.

(** ** The local job scorer *)

Module LocalScore.
Import JobAnalyzer.









End LocalScore.

(** ** What [analyzeJob] returns *)

Module JobAnalyzerResult.
Import JobAnalyzer.

Lemma lookup_assign_other k k' v fields :
  k <> k' -> Js.lookup k (Js.assign k' v fields) = Js.lookup k fields.
Proof.
  intros Hne. induction fields as [| [k0 v0] rest IH]; cbn.
  - destruct (String.eqb k k') eqn:Hk; [| reflexivity].
    apply String.eqb_eq in Hk. contradiction.
  - destruct (String.eqb k' k0) eqn:H0; cbn.
    + apply String.eqb_eq in H0. subst k0.
      destruct (String.eqb k k') eqn:Hk; [| reflexivity].
      apply String.eqb_eq in Hk. contradiction.
    + now rewrite IH.
Qed.

Definition prompt_of (self : analyzer)
  (jobTitle company jobDescription salary : string) : job_prompt :=
  {| jp_userProfile := self.(userProfile);
     jp_jobTitle := jobTitle;
     jp_company := company;
     jp_salary := salary;
     jp_jobDescription := jobDescription |}.

(** The object of a reply, when the reply is accepted: the text from the
    first opening to the last closing brace of the trimmed reply parses to
    an object whose five fields have their declared types. *)
Definition accepted (response : string) (fields : list (string * json))
  (score : Q) : Prop :=
  exists i j,
    Str.indexOf "{" (Str.trim response) = Some i
    /\ Str.lastIndexOf "}" (Str.trim response) = Some j
    /\ Json.JSON_parse (Str.substring i (S j) (Str.trim response))
       = Some (JObj fields)
    /\ is_boolean (Js.lookup "shouldApply" fields) = true
    /\ Js.lookup "confidenceScore" fields = Some (JNum score)
    /\ is_string (Js.lookup "reasoning" fields) = true
    /\ is_array (Js.lookup "matchedSkills" fields) = true
    /\ is_array (Js.lookup "concerns" fields) = true.

(** [analyzeJob] asks the model once and leaves the analyzer as it was.
    Its result is the local analysis, or the object of an accepted reply
    in which only [confidenceScore] has been replaced, by its value
    brought into 0..100.  When the request itself fails the result is the
    local analysis. *)
Theorem analyzeJob_result
  jobTitle company jobDescription salary self tr o self' :
  runs (analyzeJob jobTitle company jobDescription salary self) tr (o, self')
  ->
  self' = self
  /\ exists answer,
       tr = [Obs (ollama_request
                    (prompt_of self jobTitle company jobDescription salary))
               answer]
       /\ (o = Returned
                 (JobAnalysis_object
                    (localJobAnalysis self jobTitle company jobDescription
                       salary))
           \/ exists response fields score,
                answer = inl response
                /\ accepted response fields score
                /\ o = Returned
                         (JObj (Js.assign "confidenceScore"
                                  (JNum (Math_max 0 (Math_min 100 score)))
                                  fields)))
       /\ (forall e,
              answer = inr e ->
              o = Returned
                    (JobAnalysis_object
                       (localJobAnalysis self jobTitle company
                          jobDescription salary))).
Proof.
  unfold analyzeJob. intros H.
  apply runs_try_catch in H.
  destruct H as (tr1 & tr2 & o1 & s1 & Hask & -> & Hrest).
  unfold ask_model in Hask. cbn in Hask.
  destruct Hask as (answer & tr' & -> & Hask).
  fold (prompt_of self jobTitle company jobDescription salary).
  assert (Hthrown : forall t,
             tr' = [] -> (o1, s1) = (Thrown t, self) ->
             self' = self /\ tr' = [] /\ tr2 = []
             /\ o = Returned
                      (JobAnalysis_object
                         (localJobAnalysis self jobTitle company
                            jobDescription salary))).
  { intros t Htr Hos. injection Hos as -> ->.
    cbn in Hrest. destruct Hrest as [-> Hr]. injection Hr as -> ->. auto. }
  destruct answer as [response | err]; cbn in Hask.
  2:{ destruct Hask as [Htr Hask].
      destruct (Hthrown _ Htr Hask) as (-> & -> & -> & ->).
      split; [reflexivity |]. exists (inr err). cbn. auto. }
  assert (Hdone : forall t,
             tr' = [] -> (o1, s1) = (Thrown t, self) ->
             self' = self
             /\ exists answer,
                  (Obs (ollama_request
                          (prompt_of self jobTitle company jobDescription
                             salary)) (inl response) :: tr') ++ tr2
                  = [Obs (ollama_request
                            (prompt_of self jobTitle company jobDescription
                               salary)) answer]
                  /\ (o = Returned
                            (JobAnalysis_object
                               (localJobAnalysis self jobTitle company
                                  jobDescription salary))
                      \/ exists response0 fields score,
                           answer = inl response0
                           /\ accepted response0 fields score
                           /\ o = Returned
                                    (JObj (Js.assign "confidenceScore"
                                             (JNum (Math_max 0
                                                      (Math_min 100 score)))
                                             fields)))
                  /\ (forall e,
                         answer = inr e ->
                         o = Returned
                               (JobAnalysis_object
                                  (localJobAnalysis self jobTitle company
                                     jobDescription salary)))).
  { intros t Htr Hos.
    destruct (Hthrown t Htr Hos) as (-> & -> & -> & ->).
    split; [reflexivity |]. exists (inl response). cbn.
    split; [reflexivity |]. split; [auto | discriminate]. }
  clear Hthrown.
  destruct (Str.indexOf "{" (Str.trim response)) as [i |] eqn:Hi;
    [| cbn in Hask; destruct Hask as [Htr Hask]; eapply Hdone; eauto].
  destruct (Str.lastIndexOf "}" (Str.trim response)) as [j |] eqn:Hj;
    [| cbn in Hask; destruct Hask as [Htr Hask]; eapply Hdone; eauto].
  apply runs_bind in Hask.
  destruct Hask as (t1 & t2 & o2 & s2 & Hparse & Htr' & Hvalid).
  destruct (Json.JSON_parse _) as [v |] eqn:Hv; cbn in Hparse;
    destruct Hparse as [-> Hp]; inversion Hp; subst o2 s2; clear Hp;
    cbn [app] in Htr';
    [| destruct Hvalid as [-> Hvalid]; eapply Hdone; eauto].
  apply runs_bind in Hvalid.
  destruct Hvalid as (t3 & t4 & o3 & s3 & Hnull & -> & Hvalid).
  destruct v as [| b | q | s | items | fields]; cbn in Hnull;
    destruct Hnull as [-> Hn]; inversion Hn; subst o3 s3; clear Hn;
    cbn [app] in Htr'; cbn in Hvalid;
    try (destruct Hvalid as [-> Hvalid]; eapply Hdone; eauto; fail).
  destruct (Js.lookup "shouldApply" fields) as [[| | | | |] |] eqn:H1;
    cbn in Hvalid;
    try (destruct Hvalid as [-> Hvalid]; eapply Hdone; eauto; fail).
  destruct (Js.lookup "confidenceScore" fields) as [[| | q | | |] |] eqn:H2;
    cbn in Hvalid;
    try (destruct Hvalid as [-> Hvalid]; eapply Hdone; eauto; fail).
  destruct (Js.lookup "reasoning" fields) as [[| | | | |] |] eqn:H3;
    cbn in Hvalid;
    try (destruct Hvalid as [-> Hvalid]; eapply Hdone; eauto; fail).
  destruct (Js.lookup "matchedSkills" fields) as [[| | | | |] |] eqn:H4;
    cbn in Hvalid;
    try (destruct Hvalid as [-> Hvalid]; eapply Hdone; eauto; fail).
  destruct (Js.lookup "concerns" fields) as [[| | | | |] |] eqn:H5;
    cbn in Hvalid;
    try (destruct Hvalid as [-> Hvalid]; eapply Hdone; eauto; fail).
  destruct Hvalid as [-> Hres]. injection Hres as -> ->.
  destruct Hrest as [-> Hrest]. injection Hrest as -> ->.
  subst tr'.
  split; [reflexivity |]. exists (inl response). cbn.
  split; [reflexivity |]. split; [| discriminate].
  right. exists response, fields, q. split; [reflexivity |].
  split; [| reflexivity].
  exists i, j. rewrite Hv, H1, H2, H3, H4, H5. cbn. auto 10.
Qed.

Lemma analyzeJob_result_witness :
  snd (snd JobAnalyzerFacts.eager_run) = JobAnalyzerFacts.tester
  /\ exists answer,
       fst JobAnalyzerFacts.eager_run
       = [Obs (ollama_request
                 (prompt_of JobAnalyzerFacts.tester "Senior SDET" "Acme"
                    "selenium automation" "20 LPA"))
            answer]
       /\ (fst (snd JobAnalyzerFacts.eager_run)
           = Returned
               (JobAnalysis_object
                  (localJobAnalysis JobAnalyzerFacts.tester "Senior SDET"
                     "Acme" "selenium automation" "20 LPA"))
           \/ exists response fields score,
                answer = inl response
                /\ accepted response fields score
                /\ fst (snd JobAnalyzerFacts.eager_run)
                   = Returned
                       (JObj (Js.assign "confidenceScore"
                                (JNum (Math_max 0 (Math_min 100 score)))
                                fields)))
       /\ (forall e,
              answer = inr e ->
              fst (snd JobAnalyzerFacts.eager_run)
              = Returned
                  (JobAnalysis_object
                     (localJobAnalysis JobAnalyzerFacts.tester "Senior SDET"
                        "Acme" "selenium automation" "20 LPA"))).
Proof.
  apply (analyzeJob_result "Senior SDET" "Acme" "selenium automation"
           "20 LPA" JobAnalyzerFacts.tester
           (fst JobAnalyzerFacts.eager_run)
           (fst (snd JobAnalyzerFacts.eager_run))
           (snd (snd JobAnalyzerFacts.eager_run))).
  apply (run_in_eq_runs JobAnalyzerFacts.eager_model _ []).
  vm_compute. reflexivity.
Defined.

End JobAnalyzerResult.

(* ================================================================== *)
(** * The keyword filters of the bot *)
(* ================================================================== *)

Module JobFilters.

(** The parts of the credentials the filters read. *)
Record preferences : Type := {
  skills : list string;            (* [userProfile.skills] *)
  keywords : list string;          (* [jobPreferences.keywords] *)
  excludeCompanies : list string;  (* [jobPreferences.excludeCompanies] *)
  excludeKeywords : list string    (* [jobPreferences.excludeKeywords] *)
}.

Section Folding.

(** [String.prototype.toLowerCase].  It folds every cased letter of
    Unicode, which the byte-string folding [Str.toLowerCase] does on ASCII
    text only; the fallback analysis is defined for whichever folding it
    is given. *)
Variable toLowerCase : string -> string.

(** [terms.map(term => term.toLowerCase()).some(term =>
    text.includes(term))] *)
Definition some_occurs (text : string) (terms : list string) : bool :=
  existsb (fun term => Str.includes text term) (map toLowerCase terms).

Definition fallbackJobAnalysis (self : preferences)
  (jobTitle jobDescription : string) : bool :=
  let text := toLowerCase (jobTitle ++ " " ++ jobDescription)%string in
  let hasExcludedTerms := some_occurs text self.(excludeKeywords) in
  if hasExcludedTerms then false
  else
    let hasMatchingSkills := some_occurs text self.(skills) in
    let hasMatchingKeywords := some_occurs text self.(keywords) in
    hasMatchingSkills || hasMatchingKeywords.

End Folding.

Definition upper_char (c : ascii) : ascii :=
  if Str.is_lower c then ascii_of_nat (nat_of_ascii c - 32) else c.

(** [s.toUpperCase()] *)
Fixpoint toUpperCase (s : string) : string :=
  match s with
  | EmptyString => EmptyString
  | String c s' => String (upper_char c) (toUpperCase s')
  end.

(** What the exclusion prompt interpolates. *)
Record exclusion_prompt : Type := {
  xp_company : string;
  xp_jobTitle : string;
  xp_excluded : list string
}.

(** [this.llmAnalyzer.analyzeExclusion(prompt)], a call to the analyzer
    object, answered with its text or failing. *)
Inductive filterE : Type -> Type :=
| analyzeExclusion (p : exclusion_prompt) : filterE (string + error_obj).

Record verdict : Type := {
  excluded : bool;
  reason : string
}.

(** The first term of the list whose lower-case form occurs in the text. *)
Fixpoint first_occurring (text : string) (terms : list string)
  : option string :=
  match terms with
  | [] => None
  | term :: rest =>
      if Str.includes text (Str.toLowerCase term) then Some term
      else first_occurring text rest
  end.

Definition quoted (s : string) : string := (Str.dq ++ s ++ Str.dq)%string.

Definition isJobExcluded (self : preferences)
  (jobTitle company jobDescription : string) : M filterE unit verdict :=
  try_catch
    (let jobText :=
       Str.toLowerCase
         (jobTitle ++ " " ++ company ++ " " ++ jobDescription)%string in
     match first_occurring jobText self.(excludeKeywords) with
     | Some keyword =>
         ret {| excluded := true;
                reason := ("Contains excluded keyword: "
                           ++ quoted keyword)%string |}
     | None =>
         if (0 <? List.length self.(excludeCompanies))%nat then
           llmResponse <- await (analyzeExclusion
                                   {| xp_company := company;
                                      xp_jobTitle := jobTitle;
                                      xp_excluded :=
                                        self.(excludeCompanies) |}) ;;
           if String.prefix "EXCLUDE:" (toUpperCase llmResponse) then
             let why :=
               Str.trim (String.substring 8 (String.length llmResponse - 8)
                           llmResponse) in
             ret {| excluded := true;
                    reason := ("LLM exclusion: " ++ why)%string |}
           else ret {| excluded := false; reason := "Not excluded" |}
         else ret {| excluded := false; reason := "Not excluded" |}
     end)
    (fun error =>
       let companyLower := Str.toLowerCase company in
       let jobTextLower :=
         Str.toLowerCase (jobTitle ++ " " ++ jobDescription)%string in
       match first_occurring companyLower self.(excludeCompanies) with
       | Some excludedCompany =>
           ret {| excluded := true;
                  reason := ("Company matches excluded pattern: "
                             ++ quoted excludedCompany)%string |}
       | None =>
           match first_occurring jobTextLower self.(excludeKeywords) with
           | Some keyword =>
               ret {| excluded := true;
                      reason := ("Contains excluded keyword: "
                                 ++ quoted keyword)%string |}
           | None =>
               ret {| excluded := false;
                      reason := "Not excluded (fallback check)" |}
           end
       end).

(** *** Facts *)

Lemma some_occurs_intro toLowerCase text terms term :
  In term terms -> Str.includes text (toLowerCase term) = true ->
  some_occurs toLowerCase text terms = true.
Proof.
  intros Hin Hocc. unfold some_occurs. apply existsb_exists.
  exists (toLowerCase term). split; [| exact Hocc].
  apply in_map. exact Hin.
Qed.

(** An exclude keyword whose lower-case form occurs in the lower-case
    form of the title and the description, joined by a space, vetoes the
    job: the fallback analysis says not to apply, whatever skills and
    keywords match.  This holds for every lower-casing function. *)
Theorem excluded_term_vetoes
  (toLowerCase : string -> string) self jobTitle jobDescription term :
  In term self.(excludeKeywords) ->
  Str.includes (toLowerCase (jobTitle ++ " " ++ jobDescription)%string)
    (toLowerCase term) = true ->
  fallbackJobAnalysis toLowerCase self jobTitle jobDescription = false.
Proof.
  intros Hin Hocc. unfold fallbackJobAnalysis. cbv zeta.
  rewrite (some_occurs_intro _ _ _ term Hin Hocc). reflexivity.
Qed.

Definition picky : preferences :=
  {| skills := ["Selenium"; "Playwright"];
     keywords := ["automation"];
     excludeCompanies := [];
     excludeKeywords := ["Unpaid"] |}.

Lemma excluded_term_vetoes_witness :
  fallbackJobAnalysis Str.toLowerCase picky "Selenium automation engineer"
    "UNPAID trial period" = false.
Proof.
  apply (excluded_term_vetoes Str.toLowerCase picky
           "Selenium automation engineer" "UNPAID trial period" "Unpaid").
  - cbn. auto.
  - reflexivity.
Defined.

(** Without a veto, the fallback analysis says to apply exactly when one
    of the user's skills or one of the search keywords occurs. *)
Example picky_applies_without_veto :
  fallbackJobAnalysis Str.toLowerCase picky "Selenium automation engineer"
    "paid" = true
  /\ fallbackJobAnalysis Str.toLowerCase picky "Accountant" "ledgers"
     = false.
Proof. split; reflexivity. Qed.




(** [isJobExcluded] does not throw, whatever the analyzer answers and when
    its call fails; it consults the analyzer at most once, and not at all
    when no company is to be excluded. *)
Theorem isJobExcluded_returns self jobTitle company jobDescription tr o u :
  runs (isJobExcluded self jobTitle company jobDescription tt) tr (o, u) ->
  (exists v, o = Returned v)
  /\ (List.length tr <= 1)%nat
  /\ (self.(excludeCompanies) = [] -> tr = []).
Proof.
  unfold isJobExcluded. intros H. apply runs_try_catch in H.
  destruct H as (tr1 & tr2 & o1 & u1 & Htry & -> & H).
  assert (Hcatch : forall t,
             o1 = Thrown t ->
             tr2 = [] /\ exists v, o = Returned v).
  { intros t ->. cbv zeta in H.
    destruct (first_occurring (Str.toLowerCase company) _);
      [cbn in H; destruct H as [-> H]; injection H as -> _; eauto |].
    destruct (first_occurring _ (excludeKeywords self));
      cbn in H; destruct H as [-> H]; injection H as -> _; eauto. }
  cbv zeta in Htry.
  destruct (first_occurring _ (excludeKeywords self)).
  { cbn in Htry. destruct Htry as [-> Htry]. injection Htry as -> ->.
    destruct H as [-> H]. injection H as -> _. cbn. eauto. }
  destruct (excludeCompanies self) as [| c0 cs] eqn:Hcs.
  { cbn in Htry. destruct Htry as [-> Htry]. injection Htry as -> ->.
    destruct H as [-> H]. injection H as -> _. cbn. eauto. }
  cbn [List.length Nat.ltb Nat.leb] in Htry. apply runs_bind in Htry.
  destruct Htry as (t1 & t2 & o2 & u2 & Hcall & -> & Htry).
  cbn in Hcall. destruct Hcall as (answer & t3 & -> & Hcall).
  destruct answer as [llmResponse | err]; cbn in Hcall;
    destruct Hcall as [-> Hcall]; injection Hcall as -> ->.
  - cbv beta iota in Htry.
    destruct (String.prefix "EXCLUDE:" (toUpperCase llmResponse));
      cbn in Htry; destruct Htry as [-> Htry]; injection Htry as -> ->;
      destruct H as [-> H]; injection H as -> _; cbn;
      (split; [eauto | split; [lia | discriminate]]).
  - destruct Htry as [-> Htry]. injection Htry as -> ->.
    destruct (Hcatch _ eq_refl) as (-> & v & ->). cbn.
    split; [eauto | split; [lia | discriminate]].
Qed.

Definition wary : preferences :=
  {| skills := ["selenium"];
     keywords := [];
     excludeCompanies := ["iris"];
     excludeKeywords := [] |}.

Definition analyzer_down : env filterE :=
  fun _ X e =>
    match e in filterE X return X with
    | analyzeExclusion _ =>
        inr {| message := "analyzer unavailable"; stack := None |}
    end.

Definition checked_offline :=
  Eval vm_compute in
    run_in analyzer_down []
      (isJobExcluded wary "SDET" "Iris Software Pvt Ltd" "selenium" tt).

(** With the analyzer failing, the plain substring match on the company
    name decides. *)
Example company_matched_in_fallback :
  fst (snd checked_offline)
  = Returned {| excluded := true;
                reason := ("Company matches excluded pattern: "
                           ++ quoted "iris")%string |}.
Proof. reflexivity. Qed.

Lemma isJobExcluded_returns_witness :
  (exists v, fst (snd checked_offline) = Returned v)
  /\ (List.length (fst checked_offline) <= 1)%nat
  /\ (wary.(excludeCompanies) = [] -> fst checked_offline = []).
Proof.
  apply (isJobExcluded_returns wary "SDET" "Iris Software Pvt Ltd" "selenium"
           (fst checked_offline) (fst (snd checked_offline))
           (snd (snd checked_offline))).
  apply (run_in_eq_runs analyzer_down _ []). vm_compute. reflexivity.
Defined.

End JobFilters.

(** ** Scripted sessions for the bookkeeping of the executor *)

Module BookkeepingScenarios.
Import Scenarios.

Definition negative_bound :=
  Eval vm_compute in
    run_in (scripted (T := string) [inl "applied"%string] (inr slow)
              offline_page) []
      (executeWithErrorRecovery "login" (Some (-1)) fresh_bot).

Lemma nonpositive_bound_throws_without_a_call_witness :
  fst negative_bound = []
  /\ fst (snd negative_bound)
     = Thrown (MaxRetriesError (retries_of (Some (-1)) fresh_bot) "login")
  /\ snd (snd negative_bound) = fresh_bot.
Proof.
  apply (nonpositive_bound_throws_without_a_call "login" (Some (-1))
           fresh_bot (fst negative_bound) (fst (snd negative_bound))
           (snd (snd negative_bound))).
  - vm_compute. discriminate.
  - apply (run_in_eq_runs
             (scripted [inl "applied"%string] (inr slow) offline_page) _ []).
    vm_compute. reflexivity.
Defined.



(** A reply whose [errorType] is an object with an own [toString]. *)
Definition unprintable_reply : string :=
  ("{" ++ Str.dq ++ "errorType" ++ Str.dq ++ ": {" ++ Str.dq ++ "toString"
   ++ Str.dq ++ ": 0}}")%string.

Definition unprintable_kind :=
  Eval vm_compute in
    run_in (scripted (T := string) [inr slow] (inr slow)
              (page_env (fun _ => inl unprintable_reply) (fun _ => false) []))
      []
      (executeWithErrorRecovery "login" (Some 1) fresh_bot).

(** The failure is counted in [totalErrors] and under no kind, and the
    run ends in the TypeError of the log line. *)
Example unprintable_kind_is_not_counted :
  fst (snd unprintable_kind) = Thrown TypeError
  /\ totalErrors (snd (snd unprintable_kind)) = 1
  /\ errorTypes (snd (snd unprintable_kind)) = [].
Proof. vm_compute. auto. Qed.

(** A bot whose browser has not been started. *)
Definition cold_bot : bot :=
  {| totalErrors := 0;
     fixedErrors := 0;
     errorTypes := [];
     errorAnalyzer := None;
     maxRetryAttempts := 3 |}.

Definition cold_failure :=
  Eval vm_compute in
    run_in (scripted (T := string) [inr slow; inl "applied"%string]
              (inr slow) offline_page) []
      (executeWithErrorRecovery "login" None cold_bot).

Lemma failure_without_analyzer_is_rethrown_witness :
  (exists v,
      fst cold_failure = [Obs operation (inl v)]
      /\ fst (snd cold_failure) = Returned (Some v)
      /\ snd (snd cold_failure) = cold_bot)
  \/ (exists err,
        fst cold_failure = [Obs operation (inr err)]
        /\ fst (snd cold_failure) = Thrown (Raised err)
        /\ snd (snd cold_failure) = after_failure cold_bot).
Proof.
  apply (failure_without_analyzer_is_rethrown "login" None cold_bot
           (fst cold_failure) (fst (snd cold_failure))
           (snd (snd cold_failure))).
  - reflexivity.
  - vm_compute. discriminate.
  - apply (run_in_eq_runs
             (scripted [inr slow; inl "applied"%string] (inr slow)
                offline_page) _ []).
    vm_compute. reflexivity.
Defined.

End BookkeepingScenarios.

(** ** The timeout handler *)

Section TimeoutHandler.

(** The page action the timeout handler takes for a suggestion: the first
    of its three phrases that the suggestion contains decides. *)
Inductive timeout_action : Type :=
| ExtraDelay      (* [waitForTimeout(5000)] *)
| WaitForDom      (* [waitForLoadState('domcontentloaded', 60 s)] *)
| ReloadPage      (* [reload({ waitUntil: 'networkidle' })] *)
| NoAction.

Definition action_for (suggestion : string) : timeout_action :=
  if Str.includes suggestion "increase timeout" then ExtraDelay
  else if Str.includes suggestion "wait for load" then WaitForDom
  else if Str.includes suggestion "retry navigation" then ReloadPage
  else NoAction.

Definition exchange_of (a : timeout_action) (answer : unit + error_obj)
  : list (obs engineE) :=
  match a with
  | ExtraDelay => [Obs (page_waitForTimeout 5000) answer]
  | WaitForDom =>
      [Obs (page_waitForLoadState "domcontentloaded" 60000) answer]
  | ReloadPage => [Obs (page_reload "networkidle" None) answer]
  | NoAction => []
  end.

(** For a suggestion that is a string, the timeout handler takes at most
    one page action, the one its first matching phrase selects.  When the
    action completes it reports success; when the action fails its error
    is thrown; without a matching phrase nothing is done and failure is
    reported.  The engine's fields are not touched. *)
Theorem fixTimeout_single_action suggestion context eng tr o eng' :
  runs (fixTimeout (JStr suggestion) context eng) tr (o, eng') ->
  eng' = eng
  /\ match action_for suggestion with
     | NoAction =>
         tr = []
         /\ exists result, o = Returned result /\ success result = false
     | action =>
         exists answer,
           tr = exchange_of action answer
           /\ match answer with
              | inl _ =>
                  exists result, o = Returned result /\ success result = true
              | inr err => o = Thrown (Raised err)
              end
     end.
Proof.
  unfold fixTimeout, includes_lit, action_for. cbn [Js.includes defined].
  intros H. apply runs_bind in H.
  destruct H as (t1 & t2 & o1 & e1 & H1 & -> & H).
  cbn in H1. destruct H1 as [-> H1]. injection H1 as -> ->.
  cbv beta iota in H.
  destruct (Str.includes suggestion "increase timeout").
  { cbn in H. destruct H as ([[] | err] & t & -> & H); cbn in H;
      destruct H as [-> H]; injection H as -> ->;
      (split; [reflexivity |]); eexists; (split; [reflexivity |]);
      cbn; eauto. }
  apply runs_bind in H.
  destruct H as (t3 & t4 & o3 & e3 & H3 & -> & H).
  cbn in H3. destruct H3 as [-> H3]. injection H3 as -> ->.
  cbv beta iota in H.
  destruct (Str.includes suggestion "wait for load").
  { cbn in H. destruct H as ([[] | err] & t & -> & H); cbn in H;
      destruct H as [-> H]; injection H as -> ->;
      (split; [reflexivity |]); eexists; (split; [reflexivity |]);
      cbn; eauto. }
  apply runs_bind in H.
  destruct H as (t5 & t6 & o5 & e5 & H5 & -> & H).
  cbn in H5. destruct H5 as [-> H5]. injection H5 as -> ->.
  cbv beta iota in H.
  destruct (Str.includes suggestion "retry navigation").
  { cbn in H. destruct H as ([[] | err] & t & -> & H); cbn in H;
      destruct H as [-> H]; injection H as -> ->;
      (split; [reflexivity |]); eexists; (split; [reflexivity |]);
      cbn; eauto. }
  cbn in H. destruct H as [-> H]. injection H as -> ->.
  split; [reflexivity |]. split; [reflexivity |]. eexists.
  split; reflexivity.
Qed.

Lemma fixTimeout_single_action_witness :
  new_engine = new_engine
  /\ match action_for "increase timeout, then wait for load" with
     | NoAction =>
         [Obs (page_waitForTimeout 5000) (inl tt)] = []
         /\ exists result,
              Returned {| strategy := Lit "Increased timeout";
                          success := true;
                          newLocator := undefined;
                          notes := Lit "Added 5 second delay" |}
              = Returned result
              /\ success result = false
     | action =>
         exists answer,
           [Obs (page_waitForTimeout 5000) (inl tt)]
           = exchange_of action answer
           /\ match answer with
              | inl _ =>
                  exists result,
                    Returned {| strategy := Lit "Increased timeout";
                                success := true;
                                newLocator := undefined;
                                notes := Lit "Added 5 second delay" |}
                    = Returned result
                    /\ success result = true
              | inr err =>
                  Returned {| strategy := Lit "Increased timeout";
                              success := true;
                              newLocator := undefined;
                              notes := Lit "Added 5 second delay" |}
                  = Thrown (Raised err)
              end
     end.
Proof.
  apply (fixTimeout_single_action "increase timeout, then wait for load"
           "login" new_engine).
  cbn. exists (inl tt), []. cbn. auto.
Defined.

End TimeoutHandler.

(** ** The cost of repairing a locator *)

Section LocatorBudget.





(** A page on which nothing is visible, with the model out of reach. *)
Definition blank_page : list (obs engineE) -> forall X, engineE X -> X :=
  page_env unreachable_model (fun _ => false).

(** The offline classification of a failed click on the login form. *)
Definition login_click_analysis : json :=
  ErrorAnalysis_object
    (fallbackErrorAnalysis click_failed.(message) "login").

Definition exhausted_repair :=
  Eval vm_compute in
    run_in blank_page []
      (attemptFix click_failed login_click_analysis "login" new_engine).

(** Three suggested fixes, four alternative locators and three hard-coded
    login candidates: twenty-one probes before the repair gives up. *)
Example exhausted_repair_probes :
  List.length (keep_probes (fst exhausted_repair)) = 21%nat
  /\ keep_probes (fst exhausted_repair)
     = let search :=
         map JStr (getContextBasedLocators "login") ++ loginLocators in
       search ++ search ++ search.
Proof. vm_compute. auto. Qed.


End LocatorBudget.

(** ** The handler for a changed page *)

Section UiChangeHandler.
Import Selectors.

(** The first three exchanges of the handler: the screenshot, the URL and
    the title of the page. *)
Definition page_survey (url title : string) : list (obs engineE) :=
  [ Obs page_screenshot (inl tt); Obs page_url url;
    Obs page_title (inl title) ].

(** The handler for a changed page throws only when the screenshot or the
    title cannot be taken.  Otherwise it asks the model once, with the
    context, the URL and the title; it probes the selectors extracted from
    the reply in order, three seconds each, and succeeds exactly when one
    is reported visible, which it returns as the new locator.  A failure
    of the model is absorbed: nothing is probed and failure is reported.
    The engine's fields are not touched. *)
Theorem fixUIChange_probes_extracted_selectors
  fix_ context eng tr o eng' :
  runs (fixUIChange fix_ context eng) tr (o, eng') ->
  eng' = eng
  /\ ((exists err,
          o = Thrown (Raised err)
          /\ (tr = [Obs page_screenshot (inr err)]
              \/ exists url,
                   tr = [ Obs page_screenshot (inl tt); Obs page_url url;
                          Obs page_title (inr err) ]))
      \/ exists url title answer qs result,
           tr = page_survey url title
                ++ Obs (llm_chat (UiAnalysisPrompt context url title)) answer
                   :: probing 3000 qs
           /\ o = Returned result
           /\ success result
              = match newLocator result with
                | Some _ => true
                | None => false
                end
           /\ match answer with
              | inl reply =>
                  search_result (map JStr (extractSelectorsFromText reply))
                    qs (newLocator result)
              | inr _ => qs = [] /\ newLocator result = None
              end).
Proof.
  unfold fixUIChange. intros H. apply runs_bind in H.
  destruct H as (tr1 & tr2 & o1 & eng1 & Hshot & -> & H).
  cbn in Hshot. destruct Hshot as ([[] | err] & t & -> & Hshot);
    cbn in Hshot; destruct Hshot as [-> Hshot]; injection Hshot as -> ->.
  2: { cbn in H. destruct H as [-> H]. injection H as -> ->.
       split; [reflexivity |]. left. exists err. cbn. auto. }
  cbv beta iota in H. apply runs_bind in H.
  destruct H as (tr3 & tr4 & o3 & eng3 & Hurl & -> & H).
  cbn in Hurl. destruct Hurl as (url & t & -> & -> & Hurl).
  injection Hurl as -> ->.
  cbv beta iota in H. apply runs_bind in H.
  destruct H as (tr5 & tr6 & o5 & eng5 & Htitle & -> & H).
  cbn in Htitle. destruct Htitle as ([title | err] & t & -> & Htitle);
    cbn in Htitle; destruct Htitle as [-> Htitle];
    injection Htitle as -> ->.
  2: { cbn in H. destruct H as [-> H]. injection H as -> ->.
       split; [reflexivity |]. left. exists err. split; [reflexivity |].
       right. exists url. reflexivity. }
  cbv beta iota in H. apply runs_bind in H.
  destruct H as (tr7 & tr8 & o7 & eng7 & Hask & -> & H).
  apply runs_try_catch in Hask.
  destruct Hask as (tr9 & tr10 & o9 & eng9 & Hask & -> & Hcatch).
  apply runs_bind in Hask.
  destruct Hask as (tr11 & tr12 & o11 & eng11 & Hchat & -> & Hsearch).
  cbn in Hchat. destruct Hchat as ([reply | err] & t & -> & Hchat);
    cbn in Hchat; destruct Hchat as [-> Hchat]; injection Hchat as -> ->.
  - cbv beta iota zeta in Hsearch. apply first_visible_runs in Hsearch.
    destruct Hsearch as (-> & qs & r & -> & -> & Hr).
    cbn in Hcatch. destruct Hcatch as [-> Hcatch].
    injection Hcatch as -> ->. cbv beta iota in H.
    split; [destruct r; cbn in H; destruct H as [_ H]; congruence |].
    right. exists url, title, (inl reply), qs.
    destruct r as [l |]; cbn in H; destruct H as [-> H];
      injection H as -> _; eexists; cbn [app page_survey];
      rewrite ?app_nil_r;
      (split; [reflexivity |]); (split; [reflexivity |]);
      (split; [reflexivity | exact Hr]).
  - cbn in Hsearch. destruct Hsearch as [-> Hsearch].
    injection Hsearch as -> ->.
    cbn in Hcatch. destruct Hcatch as [-> Hcatch].
    injection Hcatch as -> ->. cbn in H. destruct H as [-> H].
    injection H as -> ->.
    split; [reflexivity |].
    right. exists url, title, (inr err), []. eexists. cbn.
    repeat split.
Qed.

(** A page whose submit button moved to [#submit-v2], and a model that
    proposes two selectors for it. *)
Definition advising_model (p : prompt) : string + error_obj :=
  inl "Try #submit-new first, then #submit-v2."%string.

Definition moved_button : list (obs engineE) -> forall X, engineE X -> X :=
  page_env advising_model (fun l => Js.is_str (Some l) "#submit-v2").

Definition adaptation :=
  Eval vm_compute in
    run_in moved_button []
      (fixUIChange (JStr "adapt to the new page") "submit_form" new_engine).

(** The first proposal is probed and fails, the second is adopted. *)
Example adaptation_adopts_second_proposal :
  keep_probes (fst adaptation) = [JStr "#submit-new"; JStr "#submit-v2"]
  /\ match fst (snd adaptation) with
     | Returned result => newLocator result = Some (JStr "#submit-v2")
     | Thrown _ => False
     end.
Proof. vm_compute. auto. Qed.

Lemma fixUIChange_probes_extracted_selectors_witness :
  snd (snd adaptation) = new_engine
  /\ ((exists err,
          fst (snd adaptation) = Thrown (Raised err)
          /\ (fst adaptation = [Obs page_screenshot (inr err)]
              \/ exists url,
                   fst adaptation
                   = [ Obs page_screenshot (inl tt); Obs page_url url;
                       Obs page_title (inr err) ]))
      \/ exists url title answer qs result,
           fst adaptation
           = page_survey url title
             ++ Obs (llm_chat (UiAnalysisPrompt "submit_form" url title))
                  answer
                :: probing 3000 qs
           /\ fst (snd adaptation) = Returned result
           /\ success result
              = match newLocator result with
                | Some _ => true
                | None => false
                end
           /\ match answer with
              | inl reply =>
                  search_result (map JStr (extractSelectorsFromText reply))
                    qs (newLocator result)
              | inr _ => qs = [] /\ newLocator result = None
              end).
Proof.
  apply (fixUIChange_probes_extracted_selectors
           (JStr "adapt to the new page") "submit_form" new_engine
           (fst adaptation) (fst (snd adaptation)) (snd (snd adaptation))).
  apply (run_in_eq_runs moved_button _ []). vm_compute. reflexivity.
Defined.

End UiChangeHandler.

(** ** The network handler *)

Section NetworkHandler.

(** For a suggestion that is a string containing [retry], the network
    handler waits five seconds and then reloads the page; the reload is
    not started when the wait fails.  It reports success exactly when both
    steps completed and throws the error of the step that failed.  For a
    suggestion without [retry] it does nothing and reports failure.  The
    engine's fields are not touched. *)
Theorem fixNetworkIssue_waits_then_reloads suggestion eng tr o eng' :
  runs (fixNetworkIssue (JStr suggestion) eng) tr (o, eng') ->
  eng' = eng
  /\ if Str.includes suggestion "retry" then
       (exists err,
           tr = [Obs (page_waitForTimeout 5000) (inr err)]
           /\ o = Thrown (Raised err))
       \/ (exists err,
              tr = [ Obs (page_waitForTimeout 5000) (inl tt);
                     Obs (page_reload "networkidle" (Some 60000)) (inr err) ]
              /\ o = Thrown (Raised err))
       \/ (tr = [ Obs (page_waitForTimeout 5000) (inl tt);
                  Obs (page_reload "networkidle" (Some 60000)) (inl tt) ]
           /\ exists result, o = Returned result /\ success result = true)
     else
       tr = [] /\ exists result, o = Returned result /\ success result = false.
Proof.
  unfold fixNetworkIssue, includes_lit. cbn [Js.includes defined].
  intros H. apply runs_bind in H.
  destruct H as (t1 & t2 & o1 & e1 & H1 & -> & H).
  cbn in H1. destruct H1 as [-> H1]. injection H1 as -> ->.
  cbv beta iota in H.
  destruct (Str.includes suggestion "retry").
  - apply runs_bind in H.
    destruct H as (t3 & t4 & o3 & e3 & Hwait & -> & H).
    cbn in Hwait. destruct Hwait as ([[] | err] & t & -> & Hwait);
      cbn in Hwait; destruct Hwait as [-> Hwait]; injection Hwait as -> ->.
    + cbv beta iota in H. apply runs_bind in H.
      destruct H as (t5 & t6 & o5 & e5 & Hload & -> & H).
      cbn in Hload. destruct Hload as ([[] | err] & t & -> & Hload);
        cbn in Hload; destruct Hload as [-> Hload]; injection Hload as -> ->;
        cbn in H; destruct H as [-> H]; injection H as -> ->;
        (split; [reflexivity |]); cbn.
      * right. right. split; [reflexivity |]. eexists. split; reflexivity.
      * right. left. exists err. auto.
    + cbn in H. destruct H as [-> H]. injection H as -> ->.
      split; [reflexivity |]. left. exists err. cbn. auto.
  - cbn in H. destruct H as [-> H]. injection H as -> ->.
    split; [reflexivity |]. split; [reflexivity |].
    eexists. split; reflexivity.
Qed.

Definition network_retry :=
  Eval vm_compute in
    run_in (page_env unreachable_model (fun _ => false)) []
      (fixNetworkIssue (JStr "retry request") new_engine).

Lemma fixNetworkIssue_waits_then_reloads_witness :
  snd (snd network_retry) = new_engine
  /\ if Str.includes "retry request" "retry" then
       (exists err,
           fst network_retry = [Obs (page_waitForTimeout 5000) (inr err)]
           /\ fst (snd network_retry) = Thrown (Raised err))
       \/ (exists err,
              fst network_retry
              = [ Obs (page_waitForTimeout 5000) (inl tt);
                  Obs (page_reload "networkidle" (Some 60000)) (inr err) ]
              /\ fst (snd network_retry) = Thrown (Raised err))
       \/ (fst network_retry
           = [ Obs (page_waitForTimeout 5000) (inl tt);
               Obs (page_reload "networkidle" (Some 60000)) (inl tt) ]
           /\ exists result,
                fst (snd network_retry) = Returned result
                /\ success result = true)
     else
       fst network_retry = []
       /\ exists result,
            fst (snd network_retry) = Returned result
            /\ success result = false.
Proof.
  apply (fixNetworkIssue_waits_then_reloads "retry request" new_engine
           (fst network_retry) (fst (snd network_retry))
           (snd (snd network_retry))).
  apply (run_in_eq_runs (page_env unreachable_model (fun _ => false)) _ []).
  vm_compute. reflexivity.
Defined.

End NetworkHandler.
